(** * XPather: the HtmlCleaner-compatible XPath evaluator of kolmafia-stubs

    A shallow embedding of [src/lib/xpather.ts] and the properties of it
    that the specification states.

    Modelling conventions.
    - A JavaScript string is a [string]: a sequence of code units, here the
      Latin-1 range (code units 0..255).  Every character the evaluator
      inspects (delimiters, digits, signs, [@], [.], [*], white space) lies in
      that range.
    - A JavaScript number is a [number]: [NaN] or an exact decimal
      [mantissa / 10 ^ scale].  Every number the evaluator creates is an
      integer (a position, a length, [parseInt]) or a decimal literal
      ([parseFloat]); rounding to binary64 is not modelled.
    - An array index is a [Z], as [findClosingIndex] returns [-1].
    - A thrown exception is the [outcome] [Throws].  The recursion of
      [evaluateAgainst] is bounded by a [fuel] argument, and [Timeout] is the
      outcome of a run that exhausted it; [evaluateAgainst_settled] shows
      that the fuel of the entry point is never exhausted.
    - An element is a subtree of its document together with the path to it;
      the recursion of [getElementsByName] on child elements is structural
      on the subtree.
    - Two functions of the platform are parameters of the evaluator:
      [String.prototype.localeCompare] and the conversion of a number to a
      string. *)

From Stdlib Require Import String Ascii List ZArith Bool Lia Arith DecimalString.
Import ListNotations.

Local Open Scope string_scope.
Local Open Scope list_scope.
Local Open Scope Z_scope.

(* ------------------------------------------------------------------ *)
(** ** Strings *)
(* ------------------------------------------------------------------ *)

Module Js.

Definition code (c : ascii) : N := N_of_ascii c.

(** [c >= lo && c <= hi] on one-character strings. *)
Definition charBetween (lo hi c : ascii) : bool :=
  (N.leb (code lo) (code c) && N.leb (code c) (code hi))%bool.

(** White space removed by [String.prototype.trim], Latin-1 range:
    TAB, LF, VT, FF, CR, SP and NBSP. *)
Definition isWhiteSpace (c : ascii) : bool :=
  let n := code c in
  (N.eqb n 9 || N.eqb n 10 || N.eqb n 11 || N.eqb n 12 || N.eqb n 13
   || N.eqb n 32 || N.eqb n 160)%bool.

Fixpoint trimStart (s : string) : string :=
  match s with
  | String c s' => if isWhiteSpace c then trimStart s' else s
  | EmptyString => EmptyString
  end.

Fixpoint rev (s : string) (acc : string) : string :=
  match s with
  | String c s' => rev s' (String c acc)
  | EmptyString => acc
  end.

Definition trimEnd (s : string) : string := rev (trimStart (rev s "")) "".

Definition trim (s : string) : string := trimEnd (trimStart s).

(** [String.prototype.toLowerCase], Latin-1 range. *)
Definition lowerChar (c : ascii) : ascii :=
  let n := code c in
  if (N.leb 65 n && N.leb n 90)%bool then ascii_of_N (n + 32)
  else if (N.leb 192 n && N.leb n 222 && negb (N.eqb n 215))%bool
       then ascii_of_N (n + 32)
  else c.

Fixpoint toLowerCase (s : string) : string :=
  match s with
  | String c s' => String (lowerChar c) (toLowerCase s')
  | EmptyString => EmptyString
  end.

Definition startsWith (s : string) (c : ascii) : bool :=
  match s with
  | String d _ => Ascii.eqb d c
  | EmptyString => false
  end.

(** [s.slice(1)] *)
Definition slice1 (s : string) : string :=
  match s with
  | String _ s' => s'
  | EmptyString => EmptyString
  end.

(** [parts.join('')] *)
Definition join (parts : list string) : string :=
  fold_right String.append "" parts.

(** Every character of [s] satisfies [p]. *)
Fixpoint all (p : ascii -> bool) (s : string) : bool :=
  match s with
  | String c s' => (p c && all p s')%bool
  | EmptyString => true
  end.

End Js.

(* ------------------------------------------------------------------ *)
(** ** Tokenizer ([XPather.constructor]) *)
(* ------------------------------------------------------------------ *)

(** The double quote, code unit 34. *)
Definition dquote : ascii := Eval cbv in ascii_of_nat 34.

(** The character class of the splitting regular expression: the slash, the
    parentheses, the square brackets, the two quotes, and the equal, less-than
    and greater-than signs. *)
Definition delimiters : list ascii :=
  ["/"; "("; ")"; "["; "]"; dquote; "'"; "="; "<"; ">"]%char.

Definition isDelimiter (c : ascii) : bool :=
  existsb (Ascii.eqb c) delimiters.

(** [expression.split(re)] for a regular expression [re] that is one capturing
    group around a character class: the fragments between the matches, with
    every matched character kept as a fragment of its own.  [cur] is the
    fragment being read. *)
Fixpoint splitFrom (cur : string) (s : string) : list string :=
  match s with
  | EmptyString => [cur]
  | String c s' =>
      if isDelimiter c
      then cur :: String c "" :: splitFrom "" s'
      else splitFrom (cur ++ String c "")%string s'
  end.

Definition split (expression : string) : list string :=
  splitFrom "" expression.

(** [token => token]: only the empty string is falsy. *)
Definition truthy (token : string) : bool :=
  match token with
  | EmptyString => false
  | _ => true
  end.

Definition tokenize (expression : string) : list string :=
  filter truthy (split expression).

(* ------------------------------------------------------------------ *)
(** ** Token classifiers *)
(* ------------------------------------------------------------------ *)

Definition C0 : ascii := "0"%char.
Definition C9 : ascii := "9"%char.
Definition CD : ascii := "."%char.
Definition CP : ascii := "+"%char.
Definition CM : ascii := "-"%char.
Definition CS : ascii := " "%char.

Definition isDigit (c : ascii) : bool := Js.charBetween C0 C9 c.

(** The loop [for (; i < l; i++)] of [isValidDouble], over the characters
    after the first. *)
Fixpoint doubleTail (s : string) : bool :=
  match s with
  | EmptyString => true
  | String c s' =>
      if (negb (Ascii.eqb c CD) && negb (isDigit c))%bool then false
      else doubleTail s'
  end.

Definition isValidDouble (value : string) : bool :=
  match value with
  | EmptyString => false
  | String c rest =>
      if (Ascii.eqb c CP || Ascii.eqb c CM || Ascii.eqb c CS || isDigit c)%bool
      then doubleTail rest
      else false
  end.

Fixpoint integerTail (s : string) : bool :=
  match s with
  | EmptyString => true
  | String c s' => if negb (isDigit c) then false else integerTail s'
  end.

Definition isValidInteger (value : string) : bool :=
  match value with
  | EmptyString => false
  | String c rest =>
      if (Ascii.eqb c CP || Ascii.eqb c CM || isDigit c)%bool
      then integerTail rest
      else false
  end.

(** Checks if token is attribute (starts with @). *)
Definition isAtt (token : string) : bool :=
  (Nat.ltb 1 (String.length token) && Js.startsWith token "@"%char)%bool.

(** [isIdentifier] returns [false] on every path: the regular expression is
    only tested on the way to [return false]. *)
Definition isIdentifier (s : string) : bool := false.


(* ------------------------------------------------------------------ *)
(** ** Numbers *)
(* ------------------------------------------------------------------ *)

Inductive number : Type :=
| NaN
| Dec (mantissa : Z) (scale : nat).  (** [mantissa / 10 ^ scale] *)

Module Num.

Definition ofZ (z : Z) : number := Dec z 0.

Definition pow10 (k : nat) : Z := 10 ^ Z.of_nat k.

(** Comparison of two finite numbers by cross multiplication. *)
Definition cmp (m1 : Z) (s1 : nat) (m2 : Z) (s2 : nat) : comparison :=
  Z.compare (m1 * pow10 s2) (m2 * pow10 s1).

(** [a === b]; [NaN] equals nothing. *)
Definition eqb (a b : number) : bool :=
  match a, b with
  | Dec m1 s1, Dec m2 s2 =>
      match cmp m1 s1 m2 s2 with Eq => true | _ => false end
  | _, _ => false
  end.

(** [a < b] *)
Definition ltb (a b : number) : bool :=
  match a, b with
  | Dec m1 s1, Dec m2 s2 =>
      match cmp m1 s1 m2 s2 with Lt => true | _ => false end
  | _, _ => false
  end.

(** [a <= b] *)
Definition leb (a b : number) : bool :=
  match a, b with
  | Dec m1 s1, Dec m2 s2 =>
      match cmp m1 s1 m2 s2 with Gt => false | _ => true end
  | _, _ => false
  end.

(** SameValueZero, the equality of [Set] and [Array.prototype.includes]:
    [NaN] is the same value as [NaN]. *)
Definition sameValueZero (a b : number) : bool :=
  match a, b with
  | NaN, NaN => true
  | _, _ => eqb a b
  end.

Definition digitValue (c : ascii) : Z := Z.of_N (Js.code c) - 48.

(** The longest prefix of decimal digits and what follows it. *)
Fixpoint spanDigits (s : string) : list ascii * string :=
  match s with
  | String c s' =>
      if isDigit c
      then let (ds, rest) := spanDigits s' in (c :: ds, rest)
      else ([], s)
  | EmptyString => ([], EmptyString)
  end.

Definition digitsValue (ds : list ascii) : Z :=
  fold_left (fun acc c => acc * 10 + digitValue c) ds 0.

Definition signed (negative : bool) (z : Z) : Z :=
  if negative then - z else z.

(** An optional sign in front of [s]. *)
Definition takeSign (s : string) : bool * string :=
  match s with
  | String c s' =>
      if Ascii.eqb c CM then (true, s')
      else if Ascii.eqb c CP then (false, s')
      else (false, s)
  | EmptyString => (false, s)
  end.

(** [parseInt(s)], radix 10: leading white space, a sign, then the longest
    run of digits; [NaN] when there is no digit.  (The prefix [0x] selects
    radix 16 in JavaScript; no token that [isValidInteger] accepts has
    it.) *)
Definition parseInt (s : string) : number :=
  let (negative, rest) := takeSign (Js.trimStart s) in
  match spanDigits rest with
  | ([], _) => NaN
  | (ds, _) => Dec (signed negative (digitsValue ds)) 0
  end.

(** [parseFloat(s)]: leading white space, a sign, digits, and an optional
    decimal point with digits; [NaN] when neither part has a digit.  (An
    exponent part and [Infinity] are read by JavaScript too; no token that
    [isValidDouble] accepts has them.) *)
Definition parseFloat (s : string) : number :=
  let (negative, rest) := takeSign (Js.trimStart s) in
  let (intDigits, afterInt) := spanDigits rest in
  let fracDigits :=
    match afterInt with
    | String c s' => if Ascii.eqb c CD then fst (spanDigits s') else []
    | EmptyString => []
    end in
  match intDigits, fracDigits with
  | [], [] => NaN
  | _, _ =>
      Dec (signed negative (digitsValue (intDigits ++ fracDigits)))
          (List.length fracDigits)
  end.

End Num.

(* ------------------------------------------------------------------ *)
(** ** The DOM ([XPatherNode], [XPatherElement]) *)
(* ------------------------------------------------------------------ *)

(** The types of the nodes that are not elements. *)
Inductive CharKind : Type := Text | CDATASection | ProcessingInstruction | Comment.

Definition kindType (k : CharKind) : Z :=
  match k with
  | Text => 3
  | CDATASection => 4
  | ProcessingInstruction => 7
  | Comment => 8
  end.

(** A node of the tree: an element with its attributes in document order and
    its child nodes, or a node of another type with its character data. *)
#[warnings="-register-all"]
Inductive Node : Type :=
| Element (nodeName : string) (attributes : list (string * string))
          (childNodes : list Node)
| CharacterData (kind : CharKind) (data : string).

Definition ELEMENT_NODE : Z := 1.

Definition nodeType (n : Node) : Z :=
  match n with
  | Element _ _ _ => ELEMENT_NODE
  | CharacterData k _ => kindType k
  end.

(** Checks if the given XPathNode is an XPathElement. *)
Definition isElementNode (n : Node) : bool :=
  Z.eqb (nodeType n) ELEMENT_NODE.

(** What [parentNode] is at the outermost element: [null], the document
    (node type 9) or a document fragment (node type 11). *)
Inductive Top : Type :=
| Detached
| Document
| DocumentFragment.

(** A reference to an element of a document: the element, and the way up from
    it, innermost first: its index in its parent's [childNodes] and its
    parent.  Two references of one document are the same object exactly when
    the index paths are equal. *)
Record XPatherElement : Type := mkElement {
  node : Node;
  path : list (nat * Node);
  top : Top
}.

Definition sameElement (a b : XPatherElement) : bool :=
  if list_eq_dec Nat.eq_dec (map fst (path a)) (map fst (path b))
  then true else false.

Definition nodeName (el : XPatherElement) : string :=
  match node el with
  | Element nm _ _ => nm
  | CharacterData _ _ => EmptyString
  end.

Definition attributes (el : XPatherElement) : list (string * string) :=
  match node el with
  | Element _ atts _ => atts
  | CharacterData _ _ => []
  end.

Definition childNodes (n : Node) : list Node :=
  match n with
  | Element _ _ cs => cs
  | CharacterData _ _ => []
  end.

(** [textContent]: the character data of the text and CDATA descendants, in
    document order; comments and processing instructions are left out. *)
Fixpoint textContent (n : Node) : string :=
  match n with
  | Element _ _ cs =>
      (fix children (cs : list Node) : string :=
         match cs with
         | [] => EmptyString
         | c :: cs' =>
             (match c with
              | CharacterData (ProcessingInstruction | Comment) _ =>
                  EmptyString
              | _ => textContent c
              end ++ children cs')%string
         end) cs
  | CharacterData _ d => d
  end.


(* ------------------------------------------------------------------ *)
(** ** Values, outcomes, sets and objects *)
(* ------------------------------------------------------------------ *)

(** [XPatherResult<T>]: [boolean | number | string | T]. *)
Inductive XPatherResult : Type :=
| VBool (b : bool)
| VNum (n : number)
| VStr (s : string)
| VElem (e : XPatherElement).

(** Checks if the given XPathResultItem is an XPathElement:
    [Boolean(value) && typeof value === 'object']. *)
Definition isElement (value : XPatherResult) : bool :=
  match value with
  | VElem _ => true
  | _ => false
  end.

Definition isString (value : XPatherResult) : bool :=
  match value with
  | VStr _ => true
  | _ => false
  end.

(** SameValueZero on values: objects by identity, primitives by value. *)
Definition sameValueZero (a b : XPatherResult) : bool :=
  match a, b with
  | VBool x, VBool y => Bool.eqb x y
  | VNum x, VNum y => Num.sameValueZero x y
  | VStr x, VStr y => String.eqb x y
  | VElem x, VElem y => sameElement x y
  | _, _ => false
  end.

(** [list.includes(v)] *)
Definition includes (l : list XPatherResult) (v : XPatherResult) : bool :=
  existsb (sameValueZero v) l.

(** A [Set], as the list of its members in insertion order. *)
Module JsSet.

Definition add (s : list XPatherResult) (v : XPatherResult)
  : list XPatherResult :=
  if includes s v then s else s ++ [v].

(** Adds all items in [source] to [target]. *)
Definition addAll (target source : list XPatherResult)
  : list XPatherResult :=
  fold_left add source target.

(** [new Set(items)] *)
Definition ofList (items : list XPatherResult) : list XPatherResult :=
  addAll [] items.

End JsSet.

(** An object with string values, as the list of its properties in the order
    [Object.values] enumerates them: the keys that are array indices in
    ascending order, then the other keys in the order of their creation. *)
Module JsObject.

Definition arrayIndex (key : string) : option Z :=
  match key with
  | EmptyString => None
  | String c rest =>
      if (isDigit c && integerTail rest
          && (negb (Ascii.eqb c C0) || String.eqb rest EmptyString))%bool
      then
        let v := Num.digitsValue (list_ascii_of_string key) in
        if v <=? 4294967294 then Some v else None
      else None
  end.

Definition hasKey (o : list (string * string)) (key : string) : bool :=
  existsb (fun kv => String.eqb (fst kv) key) o.

Fixpoint replace (o : list (string * string)) (key value : string)
  : list (string * string) :=
  match o with
  | [] => []
  | (k, v) :: o' =>
      if String.eqb k key then (k, value) :: o'
      else (k, v) :: replace o' key value
  end.

(** A new array-index key goes before the first key that is a larger array
    index or no array index at all. *)
Fixpoint insertIndex (o : list (string * string)) (n : Z)
         (key value : string) : list (string * string) :=
  match o with
  | [] => [(key, value)]
  | (k, v) :: o' =>
      match arrayIndex k with
      | Some m =>
          if m <? n then (k, v) :: insertIndex o' n key value
          else (key, value) :: o
      | None => (key, value) :: o
      end
  end.

(** [o[key] = value] on an object made by an object literal.  The key
    [__proto__] is the accessor of [Object.prototype], whose setter ignores a
    string: the assignment creates no property. *)
Definition set (o : list (string * string)) (key value : string)
  : list (string * string) :=
  if String.eqb key "__proto__" then o
  else if hasKey o key then replace o key value
  else match arrayIndex key with
       | Some n => insertIndex o n key value
       | None => o ++ [(key, value)]
       end.

(** [Object.values(o)] *)
Definition values (o : list (string * string)) : list string :=
  map snd o.

End JsObject.

Inductive exn : Type :=
| XPatherException (message : option string)
| Error (message : string).

Inductive outcome (A : Type) : Type :=
| Returns (a : A)
| Throws (e : exn)
| Timeout.

Arguments Returns {A} a.
Arguments Throws {A} e.
Arguments Timeout {A}.

Definition bind {A B : Type} (m : outcome A) (k : A -> outcome B) : outcome B :=
  match m with
  | Returns a => k a
  | Throws e => Throws e
  | Timeout => Timeout
  end.

Notation "x <- m ;; k" := (bind m (fun x => k))
  (at level 61, m at next level, right associativity).

(** [throwStandardException()] *)
Definition throwStandardException {A : Type} : outcome A :=
  Throws (XPatherException None).

(** [list.forEach((curr, index) => ...)] with the state the callback updates;
    [index] is the index of the callback, from [0]. *)
Fixpoint forEachFrom {A S : Type} (body : A -> Z -> S -> outcome S)
         (index : Z) (l : list A) (state : S) : outcome S :=
  match l with
  | [] => Returns state
  | curr :: l' =>
      state' <- body curr index state ;;
      forEachFrom body (index + 1) l' state'
  end.

Definition forEach {A S : Type} (l : list A)
           (body : A -> Z -> S -> outcome S) (state : S) : outcome S :=
  forEachFrom body 0 l state.

(** [for (const x of l) ...] with the state the body updates. *)
Fixpoint forOf {A S : Type} (l : list A) (body : A -> S -> outcome S)
         (state : S) : outcome S :=
  match l with
  | [] => Returns state
  | x :: l' => state' <- body x state ;; forOf l' body state'
  end.

Definition len {A : Type} (l : list A) : Z := Z.of_nat (List.length l).

(* ------------------------------------------------------------------ *)
(** ** TagNode methods *)
(* ------------------------------------------------------------------ *)

(** The reference to the child of [el] that is [c], at index [i]. *)
Definition childOf (el : XPatherElement) (i : nat) (c : Node)
  : XPatherElement :=
  mkElement c ((i, node el) :: path el) (top el).

(** Value of the specified attribute, or null if this tag does not contain
    it. *)
Definition getAttributeByName (el : XPatherElement) (attName : string)
  : option string :=
  match find (fun kv => String.eqb (fst kv) attName) (attributes el) with
  | Some (_, value) => Some value
  | None => None
  end.

(** Map instance containing all attribute name/value pairs. *)
Definition getAttributes (el : XPatherElement) : list (string * string) :=
  fold_left (fun o attr => JsObject.set o (fst attr) (snd attr))
            (attributes el) [].

(** Get all elements in the tree that satisfy specified condition.  [n] and
    [up] are the node and the path of the element searched. *)
Fixpoint findMatchingNodes (condition : XPatherElement -> bool)
         (isRecursive : bool) (t : Top) (n : Node) (up : list (nat * Node))
         {struct n} : list XPatherElement :=
  match n with
  | Element _ _ cs =>
      (fix loop (cs : list Node) (i : nat) {struct cs} : list XPatherElement :=
         match cs with
         | [] => []
         | c :: cs' =>
             let currNode := mkElement c ((i, n) :: up) t in
             (if isElementNode c
              then (if condition currNode then [currNode] else [])
                   ++ (if isRecursive
                       then findMatchingNodes condition isRecursive t c
                                              ((i, n) :: up)
                       else [])
              else [])
             ++ loop cs' (S i)
         end) cs 0%nat
  | CharacterData _ _ => []
  end.

Definition findMatchingTagNodes (el : XPatherElement)
           (condition : XPatherElement -> bool) (isRecursive : bool)
  : list XPatherElement :=
  findMatchingNodes condition isRecursive (top el) (node el) (path el).

Definition getAllElementsList (el : XPatherElement) (isRecursive : bool)
  : list XPatherElement :=
  findMatchingTagNodes el (fun _ => true) isRecursive.

(** The loop of [getChildTagList] over the child nodes [cs], from index [i]
    on. *)
Fixpoint childTagsFrom (el : XPatherElement) (cs : list Node) (i : nat)
  : list XPatherElement :=
  match cs with
  | [] => []
  | item :: cs' =>
      (if isElementNode item then [childOf el i item] else [])
        ++ childTagsFrom el cs' (S i)
  end.

(** Array of child TagNode objects. *)
Definition getChildTagList (el : XPatherElement) : list XPatherElement :=
  childTagsFrom el (childNodes (node el)) 0.

Definition getElementListByName (el : XPatherElement) (findName : string)
           (isRecursive : bool) : list XPatherElement :=
  let lowerCaseName := Js.toLowerCase findName in
  findMatchingTagNodes
    el (fun e => String.eqb (Js.toLowerCase (nodeName e)) lowerCaseName)
    isRecursive.

Definition decimal (z : Z) : string :=
  DecimalString.NilZero.string_of_int (Z.to_int z).

(** The parent element, [null] when there is none; an [Error] when the parent
    node is not an element. *)
Definition notTagNode {A : Type} (nodeType : Z) : outcome A :=
  Throws (Error ("Parent node is not an TagNode (nodeType: "
                 ++ decimal nodeType ++ ")")%string).

Definition getParent (el : XPatherElement) : outcome (option XPatherElement) :=
  match path el with
  | (_, parent) :: up =>
      if negb (Z.eqb (nodeType parent) ELEMENT_NODE)
      then notTagNode (nodeType parent)
      else Returns (Some (mkElement parent up (top el)))
  | [] =>
      match top el with
      | Detached => Returns None
      | Document => notTagNode 9
      | DocumentFragment => notTagNode 11
      end
  end.

(* ------------------------------------------------------------------ *)
(** ** The evaluator ([class XPather]) *)
(* ------------------------------------------------------------------ *)

(** The arguments of [evaluateAgainst] after the receiver: [obj], [from],
    [to], [isRecursive], [position], [last], [isFilterContext] and
    [filterSource]; [None] is [undefined]. *)
(** The local variables of the scan of [findClosingIndex]. *)
Record scan : Type := mkScan {
  isQuoteClosed : bool;
  isAposClosed : bool;
  brackets : Z;
  angleBrackets : Z;
  slashes : Z
}.

Definition evaluator : Type :=
  option (list XPatherResult) -> Z -> Z -> bool -> Z -> Z -> bool ->
  option (list XPatherResult) -> outcome (list XPatherResult).

Section XPather.

(** [s1.localeCompare(s2)]: negative, zero or positive. *)
Variable localeCompare : string -> string -> Z.

(** [String(n)] on a number. *)
Variable numberToString : number -> string.

(** array of basic tokens of which XPath expression is made *)
Variable tokenArray : list string.

(** [this.tokenArray[index]]; [None] is [undefined]. *)
Definition tokenAt (index : Z) : option string :=
  if index <? 0 then None else nth_error tokenArray (Z.to_nat index).

(** [this.tokenArray[index]] where the index is known to be in range. *)
Definition token (index : Z) : string :=
  match tokenAt index with
  | Some t => t
  | None => EmptyString
  end.

(** [literal === this.tokenArray[index]] *)
Definition tokenIs (literal : string) (index : Z) : bool :=
  match tokenAt index with
  | Some t => String.eqb literal t
  | None => false
  end.

Definition isToken (tok : string) (index : Z) : bool :=
  let len := len tokenArray in
  ((0 <=? index) && (index <? len)
   && String.eqb (Js.trim (token index)) (Js.trim tok))%bool.

Definition flatten (from to : Z) : string :=
  if from <=? to
  then Js.join (firstn (Z.to_nat (to + 1) - Z.to_nat from)
                       (skipn (Z.to_nat from) tokenArray))
  else EmptyString.

(** The loop [for (let i = from + 1; i <= to; i++)] that looks for the
    closing quote [q]; [count] is the number of iterations left. *)
Fixpoint closingQuote (q : string) (count : nat) (i : Z) : Z :=
  match count with
  | O => -1
  | S count' => if tokenIs q i then i else closingQuote q count' (i + 1)
  end.

(** One iteration of the loop of [findClosingIndex] for an opening bracket or
a slash, on the local variables of the loop: the token at [i] updates at most
one of them. *)
Definition scanToken (i : Z) (st : scan) : scan :=
  let closed := (isQuoteClosed st && isAposClosed st)%bool in
  if tokenIs (String dquote EmptyString) i
  then mkScan (negb (isQuoteClosed st)) (isAposClosed st) (brackets st)
              (angleBrackets st) (slashes st)
  else if tokenIs "'" i
  then mkScan (isQuoteClosed st) (negb (isAposClosed st)) (brackets st)
              (angleBrackets st) (slashes st)
  else if (tokenIs "(" i && closed)%bool
  then mkScan (isQuoteClosed st) (isAposClosed st) (brackets st + 1)
              (angleBrackets st) (slashes st)
  else if (tokenIs ")" i && closed)%bool
  then mkScan (isQuoteClosed st) (isAposClosed st) (brackets st - 1)
              (angleBrackets st) (slashes st)
  else if (tokenIs "[" i && closed)%bool
  then mkScan (isQuoteClosed st) (isAposClosed st) (brackets st)
              (angleBrackets st + 1) (slashes st)
  else if (tokenIs "]" i && closed)%bool
  then mkScan (isQuoteClosed st) (isAposClosed st) (brackets st)
              (angleBrackets st - 1) (slashes st)
  else if (tokenIs "/" i && closed
           && (brackets st =? 0) && (angleBrackets st =? 0))%bool
  then mkScan (isQuoteClosed st) (isAposClosed st) (brackets st)
              (angleBrackets st) (slashes st - 1)
  else st.

(** The loop [for (let i = from + 1; i <= to; i++)] of [findClosingIndex] for
an opening bracket or a slash; [count] is the number of iterations left. *)
Fixpoint closingBracket (count : nat) (i : Z) (st : scan) : Z :=
  match count with
  | O => -1
  | S count' =>
      let st := scanToken i st in
      if (isQuoteClosed st && isAposClosed st && (brackets st =? 0)
          && (angleBrackets st =? 0) && (slashes st =? 0))%bool
      then i
      else closingBracket count' (i + 1) st
  end.

(** Matching closing index in the token array for the current token, or -1
    if there is no closing token within expected bounds. *)
Definition findClosingIndex (from to : Z) : Z :=
  if from <? to then
    let count := Z.to_nat (to - from) in
    if tokenIs (String dquote EmptyString) from
    then closingQuote (String dquote EmptyString) count (from + 1)
    else if tokenIs "'" from
    then closingQuote "'" count (from + 1)
    else if (tokenIs "(" from || tokenIs "[" from || tokenIs "/" from)%bool
    then closingBracket count (from + 1)
                        (mkScan true true
                                (if tokenIs "(" from then 1 else 0)
                                (if tokenIs "[" from then 1 else 0)
                                (if tokenIs "/" from then 1 else 0))
    else -1
  else -1.

(** Checks if tokens in specified range represents valid function call. *)
Definition isFunctionCall (from to : Z) : bool :=
  if (negb (isIdentifier (token from)) && negb (isToken "(" (from + 1)))%bool
  then false
  else from + 1 <? findClosingIndex (from + 1) to.

Definition toText (o : XPatherResult) : string :=
  match o with
  | VElem e => textContent (node e)
  | VStr s => s
  | VNum n => numberToString n
  | VBool true => "true"
  | VBool false => "false"
  end.

(** Evaluates logic operation on two collections. *)
Definition evaluateLogic (first second : option (list XPatherResult))
           (logicOperator : string) : bool :=
  match first, second with
  | Some (elem1 :: _), Some (elem2 :: _) =>
      match elem1, elem2 with
      | VNum n1, VNum n2 =>
          if String.eqb logicOperator "=" then Num.eqb n1 n2
          else if String.eqb logicOperator "<" then Num.ltb n1 n2
          else if String.eqb logicOperator ">" then Num.ltb n2 n1
          else if String.eqb logicOperator "<=" then Num.leb n1 n2
          else if String.eqb logicOperator ">=" then Num.leb n2 n1
          else false
      | _, _ =>
          let s1 := toText elem1 in
          let s2 := toText elem2 in
          let result := localeCompare s1 s2 in
          if String.eqb logicOperator "=" then result =? 0
          else if String.eqb logicOperator "<" then result <? 0
          else if String.eqb logicOperator ">" then result >? 0
          else if String.eqb logicOperator "<=" then result <=? 0
          else if String.eqb logicOperator ">=" then result >=? 0
          else false
      end
  | _, _ => false
  end.

(** The subroutines call [evaluateAgainst] back: [ev] is that method. *)
Section Subroutines.

Variable ev : evaluator.

(** Evaluates specified function.  Currently, following XPath functions
    are supported: last, position, text, count, data. *)
Definition evaluateFunction (source : list XPatherResult)
           (from to position last : Z) (isFilterContext : bool)
  : outcome (list XPatherResult) :=
  let name := Js.trim (token from) in
  forEach source
    (fun curr index result =>
       let index := index + 1 in
       if String.eqb "last" name then
         Returns (result ++ [VNum (Num.ofZ (if isFilterContext then last
                                            else len source))])
       else if String.eqb "position" name then
         Returns (result ++ [VNum (Num.ofZ (if isFilterContext
                                            then position else index))])
       else if String.eqb "text" name then
         match curr with
         | VElem e => Returns (result ++ [VStr (textContent (node e))])
         | VStr s => Returns (result ++ [curr])
         | _ => Returns result
         end
       else if String.eqb "count" name then
         argumentEvaluated <-
           ev (Some source) (from + 2) (to - 1) false position 0
              isFilterContext None ;;
         Returns (result ++ [VNum (Num.ofZ (len argumentEvaluated))])
       else if String.eqb "data" name then
         argumentEvaluated <-
           ev (Some source) (from + 2) (to - 1) false position 0
              isFilterContext None ;;
         Returns (result
                  ++ filter (fun elem => (isElement elem
                                          || isString elem)%bool)
                            argumentEvaluated)
       else
         Throws (XPatherException
                   (Some ("Unknown function " ++ name ++ "!")%string)))
    [].

(** Filter nodes satisfying the condition. *)
Definition filterByCondition (source : list XPatherResult) (from to : Z)
  : outcome (list XPatherResult) :=
  forEach source
    (fun curr index result =>
       let index := index + 1 in
       logicValueList <-
         ev (Some [curr]) from to false index (len source) true
            (Some [curr]) ;;
       match logicValueList with
       | first :: _ =>
           match first with
           | VBool b => Returns (if b then result ++ [curr] else result)
           | VNum n =>
               Returns (if Num.eqb n (Num.ofZ index)
                        then result ++ [curr] else result)
           | _ => Returns (result ++ [curr])
           end
       | [] => Returns result
       end)
    [].

(** The set [nodes] of the recursive attribute axis: the descendants of the
elements of [source], from the set [nodes] on. *)
Definition descendantNodes (source nodes : list XPatherResult)
  : list XPatherResult :=
  fold_left
    (fun nodes next =>
       match next with
       | VElem e => JsSet.addAll nodes (map VElem (getAllElementsList e true))
       | _ => nodes
       end)
    source nodes.

(** The body of the loop [for (const next of Array.from(nodes))] of the
attribute axis; [name] is the token without its [@]. *)
Definition attributeVisit (name : string) (from to : Z)
           (isFilterContext : bool) (next : XPatherResult)
           (result : list XPatherResult) : outcome (list XPatherResult) :=
  match next with
  | VElem e =>
      if String.eqb "*" name then
        values <-
          ev (Some (map VStr (JsObject.values (getAttributes e))))
             (from + 1) to false 1 1 isFilterContext None ;;
        Returns (result ++ values)
      else
        match getAttributeByName e name with
        | Some attValue =>
            values <-
              ev (Some [VStr attValue]) (from + 1) to false 1 1
                 isFilterContext None ;;
            Returns (result ++ values)
        | None => Returns result
        end
  | _ => throwStandardException
  end.

(** The attribute axis of [getElementsByName]; [name] is the token
without its [@]. *)
Definition attributeStep (source : list XPatherResult) (name : string)
           (from to : Z) (isRecursive isFilterContext : bool)
  : outcome (list XPatherResult) :=
  let nodes := if isRecursive then descendantNodes source [] else source in
  forOf nodes (attributeVisit name from to isFilterContext) [].

(** The loop [for (const childTag of childTags)] of [getElementsByName], over
the child nodes [cs] of the element [parent], from index [i] on: the values it
adds to [resultSet], in the order in which it adds them.  [recurse c i] is the
run of [getElementsByName([childTag], ...)] on the child [c] at index [i]:
the values that run adds to its own, empty, set. *)
Fixpoint childTagsLoop (recurse : Node -> nat -> outcome (list XPatherResult))
         (parent : XPatherElement) (axis : bool)
         (refinedSubnodes : list XPatherResult) (cs : list Node) (i : nat)
         {struct cs} : outcome (list XPatherResult) :=
  match cs with
  | [] => Returns []
  | c :: cs' =>
      if isElementNode c then
        let childTag := childOf parent i c in
        additions <- recurse c i ;;
        let childrenByName := JsSet.ofList additions in
        rest <- childTagsLoop recurse parent axis refinedSubnodes cs' (S i) ;;
        Returns ((if (negb axis
                      && includes refinedSubnodes (VElem childTag))%bool
                  then [VElem childTag] else [])
                 ++ childrenByName ++ rest)
      else childTagsLoop recurse parent axis refinedSubnodes cs' (S i)
  end.

(** The body of the loop of [getElementsByName] on the element axis, for
the source element that is [n] with path [up]: the values it adds to
[resultSet], in the order in which it adds them.  The recursive call
[getElementsByName([childTag], ...)] starts from an empty set and
index [1]. *)
Fixpoint elementStep (name : string) (from to : Z)
         (isRecursive isFilterContext : bool) (t : Top)
         (n : Node) (up : list (nat * Node)) (index : Z) {struct n}
  : outcome (list XPatherResult) :=
  let node := mkElement n up t in
  let isSelf := String.eqb "." name in
  let isParent := String.eqb ".." name in
  let isAll := String.eqb "*" name in
  subnodes <-
    (if isSelf then Returns [node]
     else if isParent then
       parent <- getParent node ;;
       Returns match parent with
               | Some p => [p]
               | None => []
               end
     else Returns (if isAll then getChildTagList node
                   else getElementListByName node name false)) ;;
  let nodeSet := JsSet.ofList (map VElem subnodes) in
  refinedSubnodes <-
    ev (Some nodeSet) (from + 1) to false index (len nodeSet)
       isFilterContext None ;;
  if isRecursive then
    let axis := (isSelf || isParent || isAll)%bool in
    added <-
      match n with
      | Element _ _ cs =>
          childTagsLoop
            (fun c i =>
               elementStep name from to isRecursive isFilterContext t c
                           ((i, n) :: up) 1)
            node axis refinedSubnodes cs 0%nat
      | CharacterData _ _ => Returns []
      end ;;
    Returns ((if axis then refinedSubnodes else []) ++ added)
  else Returns refinedSubnodes.

(** For the given source collection and specified name, returns
    collection of subnodes or attribute values. *)
Definition getElementsByName (source : list XPatherResult) (from to : Z)
           (isRecursive isFilterContext : bool)
  : outcome (list XPatherResult) :=
  let name := Js.trim (token from) in
  if isAtt name then
    attributeStep source (Js.slice1 name) from to isRecursive
                  isFilterContext
  else
    r <- forOf source
           (fun next state =>
              let '(resultSet, index) := state in
              match next with
              | VElem e =>
                  let index := index + 1 in
                  additions <-
                    elementStep name from to isRecursive isFilterContext
                                (top e) (node e) (path e) index ;;
                  Returns (JsSet.addAll resultSet additions, index)
              | _ => throwStandardException
              end)
           ([], 0) ;;
    Returns (fst r).

(** The body of [evaluateAgainst]. *)
Definition evaluateAgainstBody (obj : option (list XPatherResult))
           (from to : Z) (isRecursive : bool) (position last : Z)
           (isFilterContext : bool)
           (filterSource : option (list XPatherResult))
  : outcome (list XPatherResult) :=
  if ((0 <=? from) && (to <? len tokenArray) && (from <=? to))%bool then
    if String.eqb EmptyString (Js.trim (token from)) then
      ev obj (from + 1) to isRecursive position last isFilterContext
         filterSource
    else if isToken "(" from then
      let closingBracket := findClosingIndex from to in
      if 0 <? closingBracket then
        value <-
          ev obj (from + 1) (closingBracket - 1) false position last
             isFilterContext filterSource ;;
        ev (Some value) (closingBracket + 1) to false position last
           isFilterContext filterSource
      else throwStandardException
    else if isToken "[" from then
      let closingBracket := findClosingIndex from to in
      if 0 <? closingBracket then
        value <-
          match obj with
          | Some obj => filterByCondition obj (from + 1)
                                          (closingBracket - 1)
          | None => Returns []
          end ;;
        ev (Some value) (closingBracket + 1) to false position last
           isFilterContext filterSource
      else throwStandardException
    else if (isToken (String dquote EmptyString) from
             || isToken "'" from)%bool then
      let closingQuote := findClosingIndex from to in
      if from <? closingQuote then
        let value := [VStr (flatten (from + 1) (closingQuote - 1))] in
        ev (Some value) (closingQuote + 1) to false position last
           isFilterContext filterSource
      else throwStandardException
    else if ((isToken "=" from || isToken "<" from || isToken ">" from)
             && isFilterContext)%bool then
      if (isToken "=" (from + 1)
          && (isToken "<" from || isToken ">" from))%bool then
        secondObject <-
          ev filterSource (from + 2) to false position last
             isFilterContext filterSource ;;
        Returns [VBool (evaluateLogic
                          obj (Some secondObject)
                          (token from ++ token (from + 1))%string)]
      else
        secondObject <-
          ev filterSource (from + 1) to false position last
             isFilterContext filterSource ;;
        Returns [VBool (evaluateLogic obj (Some secondObject)
                                      (token from))]
    else if isToken "/" from then
      let goRecursive := isToken "/" (from + 1) in
      let from := if goRecursive then from + 1 else from in
      if from <? to then
        let toIndex := findClosingIndex from to - 1 in
        let toIndex := if toIndex <=? from then to else toIndex in
        value <-
          ev obj (from + 1) toIndex goRecursive 1 last isFilterContext
             filterSource ;;
        ev (Some value) (toIndex + 1) to false 1 last isFilterContext
           filterSource
      else throwStandardException
    else if isFunctionCall from to then
      let closingBracketIndex := findClosingIndex (from + 1) to in
      funcValue <-
        match obj with
        | Some obj => evaluateFunction obj from to position last
                                       isFilterContext
        | None => Returns []
        end ;;
      ev (Some funcValue) (closingBracketIndex + 1) to false 1 last
         isFilterContext filterSource
    else if isValidInteger (token from) then
      let value := [VNum (Num.parseInt (token from))] in
      ev (Some value) (from + 1) to false position last isFilterContext
         filterSource
    else if isValidDouble (token from) then
      let value := [VNum (Num.parseFloat (token from))] in
      ev (Some value) (from + 1) to false position last isFilterContext
         filterSource
    else
      match obj with
      | Some obj => getElementsByName obj from to isRecursive
                                      isFilterContext
      | None => Returns []
      end
  else
    Returns match obj with
            | Some obj => obj
            | None => []
            end.

End Subroutines.

(** [evaluateAgainst], with at most [fuel] nested calls. *)
Fixpoint evaluateAgainst (fuel : nat) : evaluator :=
  match fuel with
  | O => fun _ _ _ _ _ _ _ _ => Timeout
  | S fuel' => evaluateAgainstBody (evaluateAgainst fuel')
  end.

End XPather.

Arguments evaluateAgainst localeCompare numberToString tokenArray fuel _ _ _ _ _ _ _ _ : rename.

(** As many nested calls as a token range can need: every call that
    [evaluateAgainst] makes, directly or through a subroutine, is on a
    shorter range. *)
Definition fuelFor (tokenArray : list string) : nat :=
  S (List.length tokenArray).

Section Entry.

Variable localeCompare : string -> string -> Z.
Variable numberToString : number -> string.

(** Main public method of the class: a way to execute XPath expression
    against specified TagNode instance; [None] is [null]. *)
Definition evaluateAgainstNode (tokenArray : list string)
           (node : option XPatherElement) : outcome (list XPatherResult) :=
  match node with
  | None =>
      Throws (XPatherException
                (Some "Cannot evaluate XPath expression against null value!"))
  | Some node =>
      evaluateAgainst localeCompare numberToString tokenArray
                      (fuelFor tokenArray)
                      (Some [VElem node]) 0 (len tokenArray - 1) false 1 0
                      false None
  end.

(** Evaluates XPath expression on give node. *)
Definition evaluateXPath (el : XPatherElement) (xPathExpression : string)
  : outcome (list XPatherResult) :=
  evaluateAgainstNode (tokenize xPathExpression) (Some el).

End Entry.

(* ------------------------------------------------------------------ *)
(** ** Two platforms *)
(* ------------------------------------------------------------------ *)

Definition signOf (c : comparison) : Z :=
  match c with
  | Lt => -1
  | Eq => 0
  | Gt => 1
  end.

(** Comparison of the code units, position by position. *)
Definition codeUnitCompare (s1 s2 : string) : Z :=
  signOf (String.compare s1 s2).

Module Positional.
(** The digits of [m / 10 ^ scale] without trailing zeros. *)
Fixpoint normalise (m : Z) (scale : nat) : Z * nat :=
  match scale with
  | O => (m, O)
  | S scale' =>
      if Z.eqb (m mod 10) 0 then normalise (m / 10) scale' else (m, scale)
  end.

Fixpoint padLeft (width : nat) (s : string) : string :=
  match width with
  | O => s
  | S w => if Nat.ltb w (String.length s) then s
           else padLeft w (String "0" s)
  end.

(** [String(n)] for a number that JavaScript prints in positional
    notation. *)
Definition toString (n : number) : string :=
  match n with
  | NaN => "NaN"
  | Dec m s =>
      let (m, s) := normalise m s in
      match s with
      | O => decimal m
      | _ =>
          ((if Z.ltb m 0 then "-" else "")
             ++ decimal (Z.div (Z.abs m) (Num.pow10 s)) ++ "."
             ++ padLeft s (decimal (Z.modulo (Z.abs m) (Num.pow10 s))))%string
      end
  end.
End Positional.

(** A collation in the style of the Unicode Collation Algorithm on letters,
    which is what [localeCompare] runs where it is backed by ICU: strings are
    ordered alphabetically whatever the case, and the case only breaks ties,
    lower case first. *)
Definition alphabeticCompare (s1 s2 : string) : Z :=
  match String.compare (Js.toLowerCase s1) (Js.toLowerCase s2) with
  | Eq => signOf (String.compare s2 s1)
  | c => signOf c
  end.

(** The two values are numbers. *)
Definition bothNumbers (a b : XPatherResult) : bool :=
  match a, b with
  | VNum _, VNum _ => true
  | _, _ => false
  end.

(** The comparison operators, on the sign of a three-way comparison. *)
Definition applyOperator (logicOperator : string) (sign : Z) : bool :=
  if String.eqb logicOperator "=" then sign =? 0
  else if String.eqb logicOperator "<" then sign <? 0
  else if String.eqb logicOperator ">" then sign >? 0
  else if String.eqb logicOperator "<=" then sign <=? 0
  else if String.eqb logicOperator ">=" then sign >=? 0
  else false.

(* ------------------------------------------------------------------ *)
(** ** The double literal of the specification *)
(* ------------------------------------------------------------------ *)

Module Literal.

(** The token without its optional leading [+], [-] or space. *)
Definition unsigned (tok : string) : string :=
  match tok with
  | String c rest =>
      if (Ascii.eqb c CP || Ascii.eqb c CM || Ascii.eqb c CS)%bool
      then rest else tok
  | EmptyString => EmptyString
  end.

Fixpoint count (p : ascii -> bool) (s : string) : nat :=
  match s with
  | String c s' => ((if p c then 1 else 0) + count p s')%nat
  | EmptyString => O
  end.

(** The double literal as the specification words it: an optional [+], [-] or
    space, then digits and at most one decimal point, at least one digit in
    total. *)
Definition isDoubleLiteral (tok : string) : bool :=
  let body := unsigned tok in
  (Js.all (fun c => (isDigit c || Ascii.eqb c CD)%bool) body
   && Nat.leb 1 (count isDigit body)
   && Nat.leb (count (Ascii.eqb CD) body) 1)%bool.

End Literal.

(* ------------------------------------------------------------------ *)
(** ** Fuel *)
(* ------------------------------------------------------------------ *)

(** The number of tokens of the range [from..to]. *)
Definition span (from to : Z) : nat := Z.to_nat (to + 1 - from).

(** Two runs have one outcome, and it is not [Timeout]. *)
Definition settled {A : Type} (o1 o2 : outcome A) : Prop :=
  o1 = o2 /\ o1 <> Timeout.

(** Two evaluators are settled on the ranges that satisfy [P]. *)
Definition agreeOn (P : Z -> Z -> Prop) (ev1 ev2 : evaluator) : Prop :=
  forall obj from to isRecursive position last isFilterContext filterSource,
    P from to ->
    settled (ev1 obj from to isRecursive position last isFilterContext
                 filterSource)
            (ev2 obj from to isRecursive position last isFilterContext
                 filterSource).

(* ------------------------------------------------------------------ *)
(** ** The filter subroutine of the specification *)
(* ------------------------------------------------------------------ *)

(** What the predicate's value-list decides for the value at index [i]: it is
    kept when the list is not empty and its first element is the boolean
    [true], or a number equal to [i], or neither a boolean nor a number. *)
Definition keeps (i : Z) (logicValueList : list XPatherResult) : bool :=
  match logicValueList with
  | [] => false
  | VBool b :: _ => b
  | VNum n :: _ => Num.eqb n (Num.ofZ i)
  | (VStr _ | VElem _) :: _ => true
  end.

(** The values of a list with their 1-based indices, from index [i] on. *)
Fixpoint indexedFrom {A : Type} (i : Z) (l : list A) : list (Z * A) :=
  match l with
  | [] => []
  | x :: l' => (i, x) :: indexedFrom (i + 1) l'
  end.

(** The values that the predicate's value-lists [outs] keep, in order. *)
Definition kept (ivs : list (Z * XPatherResult))
           (outs : list (list XPatherResult)) : list XPatherResult :=
  map (fun p => snd (fst p))
      (filter (fun p => keeps (fst (fst p)) (snd p)) (combine ivs outs)).

(** The functions [evaluateFunction] knows. *)
Definition knownFunctions : list string :=
  ["last"; "position"; "text"; "count"; "data"].

(* ------------------------------------------------------------------ *)
(** ** The document of scenario 7 *)
(* ------------------------------------------------------------------ *)

Module Scenario7.

(** [<div><span>Foo</span><div>Bar</div></div>] *)
Definition markup : Node :=
  Element "div" []
    [Element "span" [] [CharacterData Text "Foo"];
     Element "div" [] [CharacterData Text "Bar"]].

(** The document [xpath()] hands to the evaluator: [cleanHtml] loads the
    markup as an HTML document, so the markup is the content of [body], and
    the root of the evaluation is the document element [html], whose parent
    is the document. *)
Definition html : Node :=
  Element "html" [] [Element "head" [] []; Element "body" [] [markup]].

Definition root : XPatherElement := mkElement html [] Document.

Definition body : XPatherElement :=
  childOf root 1 (Element "body" [] [markup]).

(** The outer [div]. *)
Definition outer : XPatherElement := childOf body 0 markup.

(** The inner [div]. *)
Definition inner : XPatherElement :=
  childOf outer 1 (Element "div" [] [CharacterData Text "Bar"]).

(** An anchor with an [id], alone in its document. *)
Definition anchor : XPatherElement :=
  mkElement (Element "a" [("id", "x"); ("href", "r/n4")] []) [] Document.

End Scenario7.

(** The members of a set are distinct. *)
Inductive Distinct : list XPatherResult -> Prop :=
| Distinct_nil : Distinct []
| Distinct_snoc s v : Distinct s -> includes s v = false -> Distinct (s ++ [v]).

(* ------------------------------------------------------------------ *)
(** ** Runs without elements *)
(* ------------------------------------------------------------------ *)

(** No value of the list is an element. *)
Definition elementFree (l : list XPatherResult) : Prop :=
  Forall (fun v => isElement v = false) l.

Definition elementFreeOpt (o : option (list XPatherResult)) : Prop :=
  match o with
  | Some l => elementFree l
  | None => True
  end.

(** The outcome is a result that satisfies [Q], or an XPatherException (or
    no outcome for lack of fuel): it is not the [Error] of [getParent]. *)
Definition holds {A : Type} (Q : A -> Prop) (out : outcome A) : Prop :=
  match out with
  | Returns a => Q a
  | Throws (XPatherException _) => True
  | Throws (Error _) => False
  | Timeout => True
  end.

(** An evaluator that makes no element out of values that are not. *)
Definition flat (ev : evaluator) : Prop :=
  forall obj from to isRecursive position last isFilterContext filterSource,
    elementFreeOpt obj -> elementFreeOpt filterSource ->
    holds elementFree
          (ev obj from to isRecursive position last isFilterContext
              filterSource).

(* ------------------------------------------------------------------ *)
(** ** Name tokens *)
(* ------------------------------------------------------------------ *)

(** The delimiters as tokens. *)
Definition delimiterTokens : list string :=
  map (fun c => String c EmptyString) delimiters.

(** A token that the tokenizer can produce and that [evaluateAgainst] takes
    for a step of the element axis when no parenthesis follows it: it has no
    delimiter, it is not blank, it is no integer and no double literal, and
    it is no attribute reference. *)
Definition isNameToken (x : string) : bool :=
  (Js.all (fun c => negb (isDelimiter c)) x
   && negb (String.eqb EmptyString (Js.trim x))
   && negb (isValidInteger x)
   && negb (isValidDouble x)
   && negb (isAtt (Js.trim x)))%bool.

(* ------------------------------------------------------------------ *)
(** ** A small page *)
(* ------------------------------------------------------------------ *)

(** A page with the shapes that the expressions of the test suite look for. *)
Module Fixture.

Definition a (atts : list (string * string)) (text : string) : Node :=
  Element "a" atts [CharacterData Text text].

Definition page : Node :=
  Element "html" []
    [Element "head" [] [Element "style" [] []; Element "style" [] []];
     Element "body" []
       [Element "script" [("type", "text/javascript")] [];
        Element "div" [("id", "d1"); ("class", "c")]
          [a [("id", "t1"); ("class", "on"); ("href", "r/xc")] "Ocean";
           a [("href", "r/xy")] "More";
           Element "p" [] [CharacterData Text "one"]];
        Element "div" []
          [a [("id", "vsearchmore"); ("href", "r/bv")] "More";
           a [("id", "worldnews")] "World";
           Element "p" [] [CharacterData Text "two"]]]].

Definition root : XPatherElement := mkElement page [] Document.

(** What a result shows: the name and the [id] of an element, the text of
    another value. *)
Definition show (v : XPatherResult) : string :=
  match v with
  | VElem e =>
      (nodeName e ++ match getAttributeByName e "id" with
                     | Some id => "#" ++ id
                     | None => EmptyString
                     end)%string
  | _ => toText Positional.toString v
  end.

Definition xpath (selector : string) : outcome (list string) :=
  r <- evaluateXPath codeUnitCompare Positional.toString root selector ;;
  Returns (map show r).

End Fixture.


(* ------------------------------------------------------------------ *)
(** ** Notions for the further properties *)
(* ------------------------------------------------------------------ *)

(** [l1] is [l2] without some of its members, in the same order. *)
Inductive Subsequence {A : Type} : list A -> list A -> Prop :=
| Subsequence_nil : Subsequence [] []
| Subsequence_skip x l1 l2 : Subsequence l1 l2 -> Subsequence l1 (x :: l2)
| Subsequence_keep x l1 l2 :
    Subsequence l1 l2 -> Subsequence (x :: l1) (x :: l2).

(** A token without a delimiter. *)
Definition isPlain (t : string) : bool :=
  Js.all (fun c => negb (isDelimiter c)) t.

(** No two neighbours of the list are both without a delimiter. *)
Fixpoint noPlainNeighbours (l : list string) : bool :=
  match l with
  | a :: (b :: _) as rest =>
      (negb (isPlain a && isPlain b) && noPlainNeighbours rest)%bool
  | _ => true
  end.

(** The values that the function [text] gives for one value. *)
Definition textOf (curr : XPatherResult) : list XPatherResult :=
  match curr with
  | VElem e => [VStr (textContent (node e))]
  | VStr _ => [curr]
  | _ => []
  end.

(** The token is the step to the parent, [..]. *)
Definition isParentStep (t : string) : bool := String.eqb ".." (Js.trim t).

(** An evaluator that does not throw the [Error] of [getParent]. *)
Definition gentleEvaluator (ev : evaluator) : Prop :=
  forall obj from to isRecursive position last isFilterContext filterSource,
    holds (fun _ => True)
          (ev obj from to isRecursive position last isFilterContext
              filterSource).

(** The value is an element whose index path starts, innermost first, with
    an index below [i] and goes on with [up]. *)
Definition childBelow (i : nat) (up : list nat) (v : XPatherResult) : Prop :=
  exists e j, v = VElem e /\ (j < i)%nat /\ map fst (path e) = j :: up.

(** Elements whose index paths are [j :: up] for indices [j] that increase
    from [i] on: children of one element, in document order. *)
Inductive childrenFrom (up : list nat) : nat -> list XPatherElement -> Prop :=
| childrenFrom_nil i : childrenFrom up i []
| childrenFrom_cons i j e l :
    (i <= j)%nat -> map fst (path e) = j :: up ->
    childrenFrom up (S j) l -> childrenFrom up i (e :: l).

(** The child elements that a step with the name [name] looks at: all of
    them for [*], else those with that name. *)
Definition childrenByName (el : XPatherElement) (name : string)
  : list XPatherElement :=
  if String.eqb "*" name then getChildTagList el
  else getElementListByName el name false.

(** A name that can follow [@] in one token: it is not empty and has no
    delimiter and no white space. *)
Definition isAttributeName (name : string) : bool :=
  (truthy name
   && Js.all (fun c => negb (isDelimiter c) && negb (Js.isWhiteSpace c))
             name)%bool.

(** The values that the attribute step with the name [name] takes from an
    element: the values of all attributes for [*], else the value of the
    attribute of that name, if the element has it. *)
Definition attributeValues (el : XPatherElement) (name : string)
  : list XPatherResult :=
  if String.eqb "*" name
  then map VStr (JsObject.values (getAttributes el))
  else match getAttributeByName el name with
       | Some attValue => [VStr attValue]
       | None => []
       end.

(** The range [from..to] holds nothing but predicates in square brackets,
    each closed inside the range, and blank tokens; [count] bounds the number
    of predicates and blank tokens. *)
Fixpoint predicatesFrom (tokenArray : list string) (count : nat)
         (from to : Z) : bool :=
  match count with
  | O => false
  | S count' =>
      if to <? from then true
      else if String.eqb EmptyString (Js.trim (token tokenArray from))
      then predicatesFrom tokenArray count' (from + 1) to
      else if isToken tokenArray "[" from
      then let closingBracket := findClosingIndex tokenArray from to in
           ((0 <? closingBracket)
            && predicatesFrom tokenArray count' (closingBracket + 1) to)%bool
      else false
  end.

Definition onlyPredicates (tokenArray : list string) (from to : Z) : bool :=
  predicatesFrom tokenArray (S (span from to)) from to.

(* ================================================================== *)
(** * Properties *)
(* ================================================================== *)

(* ------------------------------------------------------------------ *)
(** ** The expressions of the test suite, on the small page *)
(* ------------------------------------------------------------------ *)

Example basic_recursion :
  Fixture.xpath "//div//a"
  = Returns ["a#t1"; "a"; "a#vsearchmore"; "a#worldnews"].
Proof. vm_compute; reflexivity. Qed.

Example attribute_existence :
  Fixture.xpath "//a[@id][@class]" = Returns ["a#t1"].
Proof. vm_compute; reflexivity. Qed.

Example numeric_index :
  Fixture.xpath "/body/*[1]/@type" = Returns ["text/javascript"]
  /\ Fixture.xpath "//body/div[2]/a[1]" = Returns ["a#vsearchmore"].
Proof. split; vm_compute; reflexivity. Qed.

Example attribute_comparison :
  Fixture.xpath "//a[. = 'More']/@href" = Returns ["r/xy"; "r/bv"].
Proof. vm_compute; reflexivity. Qed.

Example parent_selector :
  Fixture.xpath "//a[@id]/..//p" = Returns ["p"; "p"].
Proof. vm_compute; reflexivity. Qed.

Example grouping_parentheses :
  Fixture.xpath "(//div//a)[position() < 3]" = Returns ["a#t1"; "a"].
Proof. vm_compute; reflexivity. Qed.

Example single_and_double_slashes :
  Fixture.xpath "//div/@class" = Returns ["c"]
  /\ Fixture.xpath "//div//@href" = Returns ["r/xc"; "r/xy"; "r/bv"].
Proof. split; vm_compute; reflexivity. Qed.

Example lexicographical_comparison :
  Fixture.xpath "//a['v' < @id]/@id" = Returns ["vsearchmore"; "worldnews"]
  /\ Fixture.xpath "data(//a['v' < @id])"
     = Returns ["a#vsearchmore"; "a#worldnews"].
Proof. split; vm_compute; reflexivity. Qed.

Example count_function : Fixture.xpath "count(//a)" = Returns ["4"].
Proof. vm_compute; reflexivity. Qed.

Example last_function :
  Fixture.xpath "//p/last()" = Returns ["2"; "2"]
  /\ Fixture.xpath "//a[position() = last()]" = Returns ["a"; "a#worldnews"].
Proof. split; vm_compute; reflexivity. Qed.

Example position_function :
  Fixture.xpath "//style/position()" = Returns ["1"; "2"].
Proof. vm_compute; reflexivity. Qed.

Example unclosed_bracket_and_missing_step :
  Fixture.xpath "//div[" = Throws (XPatherException None)
  /\ Fixture.xpath "//div/" = Throws (XPatherException None).
Proof. split; vm_compute; reflexivity. Qed.

(* ------------------------------------------------------------------ *)
(** ** Tokenizer: no character is lost *)
(* ------------------------------------------------------------------ *)

Lemma append_empty (s : string) : (s ++ EmptyString)%string = s.
Proof.
  induction s as [|c s IH]; simpl; [reflexivity | now rewrite IH].
Qed.

Lemma append_assoc (a b c : string) :
  ((a ++ b) ++ c)%string = (a ++ (b ++ c))%string.
Proof.
  induction a as [|x a IH]; simpl; [reflexivity | now rewrite IH].
Qed.

Lemma join_filter_cons (t : string) (l : list string) :
  Js.join (filter truthy (t :: l)) = (t ++ Js.join (filter truthy l))%string.
Proof.
  destruct t; reflexivity.
Qed.

Lemma splitFrom_join (s cur : string) :
  Js.join (filter truthy (splitFrom cur s)) = (cur ++ s)%string.
Proof.
  revert cur; induction s as [|c s IH]; intros cur.
  - cbn [splitFrom]. rewrite join_filter_cons. reflexivity.
  - cbn [splitFrom]. destruct (isDelimiter c).
    + rewrite join_filter_cons.
      change (filter truthy (String c EmptyString :: splitFrom EmptyString s))
        with (String c EmptyString :: filter truthy (splitFrom EmptyString s)).
      cbn [Js.join fold_right]. fold (Js.join (filter truthy (splitFrom EmptyString s))).
      rewrite IH. reflexivity.
    + rewrite IH, append_assoc. reflexivity.
Qed.

(** C10. For every expression, the tokens of the tokenizer's output,
    concatenated in order, are the expression: splitting at the delimiter
    characters and dropping the empty fragments loses no character. *)
Theorem tokenize_concat (expression : string) :
  Js.join (tokenize expression) = expression.
Proof.
  unfold tokenize, split. now rewrite splitFrom_join.
Qed.

(** Every token is non-empty. *)
Lemma tokenize_nonempty (expression : string) :
  Forall (fun t => t <> EmptyString) (tokenize expression).
Proof.
  unfold tokenize. apply Forall_forall. intros t Ht.
  apply filter_In in Ht. destruct Ht as [_ Ht]. now destruct t.
Qed.

(** The class of the splitting expression has ten characters. *)
Lemma delimiters_count : List.length delimiters = 10%nat /\ NoDup delimiters.
Proof.
  split; [reflexivity|].
  repeat (constructor; [cbn; intuition discriminate|]). constructor.
Qed.

(* ------------------------------------------------------------------ *)
(** ** The double-literal classifier *)
(* ------------------------------------------------------------------ *)

Lemma doubleTail_spec (s : string) :
  doubleTail s = true <->
  Forall (fun d => d = CD \/ isDigit d = true) (list_ascii_of_string s).
Proof.
  induction s as [|c s IH]; cbn [doubleTail list_ascii_of_string].
  - split; [constructor | reflexivity].
  - destruct (Ascii.eqb_spec c CD) as [->|Hc]; cbn [negb andb].
    + rewrite IH. split; [intros H; constructor; auto | now inversion 1].
    + destruct (isDigit c) eqn:Hd; cbn [negb andb].
      * rewrite IH. split; [intros H; constructor; auto | now inversion 1].
      * split; [intros; discriminate|]. inversion 1 as [|? ? [Hx|Hx] _]; subst;
          [now elim Hc | congruence].
Qed.

(** C7, as the code has it.  The classifier accepts a token exactly when the
    token is not empty, its first character is [+], [-], a space or a digit,
    and every later character is a digit or a decimal point: no digit is
    required and the decimal points are not counted. *)
Theorem isValidDouble_accepts (value : string) :
  isValidDouble value = true <->
  exists c rest,
    value = String c rest
    /\ (c = CP \/ c = CM \/ c = CS \/ isDigit c = true)
    /\ Forall (fun d => d = CD \/ isDigit d = true) (list_ascii_of_string rest).
Proof.
  destruct value as [|c rest]; cbn [isValidDouble].
  - split; [intros; discriminate | intros (c & rest & H & _); discriminate].
  - destruct (Ascii.eqb_spec c CP) as [->|HP]; cbn [orb].
    { rewrite doubleTail_spec. split; [intros H; eauto 8|].
      intros (c & r & [= <- <-] & _ & H); exact H. }
    destruct (Ascii.eqb_spec c CM) as [->|HM]; cbn [orb].
    { rewrite doubleTail_spec. split; [intros H; eauto 8|].
      intros (c & r & [= <- <-] & _ & H); exact H. }
    destruct (Ascii.eqb_spec c CS) as [->|HS]; cbn [orb].
    { rewrite doubleTail_spec. split; [intros H; eauto 8|].
      intros (c & r & [= <- <-] & _ & H); exact H. }
    destruct (isDigit c) eqn:Hd.
    { rewrite doubleTail_spec. split; [intros H; eauto 8|].
      intros (c' & r & [= <- <-] & _ & H); exact H. }
    split; [intros; discriminate|].
    intros (c' & r & [= <- <-] & [?|[?|[?|?]]] & _); congruence.
Qed.

(** C7, as the specification words it, fails: a lone sign and a token with
    two decimal points are accepted, and a literal that starts with its
    decimal point is rejected. *)
Lemma isValidDouble_not_literal :
  (isValidDouble "+" = true /\ Literal.isDoubleLiteral "+" = false)
  /\ (isValidDouble "1.2.3" = true /\ Literal.isDoubleLiteral "1.2.3" = false)
  /\ (isValidDouble ".5" = false /\ Literal.isDoubleLiteral ".5" = true).
Proof.
  repeat split; reflexivity.
Qed.

(** The digits are the ten characters from [0] to [9]. *)
Lemma isDigit_spec (c : ascii) :
  isDigit c = true <->
  In c ["0"; "1"; "2"; "3"; "4"; "5"; "6"; "7"; "8"; "9"]%char.
Proof.
  destruct c as [[] [] [] [] [] [] [] []]; vm_compute;
    intuition (discriminate || congruence).
Qed.

(* ------------------------------------------------------------------ *)
(** ** Comparisons *)
(* ------------------------------------------------------------------ *)

Section Comparison.

Variable localeCompare : string -> string -> Z.
Variable numberToString : number -> string.

(** C8. A comparison with an operand list that is empty or missing is
    [false], whatever the operator; [evaluateLogic] throws nothing. *)
Theorem evaluateLogic_empty
        (first second : option (list XPatherResult)) (logicOperator : string) :
  first = None \/ first = Some [] \/ second = None \/ second = Some [] ->
  evaluateLogic localeCompare numberToString first second logicOperator
  = false.
Proof.
  intros [ -> | [ -> | [ -> | -> ]]]; try reflexivity;
    destruct first as [[|? ?]|]; reflexivity.
Qed.

(** When the two first elements are not both numbers, the comparison is the
    operator on the sign of [localeCompare] on their texts. *)
Lemma evaluateLogic_texts (elem1 elem2 : XPatherResult)
      (rest1 rest2 : list XPatherResult) (logicOperator : string) :
  bothNumbers elem1 elem2 = false ->
  evaluateLogic localeCompare numberToString
                (Some (elem1 :: rest1)) (Some (elem2 :: rest2)) logicOperator
  = applyOperator logicOperator
                  (localeCompare (toText numberToString elem1)
                                 (toText numberToString elem2)).
Proof.
  intros H. destruct elem1, elem2; try discriminate H; reflexivity.
Qed.

End Comparison.

(** C8 at a missing and at an empty operand. *)
Lemma evaluateLogic_empty_witness :
  evaluateLogic codeUnitCompare Positional.toString None (Some [VStr "a"]) "="
  = false
  /\ evaluateLogic codeUnitCompare Positional.toString
                   (Some [VNum (Dec 1 0)]) (Some []) "<=" = false.
Proof.
  split.
  - apply (evaluateLogic_empty codeUnitCompare Positional.toString
                               None (Some [VStr "a"]) "="). left. reflexivity.
  - apply (evaluateLogic_empty codeUnitCompare Positional.toString
                               (Some [VNum (Dec 1 0)]) (Some []) "<=").
    right. right. right. reflexivity.
Defined.

(** In a predicate, the comparison with an attribute that the element does
    not have is [false] and throws nothing: the value is dropped. *)
Example comparison_with_missing_attribute :
  Fixture.xpath "//div['x' = @nosuch]" = Returns [].
Proof. vm_compute; reflexivity. Qed.

(** C3 at ['a' < 'B'].  Where [localeCompare] collates alphabetically the
    comparison is [true]; by code units, [a] (97) after [B] (66), it is
    [false]. *)
Theorem evaluateLogic_collates :
  evaluateLogic alphabeticCompare Positional.toString
                (Some [VStr "a"]) (Some [VStr "B"]) "<" = true
  /\ evaluateLogic codeUnitCompare Positional.toString
                   (Some [VStr "a"]) (Some [VStr "B"]) "<" = false.
Proof.
  split; reflexivity.
Qed.

(* ------------------------------------------------------------------ *)
(** ** Every run ends: the fuel of a range *)
(* ------------------------------------------------------------------ *)

Lemma Node_induction (P : Node -> Prop) :
  (forall nm atts cs, Forall P cs -> P (Element nm atts cs)) ->
  (forall k d, P (CharacterData k d)) ->
  forall n, P n.
Proof.
  intros HE HC. fix IH 1. intros [nm atts cs|k d]; [|apply HC].
  apply HE. induction cs as [|c cs IHcs]; constructor; [apply IH | exact IHcs].
Qed.

Lemma settled_Returns {A : Type} (a : A) : settled (Returns a) (Returns a).
Proof. split; [reflexivity | discriminate]. Qed.

Lemma settled_Throws {A : Type} (e : exn) :
  settled (@Throws A e) (Throws e).
Proof. split; [reflexivity | discriminate]. Qed.

Lemma settled_bind {A B : Type} (m1 m2 : outcome A) (k1 k2 : A -> outcome B) :
  settled m1 m2 ->
  (forall a, m1 = Returns a -> settled (k1 a) (k2 a)) ->
  settled (bind m1 k1) (bind m2 k2).
Proof.
  intros [<- Hm] Hk. destruct m1 as [a|e|]; cbn [bind].
  - now apply Hk.
  - apply settled_Throws.
  - now elim Hm.
Qed.

Lemma forEachFrom_settled {A S : Type}
      (b1 b2 : A -> Z -> S -> outcome S) (l : list A) :
  (forall curr index state, In curr l ->
                            settled (b1 curr index state) (b2 curr index state)) ->
  forall index state,
    settled (forEachFrom b1 index l state) (forEachFrom b2 index l state).
Proof.
  induction l as [|x l IH]; intros Hb index state; cbn [forEachFrom].
  - apply settled_Returns.
  - apply settled_bind; [apply Hb; now left|].
    intros st _. apply IH. intros; apply Hb; now right.
Qed.

Lemma forOf_settled {A S : Type} (b1 b2 : A -> S -> outcome S) (l : list A) :
  (forall x state, In x l -> settled (b1 x state) (b2 x state)) ->
  forall state, settled (forOf l b1 state) (forOf l b2 state).
Proof.
  induction l as [|x l IH]; intros Hb state; cbn [forOf].
  - apply settled_Returns.
  - apply settled_bind; [apply Hb; now left|].
    intros st _. apply IH. intros; apply Hb; now right.
Qed.

Create HintDb settled.
#[local] Hint Resolve settled_Returns settled_Throws : settled.

Section Settled.

Variable tokenArray : list string.
Variable P : Z -> Z -> Prop.
Variables ev1 ev2 : evaluator.
Hypothesis Hev : agreeOn P ev1 ev2.

Lemma evaluateFunction_settled source from to position last isFilterContext :
  P (from + 2) (to - 1) ->
  settled (evaluateFunction tokenArray ev1 source from to position last
                            isFilterContext)
          (evaluateFunction tokenArray ev2 source from to position last
                            isFilterContext).
Proof.
  intros HP. unfold evaluateFunction, forEach.
  apply forEachFrom_settled. intros curr index result _.
  repeat match goal with
         | |- settled (if ?c then _ else _) _ => destruct c
         end; auto with settled.
  - destruct curr; auto with settled.
  - apply settled_bind; [now apply Hev | auto with settled].
  - apply settled_bind; [now apply Hev | auto with settled].
Qed.

Lemma filterByCondition_settled source from to :
  P from to ->
  settled (filterByCondition ev1 source from to)
          (filterByCondition ev2 source from to).
Proof.
  intros HP. unfold filterByCondition, forEach.
  apply forEachFrom_settled. intros curr index result _.
  apply settled_bind; [now apply Hev|].
  intros [|[] ?] _; auto with settled.
Qed.

Lemma attributeStep_settled source name from to isRecursive isFilterContext :
  P (from + 1) to ->
  settled (attributeStep ev1 source name from to isRecursive isFilterContext)
          (attributeStep ev2 source name from to isRecursive isFilterContext).
Proof.
  intros HP. unfold attributeStep.
  apply forOf_settled. intros next result _. unfold attributeVisit.
  destruct next; auto with settled; try apply settled_Throws.
  destruct (String.eqb "*" name).
  - apply settled_bind; [now apply Hev | auto with settled].
  - destruct (getAttributeByName e name); auto with settled.
    apply settled_bind; [now apply Hev | auto with settled].
Qed.

Lemma childTagsLoop_settled r1 r2 parent axis refined cs :
  Forall (fun c => forall i, settled (r1 c i) (r2 c i)) cs ->
  forall i,
    settled (childTagsLoop r1 parent axis refined cs i)
            (childTagsLoop r2 parent axis refined cs i).
Proof.
  induction 1 as [|c cs Hc _ IH]; intros i; cbn [childTagsLoop].
  - apply settled_Returns.
  - destruct (isElementNode c); [|apply IH].
    apply settled_bind; [apply Hc|]. intros additions _.
    apply settled_bind; [apply IH | auto with settled].
Qed.

Lemma getParent_end (el : XPatherElement) : getParent el <> Timeout.
Proof.
  unfold getParent, notTagNode.
  destruct (path el) as [|[? parent] ?].
  - destruct (top el); discriminate.
  - destruct (negb _); discriminate.
Qed.

Lemma subnodes_end (name : string) (node : XPatherElement) :
  (if String.eqb "." name then Returns [node]
   else if String.eqb ".." name then
          parent <- getParent node ;;
          Returns match parent with
                  | Some p => [p]
                  | None => []
                  end
        else Returns (if String.eqb "*" name then getChildTagList node
                      else getElementListByName node name false))
  <> Timeout.
Proof.
  destruct (String.eqb "." name); [discriminate|].
  destruct (String.eqb ".." name); [|discriminate].
  pose proof (getParent_end node) as H.
  destruct (getParent node); cbn [bind]; [discriminate | discriminate | now elim H].
Qed.

Lemma elementStep_settled name from to isRecursive isFilterContext t n :
  P (from + 1) to ->
  forall up index,
    settled (elementStep ev1 name from to isRecursive isFilterContext t n up
                         index)
            (elementStep ev2 name from to isRecursive isFilterContext t n up
                         index).
Proof.
  intros HP. induction n as [nm atts cs IH|k d] using Node_induction;
    intros up index.
  - cbn [elementStep].
    apply settled_bind.
    { split; [reflexivity | apply subnodes_end]. }
    intros subnodes _. apply settled_bind; [now apply Hev|].
    intros refined _. destruct isRecursive; auto with settled.
    apply settled_bind; [|auto with settled].
    apply childTagsLoop_settled.
    eapply Forall_impl; [|exact IH]. cbn beta. intros c Hc i. apply Hc.
  - cbn [elementStep].
    apply settled_bind.
    { split; [reflexivity | apply subnodes_end]. }
    intros subnodes _. apply settled_bind; [now apply Hev|].
    intros refined _. destruct isRecursive; cbn [bind]; auto with settled.
Qed.

Lemma getElementsByName_settled source from to isRecursive isFilterContext :
  P (from + 1) to ->
  settled (getElementsByName tokenArray ev1 source from to isRecursive
                             isFilterContext)
          (getElementsByName tokenArray ev2 source from to isRecursive
                             isFilterContext).
Proof.
  intros HP. unfold getElementsByName.
  destruct (isAtt _); [now apply attributeStep_settled|].
  apply settled_bind; [|auto with settled].
  apply forOf_settled. intros next [resultSet index] _.
  destruct next; try apply settled_Throws.
  apply settled_bind; [now apply elementStep_settled | auto with settled].
Qed.

End Settled.

Section Closing.

Variable tokenArray : list string.

Lemma closingQuote_bounds q count i :
  closingQuote tokenArray q count i = -1
  \/ i <= closingQuote tokenArray q count i < i + Z.of_nat count.
Proof.
  revert i; induction count as [|count IH]; intros i; cbn [closingQuote].
  - now left.
  - destruct (tokenIs tokenArray q i); [right; lia|].
    destruct (IH (i + 1)) as [->|H]; [now left | right; lia].
Qed.

Lemma closingBracket_bounds count i st :
  closingBracket tokenArray count i st = -1
  \/ i <= closingBracket tokenArray count i st < i + Z.of_nat count.
Proof.
  revert i st; induction count as [|count IH]; intros i st;
    cbn [closingBracket].
  - now left.
  - destruct (_ && _)%bool; [right; lia|].
    destruct (IH (i + 1) (scanToken tokenArray i st)) as [->|H];
      [now left | right; lia].
Qed.

(** The closing index is [-1] or lies after [from], up to [to]. *)
Lemma findClosingIndex_bounds from to :
  findClosingIndex tokenArray from to = -1
  \/ from < findClosingIndex tokenArray from to <= to.
Proof.
  unfold findClosingIndex.
  destruct (Z.ltb_spec from to) as [Hlt|]; [|now left].
  destruct (tokenIs tokenArray (String dquote EmptyString) from).
  { destruct (closingQuote_bounds (String dquote EmptyString)
                                  (Z.to_nat (to - from)) (from + 1))
      as [->|H]; [now left | right; lia]. }
  destruct (tokenIs tokenArray "'" from).
  { destruct (closingQuote_bounds "'" (Z.to_nat (to - from)) (from + 1))
      as [->|H]; [now left | right; lia]. }
  destruct (_ || _)%bool; [|now left].
  match goal with
  | |- context [closingBracket _ ?c ?i ?st] =>
      destruct (closingBracket_bounds c i st) as [->|H];
        [now left | right; lia]
  end.
Qed.

End Closing.

Section Fuel.

Variable localeCompare : string -> string -> Z.
Variable numberToString : number -> string.
Variable tokenArray : list string.

Lemma evaluateAgainstBody_settled (ev1 ev2 : evaluator)
      obj from to isRecursive position last isFilterContext filterSource :
  agreeOn (fun f t => (span f t < span from to)%nat) ev1 ev2 ->
  settled (evaluateAgainstBody localeCompare numberToString tokenArray ev1
             obj from to isRecursive position last isFilterContext
             filterSource)
          (evaluateAgainstBody localeCompare numberToString tokenArray ev2
             obj from to isRecursive position last isFilterContext
             filterSource).
Proof.
  intros Hev. unfold evaluateAgainstBody.
  destruct (_ && _ && _)%bool eqn:Hguard; [|apply settled_Returns].
  apply andb_prop in Hguard as [Hguard Hle].
  apply andb_prop in Hguard as [H0 Hlen].
  apply Z.leb_le in Hle, H0. apply Z.ltb_lt in Hlen.
  assert (Hcall : forall f t, from < f -> t <= to ->
                              (span f t < span from to)%nat)
    by (intros; unfold span; lia).
  assert (Hinner : forall f t, from <= f -> t < to ->
                               (span f t < span from to)%nat)
    by (intros; unfold span; lia).
  destruct (String.eqb EmptyString _).
  { apply Hev, Hcall; lia. }
  destruct (isToken tokenArray "(" from).
  { destruct (Z.ltb_spec 0 (findClosingIndex tokenArray from to)) as [Hc|];
      [|apply settled_Throws].
    destruct (findClosingIndex_bounds tokenArray from to) as [E|Hb]; [lia|].
    apply settled_bind; [apply Hev, Hinner; lia|].
    intros; apply Hev, Hcall; lia. }
  destruct (isToken tokenArray "[" from).
  { destruct (Z.ltb_spec 0 (findClosingIndex tokenArray from to)) as [Hc|];
      [|apply settled_Throws].
    destruct (findClosingIndex_bounds tokenArray from to) as [E|Hb]; [lia|].
    apply settled_bind; [|intros; apply Hev, Hcall; lia].
    destruct obj; [|apply settled_Returns].
    eapply filterByCondition_settled; [exact Hev|]. apply Hinner; lia. }
  destruct (_ || _)%bool.
  { destruct (Z.ltb_spec from (findClosingIndex tokenArray from to)) as [Hc|];
      [|apply settled_Throws].
    destruct (findClosingIndex_bounds tokenArray from to) as [E|Hb]; [lia|].
    apply Hev, Hcall; lia. }
  destruct (_ && isFilterContext)%bool.
  { destruct (_ && _)%bool.
    - apply settled_bind; [apply Hev, Hcall; lia|].
      intros; apply settled_Returns.
    - apply settled_bind; [apply Hev, Hcall; lia|].
      intros; apply settled_Returns. }
  destruct (isToken tokenArray "/" from).
  { set (from' := if isToken tokenArray "/" (from + 1) then from + 1 else from).
    assert (Hfrom' : from <= from' <= from + 1)
      by (subst from'; destruct (isToken _ _ _); lia).
    destruct (Z.ltb_spec from' to) as [Hlt|]; [|apply settled_Throws].
    set (toIndex := if findClosingIndex tokenArray from' to - 1 <=? from'
                    then to else findClosingIndex tokenArray from' to - 1).
    assert (HtoIndex : from' < toIndex <= to).
    { subst toIndex.
      destruct (Z.leb_spec (findClosingIndex tokenArray from' to - 1) from');
        [lia|].
      destruct (findClosingIndex_bounds tokenArray from' to); lia. }
    apply settled_bind; [apply Hev, Hcall; lia|].
    intros; apply Hev, Hcall; lia. }
  destruct (isFunctionCall tokenArray from to) eqn:Hcallf.
  { assert (Hc : from + 1 < findClosingIndex tokenArray (from + 1) to).
    { unfold isFunctionCall in Hcallf.
      destruct (_ && _)%bool; [discriminate|]. now apply Z.ltb_lt. }
    apply settled_bind; [|intros; apply Hev, Hcall; lia].
    destruct obj; [|apply settled_Returns].
    eapply evaluateFunction_settled; [exact Hev|]. unfold span; lia. }
  destruct (isValidInteger _).
  { apply Hev, Hcall; lia. }
  destruct (isValidDouble _).
  { apply Hev, Hcall; lia. }
  destruct obj; [|apply settled_Returns].
  eapply getElementsByName_settled; [exact Hev|]. apply Hcall; lia.
Qed.

(** A run of [evaluateAgainst] with more fuel than its range has tokens ends
    without [Timeout], and more fuel does not change its outcome. *)
Theorem evaluateAgainst_settled fuel1 fuel2
        obj from to isRecursive position last isFilterContext filterSource :
  (span from to < fuel1)%nat ->
  (span from to < fuel2)%nat ->
  settled (evaluateAgainst localeCompare numberToString tokenArray fuel1
             obj from to isRecursive position last isFilterContext
             filterSource)
          (evaluateAgainst localeCompare numberToString tokenArray fuel2
             obj from to isRecursive position last isFilterContext
             filterSource).
Proof.
  revert fuel2 obj from to isRecursive position last isFilterContext
         filterSource.
  induction fuel1 as [|fuel1 IH]; intros fuel2 obj from to isRecursive position
                                         last isFilterContext filterSource
                                         H1 H2; [lia|].
  destruct fuel2 as [|fuel2]; [lia|].
  cbn [evaluateAgainst]. apply evaluateAgainstBody_settled.
  intros obj' from' to' ? ? ? ? ? Hs. apply IH; lia.
Qed.

Corollary evaluateAgainst_ends fuel
          obj from to isRecursive position last isFilterContext filterSource :
  (span from to < fuel)%nat ->
  evaluateAgainst localeCompare numberToString tokenArray fuel
                  obj from to isRecursive position last isFilterContext
                  filterSource <> Timeout.
Proof.
  intros H. now apply (evaluateAgainst_settled fuel fuel).
Qed.

End Fuel.

(** The fuel that the entry point gives is enough: the evaluation of an
    expression against an element returns or throws. *)
Theorem evaluateXPath_ends
        (localeCompare : string -> string -> Z)
        (numberToString : number -> string)
        (el : XPatherElement) (xPathExpression : string) :
  evaluateXPath localeCompare numberToString el xPathExpression <> Timeout.
Proof.
  unfold evaluateXPath, evaluateAgainstNode.
  apply evaluateAgainst_ends. unfold span, fuelFor, len. lia.
Qed.

(* ------------------------------------------------------------------ *)
(** ** Scenario 7: the predicate with a recursive axis *)
(* ------------------------------------------------------------------ *)

(** C2. On the document of [<div><span>Foo</span><div>Bar</div></div>], both
    [//div[.//span]] and [//div[//span]] evaluate to exactly one result, the
    outer [div], whatever the platform. *)
Theorem scenario7_single_result
        (localeCompare : string -> string -> Z)
        (numberToString : number -> string) :
  evaluateXPath localeCompare numberToString Scenario7.root "//div[.//span]"
  = Returns [VElem Scenario7.outer]
  /\ evaluateXPath localeCompare numberToString Scenario7.root "//div[//span]"
     = Returns [VElem Scenario7.outer].
Proof.
  split; vm_compute; reflexivity.
Qed.

(** Without a predicate both [div] elements are found, the outer one first. *)
Lemma scenario7_all_divs
      (localeCompare : string -> string -> Z)
      (numberToString : number -> string) :
  evaluateXPath localeCompare numberToString Scenario7.root "//div"
  = Returns [VElem Scenario7.outer; VElem Scenario7.inner].
Proof.
  vm_compute; reflexivity.
Qed.

(** The recursive axis starts below the element it is evaluated against:
    against the outer [div] itself, as the root of its own document, the
    expressions find nothing. *)
Lemma scenario7_from_markup
      (localeCompare : string -> string -> Z)
      (numberToString : number -> string) :
  evaluateXPath localeCompare numberToString
                (mkElement Scenario7.markup [] Document) "//div[.//span]"
  = Returns []
  /\ evaluateXPath localeCompare numberToString
                   (mkElement Scenario7.markup [] Document) "//div[//span]"
     = Returns [].
Proof.
  split; vm_compute; reflexivity.
Qed.

(* ------------------------------------------------------------------ *)
(** ** The filter subroutine *)
(* ------------------------------------------------------------------ *)

Section Filter.

Variable ev : evaluator.
Variables from to last : Z.

Lemma filter_loop (l : list XPatherResult) :
  forall index result outs,
    Forall2 (fun iv out =>
               ev (Some [snd iv]) from to false (fst iv) last true
                  (Some [snd iv]) = Returns out)
            (indexedFrom (index + 1) l) outs ->
    forEachFrom
      (fun curr index result =>
         let index := index + 1 in
         logicValueList <-
           ev (Some [curr]) from to false index last true (Some [curr]) ;;
         match logicValueList with
         | first :: _ =>
             match first with
             | VBool b => Returns (if b then result ++ [curr] else result)
             | VNum n =>
                 Returns (if Num.eqb n (Num.ofZ index)
                          then result ++ [curr] else result)
             | _ => Returns (result ++ [curr])
             end
         | [] => Returns result
         end)
      index l result
    = Returns (result ++ kept (indexedFrom (index + 1) l) outs).
Proof.
  induction l as [|v l IH]; intros index result outs H;
    cbn [indexedFrom] in H; inversion H as [|iv out ivs outs' Hv Hl]; subst;
    cbn [forEachFrom].
  - now rewrite app_nil_r.
  - cbn [fst snd] in Hv. cbv zeta. rewrite Hv. cbn [bind].
    unfold kept. cbn [indexedFrom combine filter fst snd].
    fold (kept (indexedFrom (index + 1 + 1) l) outs').
    destruct out as [|[b|n|str|e] out]; cbn [keeps].
    + now apply IH.
    + destruct b; [|now apply IH].
      etransitivity; [exact (IH _ _ _ Hl)|]. cbn [map fst snd]. now rewrite <- app_assoc.
    + destruct (Num.eqb n (Num.ofZ (index + 1))); [|now apply IH].
      etransitivity; [exact (IH _ _ _ Hl)|]. cbn [map fst snd]. now rewrite <- app_assoc.
    + etransitivity; [exact (IH _ _ _ Hl)|]. cbn [map fst snd]. now rewrite <- app_assoc.
    + etransitivity; [exact (IH _ _ _ Hl)|]. cbn [map fst snd]. now rewrite <- app_assoc.
Qed.

Lemma filter_loop_throws (before after : list XPatherResult)
      (v : XPatherResult) (e : exn) :
  forall index result outs,
    Forall2 (fun iv out =>
               ev (Some [snd iv]) from to false (fst iv) last true
                  (Some [snd iv]) = Returns out)
            (indexedFrom (index + 1) before) outs ->
    ev (Some [v]) from to false (index + len before + 1) last true (Some [v])
    = Throws e ->
    forEachFrom
      (fun curr index result =>
         let index := index + 1 in
         logicValueList <-
           ev (Some [curr]) from to false index last true (Some [curr]) ;;
         match logicValueList with
         | first :: _ =>
             match first with
             | VBool b => Returns (if b then result ++ [curr] else result)
             | VNum n =>
                 Returns (if Num.eqb n (Num.ofZ index)
                          then result ++ [curr] else result)
             | _ => Returns (result ++ [curr])
             end
         | [] => Returns result
         end)
      index (before ++ v :: after) result
    = Throws e.
Proof.
  induction before as [|w before IH]; intros index result outs H Hv;
    cbn [app forEachFrom].
  - cbn [len List.length Z.of_nat] in Hv. rewrite Z.add_0_r in Hv.
    cbv zeta. now rewrite Hv.
  - cbn [indexedFrom] in H. inversion H as [|iv out ivs outs' Hw Hl]; subst.
    cbn [fst snd] in Hw. cbv zeta. rewrite Hw. cbn [bind].
    assert (Hv' : ev (Some [v]) from to false (index + 1 + len before + 1) last
                     true (Some [v]) = Throws e).
    { rewrite <- Hv. f_equal. unfold len. cbn [List.length]. lia. }
    destruct out as [|[b|n|str|x] out];
      try destruct b; try destruct (Num.eqb n (Num.ofZ (index + 1)));
      exact (IH _ _ _ Hl Hv').
Qed.

End Filter.

(** C1. The filter subroutine evaluates the predicate range against the
    singleton of each value [v] of its input, at the 1-based index [i] of [v],
    with [isRecursive = false], [position = i], [last] the length of the
    input, [isFilterContext = true] and [filterSource] the same singleton.
    When these runs return the value-lists [outs], the subroutine returns the
    values of the input, in order, whose value-list is not empty and starts
    with the boolean [true], or with a number equal to [i], or with neither a
    boolean nor a number. *)
Theorem filterByCondition_keeps
        (localeCompare : string -> string -> Z)
        (numberToString : number -> string)
        (tokenArray : list string) (fuel : nat)
        (source : list XPatherResult) (from to : Z)
        (outs : list (list XPatherResult)) :
  Forall2 (fun iv out =>
             evaluateAgainst localeCompare numberToString tokenArray fuel
                             (Some [snd iv]) from to false (fst iv)
                             (len source) true (Some [snd iv])
             = Returns out)
          (indexedFrom 1 source) outs ->
  filterByCondition (evaluateAgainst localeCompare numberToString tokenArray
                                     fuel)
                    source from to
  = Returns (kept (indexedFrom 1 source) outs).
Proof.
  intros H. unfold filterByCondition, forEach.
  exact (filter_loop _ from to (len source) source 0 [] outs H).
Qed.

(** When the run of the predicate on a value throws, after the runs on the
    values before it have returned, the subroutine throws the same. *)
Lemma filterByCondition_throws (ev : evaluator)
      (before after : list XPatherResult) (v : XPatherResult)
      (from to : Z) (outs : list (list XPatherResult)) (e : exn) :
  Forall2 (fun iv out =>
             ev (Some [snd iv]) from to false (fst iv)
                (len (before ++ v :: after)) true (Some [snd iv])
             = Returns out)
          (indexedFrom 1 before) outs ->
  ev (Some [v]) from to false (len before + 1) (len (before ++ v :: after))
     true (Some [v])
  = Throws e ->
  filterByCondition ev (before ++ v :: after) from to = Throws e.
Proof.
  intros H Hv. unfold filterByCondition, forEach.
  exact (filter_loop_throws ev from to (len (before ++ v :: after))
                            before after v e 0 [] outs H Hv).
Qed.

(** C1 on the predicate [[2]] and two values: the second is kept. *)
Lemma filterByCondition_keeps_witness :
  filterByCondition
    (evaluateAgainst codeUnitCompare Positional.toString ["["; "2"; "]"] 2)
    [VStr "a"; VStr "b"] 1 1
  = Returns [VStr "b"].
Proof.
  apply (filterByCondition_keeps
           codeUnitCompare Positional.toString ["["; "2"; "]"] 2
           [VStr "a"; VStr "b"] 1 1 [[VNum (Dec 2 0)]; [VNum (Dec 2 0)]]).
  repeat constructor.
Defined.

(** A predicate whose value-list is a string keeps the value, and an empty
    one drops it. *)
Lemma keeps_cases (i : Z) (l : list XPatherResult) :
  keeps i l = true <->
  exists first rest,
    l = first :: rest
    /\ (first = VBool true
        \/ (exists n, first = VNum n /\ Num.eqb n (Num.ofZ i) = true)
        \/ ((forall b, first <> VBool b) /\ (forall n, first <> VNum n))).
Proof.
  destruct l as [|[b|n|s|e] rest]; cbn [keeps].
  - split; [intros; discriminate | intros (? & ? & ? & _); discriminate].
  - split.
    + intros ->. exists (VBool true), rest. auto.
    + intros (f & r & [= <- <-] & [H|[(n & H & _)|[H _]]]);
        [now injection H | discriminate | now elim (H b)].
  - split.
    + intros H. exists (VNum n), rest. split; [reflexivity|].
      right; left; eauto.
    + intros (f & r & [= <- <-] & [H|[(m & [= <-] & H)|[_ H]]]);
        [discriminate | exact H | now elim (H n)].
  - split; [|reflexivity]. intros _. exists (VStr s), rest.
    split; [reflexivity|]. right; right. split; discriminate.
  - split; [|reflexivity]. intros _. exists (VElem e), rest.
    split; [reflexivity|]. right; right. split; discriminate.
Qed.

(* ------------------------------------------------------------------ *)
(** ** Unknown functions *)
(* ------------------------------------------------------------------ *)

(** C4, as the code has it.  The name of the function is checked once for
    every value of the source, inside the loop over the source.  On a source
    that is not empty the call of a function that is none of [last],
    [position], [text], [count] and [data] throws the XPatherException
    [Unknown function ...] at the first value; on the empty source the loop
    has no iteration and the call returns the empty list. *)
Theorem evaluateFunction_unknown
        (tokenArray : list string) (ev : evaluator)
        (source : list XPatherResult) (from to position last : Z)
        (isFilterContext : bool) :
  ~ In (Js.trim (token tokenArray from)) knownFunctions ->
  evaluateFunction tokenArray ev source from to position last isFilterContext
  = match source with
    | [] => Returns []
    | _ :: _ =>
        Throws (XPatherException
                  (Some ("Unknown function "
                         ++ Js.trim (token tokenArray from) ++ "!")%string))
    end.
Proof.
  intros Hname. unfold evaluateFunction, forEach.
  destruct source as [|curr source]; [reflexivity|].
  cbn [forEachFrom]. cbv zeta.
  repeat match goal with
         | |- context [String.eqb ?known (Js.trim (token tokenArray from))] =>
             destruct (String.eqb_spec known (Js.trim (token tokenArray from)))
               as [E|_];
             [elim Hname; rewrite <- E; cbn; tauto|]
         end.
  reflexivity.
Qed.

(** C4 on the token array of [foo()], against one value and against none. *)
Lemma evaluateFunction_unknown_witness :
  evaluateFunction ["foo"; "("; ")"]
                   (evaluateAgainst codeUnitCompare Positional.toString
                                    ["foo"; "("; ")"] 3)
                   [VStr "a"] 0 2 1 0 false
  = Throws (XPatherException (Some "Unknown function foo!"))
  /\ evaluateFunction ["foo"; "("; ")"]
                      (evaluateAgainst codeUnitCompare Positional.toString
                                       ["foo"; "("; ")"] 3)
                      [] 0 2 1 0 false
     = Returns [].
Proof.
  split.
  - apply (evaluateFunction_unknown
             ["foo"; "("; ")"]
             (evaluateAgainst codeUnitCompare Positional.toString
                              ["foo"; "("; ")"] 3)
             [VStr "a"] 0 2 1 0 false).
    vm_compute. intuition discriminate.
  - apply (evaluateFunction_unknown
             ["foo"; "("; ")"]
             (evaluateAgainst codeUnitCompare Positional.toString
                              ["foo"; "("; ")"] 3)
             [] 0 2 1 0 false).
    vm_compute. intuition discriminate.
Defined.

(** C4, as the specification words it, fails on the empty value-list: the
    step [nosuch] selects nothing, and the call of the unknown function [foo]
    on its result returns the empty list. *)
Lemma unknown_function_on_nothing :
  evaluateXPath codeUnitCompare Positional.toString Scenario7.root
                "/nosuch/foo()"
  = Returns [].
Proof.
  vm_compute; reflexivity.
Qed.

(** On the root itself the same call throws. *)
Lemma unknown_function_on_root :
  evaluateXPath codeUnitCompare Positional.toString Scenario7.root "foo()"
  = Throws (XPatherException (Some "Unknown function foo!")).
Proof.
  vm_compute; reflexivity.
Qed.

(* ------------------------------------------------------------------ *)
(** ** Values that are not elements stay so *)
(* ------------------------------------------------------------------ *)

Lemma holds_bind {A B : Type} (Q : A -> Prop) (R : B -> Prop)
      (m : outcome A) (k : A -> outcome B) :
  holds Q m -> (forall a, Q a -> holds R (k a)) -> holds R (bind m k).
Proof.
  destruct m as [a|[msg|msg]|]; cbn [holds bind]; auto; try tauto.
Qed.

Lemma holds_forEachFrom {A S : Type} (Q : S -> Prop)
      (body : A -> Z -> S -> outcome S) (l : list A) :
  (forall curr index state, In curr l -> Q state ->
                            holds Q (body curr index state)) ->
  forall index state, Q state -> holds Q (forEachFrom body index l state).
Proof.
  induction l as [|x l IH]; intros Hb index state Hs; cbn [forEachFrom].
  - exact Hs.
  - eapply holds_bind; [apply Hb; [now left | exact Hs]|].
    intros st Hst. apply IH; [|exact Hst]. intros; apply Hb; auto. now right.
Qed.

Lemma holds_forOf {A S : Type} (Q : S -> Prop)
      (body : A -> S -> outcome S) (l : list A) :
  (forall x state, In x l -> Q state -> holds Q (body x state)) ->
  forall state, Q state -> holds Q (forOf l body state).
Proof.
  induction l as [|x l IH]; intros Hb state Hs; cbn [forOf].
  - exact Hs.
  - eapply holds_bind; [apply Hb; [now left | exact Hs]|].
    intros st Hst. apply IH; [|exact Hst]. intros; apply Hb; auto. now right.
Qed.

Lemma elementFree_app (l1 l2 : list XPatherResult) :
  elementFree l1 -> elementFree l2 -> elementFree (l1 ++ l2).
Proof.
  intros H1 H2. apply Forall_app. now split.
Qed.

Lemma elementFree_In (l : list XPatherResult) (v : XPatherResult) :
  elementFree l -> In v l -> isElement v = false.
Proof.
  intros H Hin. unfold elementFree in H. rewrite Forall_forall in H. auto.
Qed.

Lemma descendantNodes_elementFree (source nodes : list XPatherResult) :
  elementFree source -> descendantNodes source nodes = nodes.
Proof.
  intros H; revert nodes; induction H as [|next source Hnext _ IH];
    intros nodes; [reflexivity|].
  cbn [descendantNodes fold_left]. destruct next; try discriminate; apply IH.
Qed.

Section Flat.

Variable tokenArray : list string.
Variable ev : evaluator.
Hypothesis Hev : flat ev.

Lemma evaluateFunction_flat source from to position last isFilterContext :
  elementFree source ->
  holds elementFree
        (evaluateFunction tokenArray ev source from to position last
                          isFilterContext).
Proof.
  intros Hs. unfold evaluateFunction, forEach.
  apply holds_forEachFrom; [|constructor].
  intros curr index result Hin Hres.
  repeat match goal with
         | |- holds _ (if ?c then _ else _) => destruct c
         end; cbn [holds].
  - apply elementFree_app; [exact Hres | now repeat constructor].
  - apply elementFree_app; [exact Hres | now repeat constructor].
  - destruct curr; cbn [holds]; try exact Hres;
      apply elementFree_app; try exact Hres; now repeat constructor.
  - eapply holds_bind; [apply Hev; cbn; [exact Hs | exact I]|].
    intros a _. cbn [holds].
    apply elementFree_app; [exact Hres | now repeat constructor].
  - eapply holds_bind; [apply Hev; cbn; [exact Hs | exact I]|].
    intros a Ha. cbn [holds]. apply elementFree_app; [exact Hres|].
    apply Forall_forall. intros v Hv. apply filter_In in Hv.
    eapply elementFree_In; [exact Ha | tauto].
  - exact I.
Qed.

Lemma filterByCondition_flat source from to :
  elementFree source ->
  holds elementFree (filterByCondition ev source from to).
Proof.
  intros Hs. unfold filterByCondition, forEach.
  apply holds_forEachFrom; [|constructor].
  intros curr index result Hin Hres.
  assert (Hcurr : elementFree [curr])
    by (apply Forall_cons;
        [exact (elementFree_In _ _ Hs Hin) | apply Forall_nil]).
  eapply holds_bind; [apply Hev; exact Hcurr|].
  intros [|[b|n|str|e] ?] _; cbn [holds]; try exact Hres;
    try (apply elementFree_app; [exact Hres | exact Hcurr]).
  - destruct b; [apply elementFree_app; [exact Hres | exact Hcurr] | exact Hres].
  - destruct (Num.eqb _ _);
      [apply elementFree_app; [exact Hres | exact Hcurr] | exact Hres].
Qed.

Lemma attributeStep_flat source name from to isRecursive isFilterContext :
  elementFree source ->
  holds elementFree
        (attributeStep ev source name from to isRecursive isFilterContext).
Proof.
  intros Hs. unfold attributeStep.
  destruct isRecursive.
  - rewrite descendantNodes_elementFree by exact Hs. constructor.
  - apply holds_forOf; [|constructor]. intros next result Hin _.
    pose proof (elementFree_In _ _ Hs Hin) as Hnext.
    destruct next; try discriminate; exact I.
Qed.

Lemma getElementsByName_flat source from to isRecursive isFilterContext :
  elementFree source ->
  holds elementFree
        (getElementsByName tokenArray ev source from to isRecursive
                           isFilterContext).
Proof.
  intros Hs. unfold getElementsByName.
  destruct (isAtt _); [now apply attributeStep_flat|].
  eapply holds_bind with (Q := fun st => elementFree (fst st));
    [|intros [r i] Hr; exact Hr].
  apply holds_forOf; [|constructor]. intros next [resultSet index] Hin _.
  pose proof (elementFree_In _ _ Hs Hin) as Hnext.
  destruct next; try discriminate; exact I.
Qed.

Lemma evaluateAgainstBody_flat localeCompare numberToString :
  flat (evaluateAgainstBody localeCompare numberToString tokenArray ev).
Proof.
  intros obj from to isRecursive position last isFilterContext filterSource
         Hobj Hfs.
  assert (Hobj' : elementFree match obj with Some l => l | None => [] end)
    by (destruct obj; [exact Hobj | constructor]).
  unfold evaluateAgainstBody.
  repeat match goal with
         | |- holds _ (if ?c then _ else _) => destruct c
         | |- holds _ throwStandardException => exact I
         | |- holds _ (Returns [VBool _]) => now repeat constructor
         | |- holds _ (Returns _) => exact Hobj'
         | |- holds _ (ev _ _ _ _ _ _ _ _) =>
             apply Hev; cbn [elementFreeOpt]; auto; now repeat constructor
         | |- holds _ (bind _ _) =>
             apply holds_bind with (Q := elementFree); [|intros ? ?]
         | |- holds _ (match obj with Some _ => _ | None => _ end) =>
             destruct obj; [|constructor]
         | |- holds _ (filterByCondition _ _ _ _) =>
             now apply filterByCondition_flat
         | |- holds _ (evaluateFunction _ _ _ _ _ _ _ _) =>
             now apply evaluateFunction_flat
         | |- holds _ (getElementsByName _ _ _ _ _ _ _) =>
             now apply getElementsByName_flat
         end.
Qed.

End Flat.

(** A run on values none of which is an element returns such values or throws
    an XPatherException. *)
Theorem evaluateAgainst_flat localeCompare numberToString tokenArray fuel :
  flat (evaluateAgainst localeCompare numberToString tokenArray fuel).
Proof.
  induction fuel as [|fuel IH].
  - intros ? ? ? ? ? ? ? ? _ _. exact I.
  - cbn [evaluateAgainst]. now apply evaluateAgainstBody_flat.
Qed.

(* ------------------------------------------------------------------ *)
(** ** The attribute axis *)
(* ------------------------------------------------------------------ *)

Lemma addAll_Forall (P : XPatherResult -> Prop) (source target : list XPatherResult) :
  Forall P target -> Forall P source -> Forall P (JsSet.addAll target source).
Proof.
  revert target; induction source as [|v source IH]; intros target Ht Hs;
    cbn [JsSet.addAll fold_left]; [exact Ht|].
  inversion Hs; subst. apply IH; [|assumption].
  unfold JsSet.add. destruct (includes target v); [exact Ht|].
  apply Forall_app; split; [exact Ht | now constructor].
Qed.

Lemma evaluateAgainst_empty_range
      localeCompare numberToString tokenArray fuel
      obj from to isRecursive position last isFilterContext filterSource :
  to < from ->
  evaluateAgainst localeCompare numberToString tokenArray (S fuel)
                  obj from to isRecursive position last isFilterContext
                  filterSource
  = Returns match obj with
            | Some obj => obj
            | None => []
            end.
Proof.
  intros H. cbn [evaluateAgainst]. unfold evaluateAgainstBody.
  destruct (Z.leb_spec from to); [lia|].
  now rewrite !andb_false_r.
Qed.

Section AttributeAxis.

Variable ev : evaluator.
Variable name : string.
Variables from to : Z.
Variable isFilterContext : bool.

Let visit := attributeVisit ev name from to isFilterContext.

Lemma visit_loop_throws (nodes : list XPatherResult) :
  (forall l, elementFree l ->
             ev (Some l) (from + 1) to false 1 1 isFilterContext None
             <> Timeout
             /\ holds elementFree
                      (ev (Some l) (from + 1) to false 1 1 isFilterContext
                          None)) ->
  (exists v, In v nodes /\ isElement v = false) ->
  forall result,
  exists message,
    forOf nodes visit result = Throws (XPatherException message).
Proof.
  intros Hev. induction nodes as [|next nodes IH]; intros (v & Hin & Hv) result.
  { destruct Hin. }
  cbn [forOf].
  assert (Hnext : isElement next = false ->
                  exists message,
                    bind (visit next result) (fun st => forOf nodes visit st)
                    = Throws (XPatherException message)).
  { destruct next; try discriminate; intros _; cbn; eauto. }
  destruct (isElement next) eqn:Hel; [|now apply Hnext].
  destruct Hin as [->|Hin]; [congruence|].
  assert (Hvisit : (exists st, visit next result = Returns st)
                   \/ exists message,
                       visit next result = Throws (XPatherException message)).
  { destruct next; try discriminate. unfold visit, attributeVisit.
    assert (Hcall : forall l,
               elementFree l ->
               (exists st,
                   bind (ev (Some l) (from + 1) to false 1 1 isFilterContext
                            None)
                        (fun values => Returns (result ++ values))
                   = Returns st)
               \/ exists message,
                   bind (ev (Some l) (from + 1) to false 1 1 isFilterContext
                            None)
                        (fun values => Returns (result ++ values))
                   = Throws (XPatherException message)).
    { intros l Hl. destruct (Hev l Hl) as [Hend Hflat].
      destruct (ev _ _ _ _ _ _ _ _) as [a|[m|m]|]; cbn [bind holds] in *;
        [eauto | eauto | destruct Hflat | now elim Hend]. }
    destruct (String.eqb "*" name).
    - apply Hcall. apply Forall_forall. intros x Hx. apply in_map_iff in Hx.
      now destruct Hx as (? & <- & _).
    - destruct (getAttributeByName e name); [|eauto].
      apply Hcall. now repeat constructor. }
  destruct Hvisit as [[st ->]|[message ->]]; cbn [bind]; [|eauto].
  apply IH. eauto.
Qed.

Lemma visit_loop_strings (nodes : list XPatherResult) :
  (forall l, ev (Some l) (from + 1) to false 1 1 isFilterContext None
             = Returns l) ->
  Forall (fun v => isElement v = true) nodes ->
  forall result,
    Forall (fun v => isString v = true) result ->
    exists result',
      forOf nodes visit result = Returns result'
      /\ Forall (fun v => isString v = true) result'.
Proof.
  intros Hev. induction 1 as [|next nodes Hnext _ IH]; intros result Hres;
    cbn [forOf]; [eauto|].
  destruct next; try discriminate. unfold visit at 1, attributeVisit.
  destruct (String.eqb "*" name).
  - rewrite Hev. cbn [bind]. apply IH. apply Forall_app; split; [exact Hres|].
    apply Forall_forall. intros v Hv. apply in_map_iff in Hv.
    now destruct Hv as (? & <- & _).
  - destruct (getAttributeByName e name); cbn [bind]; [|now apply IH].
    rewrite Hev. cbn [bind]. apply IH. apply Forall_app; split; [exact Hres|].
    now repeat constructor.
Qed.

Lemma descendants_elements (source nodes : list XPatherResult) :
  Forall (fun v => isElement v = true) nodes ->
  Forall (fun v => isElement v = true) (descendantNodes source nodes).
Proof.
  revert nodes; induction source as [|next source IH]; intros nodes Hn;
    cbn [descendantNodes fold_left]; [exact Hn|].
  apply IH. destruct next; try exact Hn.
  apply addAll_Forall; [exact Hn|].
  apply Forall_forall. intros v Hv. apply in_map_iff in Hv.
  now destruct Hv as (? & <- & _).
Qed.

Lemma descendants_skip (source nodes : list XPatherResult) :
  descendantNodes source nodes = descendantNodes (filter isElement source) nodes.
Proof.
  revert nodes; induction source as [|next source IH]; intros nodes;
    [reflexivity|].
  destruct next; cbn [descendantNodes fold_left filter isElement]; apply IH.
Qed.

Lemma attributeStep_throws (source : list XPatherResult) :
  (forall l, elementFree l ->
             ev (Some l) (from + 1) to false 1 1 isFilterContext None
             <> Timeout
             /\ holds elementFree
                      (ev (Some l) (from + 1) to false 1 1 isFilterContext
                          None)) ->
  (exists v, In v source /\ isElement v = false) ->
  exists message,
    attributeStep ev source name from to false isFilterContext
    = Throws (XPatherException message).
Proof.
  intros Hev Hv. exact (visit_loop_throws source Hev Hv []).
Qed.

Lemma attributeStep_skips (source : list XPatherResult) :
  attributeStep ev source name from to true isFilterContext
  = attributeStep ev (filter isElement source) name from to true
                  isFilterContext.
Proof.
  unfold attributeStep. now rewrite descendants_skip.
Qed.

Lemma attributeStep_strings (source : list XPatherResult) isRecursive :
  (forall l, ev (Some l) (from + 1) to false 1 1 isFilterContext None
             = Returns l) ->
  Forall (fun v => isElement v = true) source ->
  exists result,
    attributeStep ev source name from to isRecursive isFilterContext
    = Returns result
    /\ Forall (fun v => isString v = true) result.
Proof.
  intros Hev Hs. unfold attributeStep.
  apply (visit_loop_strings _ Hev); [|constructor].
  destruct isRecursive; [|exact Hs].
  apply descendants_elements. constructor.
Qed.

End AttributeAxis.

(** C5, as the code has it.  On an attribute step whose source holds a value
    that is not an element: when [isRecursive] is false the step throws an
    XPatherException, with fuel for the rest of its range; when [isRecursive]
    is true the values that are not elements are skipped, and the step is the
    step on the elements of the source. *)
Theorem attribute_axis_non_element
        (localeCompare : string -> string -> Z)
        (numberToString : number -> string)
        (tokenArray : list string) (fuel : nat)
        (source : list XPatherResult) (from to : Z) (isFilterContext : bool) :
  isAtt (Js.trim (token tokenArray from)) = true ->
  (span (from + 1) to < fuel)%nat ->
  (exists v, In v source /\ isElement v = false) ->
  (exists message,
      getElementsByName
        tokenArray
        (evaluateAgainst localeCompare numberToString tokenArray fuel)
        source from to false isFilterContext
      = Throws (XPatherException message))
  /\ getElementsByName
       tokenArray
       (evaluateAgainst localeCompare numberToString tokenArray fuel)
       source from to true isFilterContext
     = getElementsByName
         tokenArray
         (evaluateAgainst localeCompare numberToString tokenArray fuel)
         (filter isElement source) from to true isFilterContext.
Proof.
  intros Hatt Hfuel Hv. unfold getElementsByName. rewrite Hatt. split.
  - apply attributeStep_throws; [|exact Hv].
    intros l Hl. split; [now apply evaluateAgainst_ends|].
    apply evaluateAgainst_flat; [exact Hl | exact I].
  - apply attributeStep_skips.
Qed.

(** C5 on the step [@id] over a string and an element. *)
Lemma attribute_axis_non_element_witness :
  (exists message,
      getElementsByName
        ["@id"]
        (evaluateAgainst codeUnitCompare Positional.toString ["@id"] 1)
        [VElem Scenario7.anchor; VStr "abc"] 0 0 false false
      = Throws (XPatherException message))
  /\ getElementsByName
       ["@id"]
       (evaluateAgainst codeUnitCompare Positional.toString ["@id"] 1)
       [VElem Scenario7.anchor; VStr "abc"] 0 0 true false
     = getElementsByName
         ["@id"]
         (evaluateAgainst codeUnitCompare Positional.toString ["@id"] 1)
         (filter isElement [VElem Scenario7.anchor; VStr "abc"]) 0 0 true
         false.
Proof.
  apply (attribute_axis_non_element
           codeUnitCompare Positional.toString ["@id"] 1
           [VElem Scenario7.anchor; VStr "abc"] 0 0 false).
  - reflexivity.
  - vm_compute. lia.
  - exists (VStr "abc"). split; [right; left; reflexivity | reflexivity].
Defined.

(** C5, as the specification words it, fails when [isRecursive] is true: the
    recursive attribute step on a string throws nothing. *)
Lemma recursive_attribute_axis_on_string :
  evaluateXPath codeUnitCompare Positional.toString Scenario7.root
                "'abc'//@id"
  = Returns []
  /\ getElementsByName
       ["@id"]
       (evaluateAgainst codeUnitCompare Positional.toString ["@id"] 1)
       [VStr "abc"] 0 0 true false
     = Returns [].
Proof.
  split; vm_compute; reflexivity.
Qed.

(** Without the recursion the same step throws. *)
Lemma attribute_axis_on_string :
  evaluateXPath codeUnitCompare Positional.toString Scenario7.root
                "'abc'/@id"
  = Throws (XPatherException None).
Proof.
  vm_compute; reflexivity.
Qed.

(* ------------------------------------------------------------------ *)
(** ** The recursive axis from the element itself *)
(* ------------------------------------------------------------------ *)

Lemma bind_ext {A B : Type} (m : outcome A) (k1 k2 : A -> outcome B) :
  (forall a, k1 a = k2 a) -> bind m k1 = bind m k2.
Proof.
  intros H. destruct m; cbn [bind]; [apply H | reflexivity | reflexivity].
Qed.

Lemma bind_Returns {A : Type} (m : outcome A) : bind m Returns = m.
Proof. now destruct m. Qed.

Lemma bind_bind {A B C : Type} (m : outcome A) (k : A -> outcome B)
      (h : B -> outcome C) :
  bind (bind m k) h = bind m (fun a => bind (k a) h).
Proof. now destruct m. Qed.

Lemma childTagsLoop_ext r1 r2 parent axis refined cs :
  Forall (fun c => forall i, r1 c i = r2 c i) cs ->
  forall i,
    childTagsLoop r1 parent axis refined cs i
    = childTagsLoop r2 parent axis refined cs i.
Proof.
  induction 1 as [|c cs Hc _ IH]; intros i; cbn [childTagsLoop];
    [reflexivity|].
  destruct (isElementNode c); [|apply IH]. now rewrite Hc, IH.
Qed.

Lemma elementStep_ext (ev1 ev2 : evaluator) name from1 to1 from2 to2
      isRecursive isFilterContext t n :
  (forall nodeSet index last,
      ev1 (Some nodeSet) (from1 + 1) to1 false index last isFilterContext None
      = ev2 (Some nodeSet) (from2 + 1) to2 false index last isFilterContext
            None) ->
  forall up index,
    elementStep ev1 name from1 to1 isRecursive isFilterContext t n up index
    = elementStep ev2 name from2 to2 isRecursive isFilterContext t n up index.
Proof.
  intros Hev. induction n as [nm atts cs IH|k d] using Node_induction;
    intros up index; cbn [elementStep]; apply bind_ext; intros subnodes;
    rewrite Hev; apply bind_ext; intros refined;
    destruct isRecursive; try reflexivity.
  erewrite childTagsLoop_ext; [reflexivity|].
  eapply Forall_impl; [|exact IH]. cbn beta. intros c Hc i. apply Hc.
Qed.

Lemma add_Distinct s v : Distinct s -> Distinct (JsSet.add s v).
Proof.
  intros H. unfold JsSet.add. destruct (includes s v) eqn:E;
    [exact H | now constructor].
Qed.

Lemma addAll_Distinct source target :
  Distinct target -> Distinct (JsSet.addAll target source).
Proof.
  revert target; induction source as [|v source IH]; intros target H;
    cbn [JsSet.addAll fold_left]; [exact H|].
  apply IH, add_Distinct, H.
Qed.

Lemma addAll_app target s1 s2 :
  JsSet.addAll target (s1 ++ s2) = JsSet.addAll (JsSet.addAll target s1) s2.
Proof. apply fold_left_app. Qed.

Lemma ofList_Distinct s : Distinct s -> JsSet.ofList s = s.
Proof.
  unfold JsSet.ofList. induction 1 as [|s v _ IH Hv]; [reflexivity|].
  rewrite addAll_app, IH. cbn [JsSet.addAll fold_left]. unfold JsSet.add.
  now rewrite Hv.
Qed.

Lemma ofList_idempotent l : JsSet.ofList (JsSet.ofList l) = JsSet.ofList l.
Proof.
  apply ofList_Distinct. apply addAll_Distinct. constructor.
Qed.

(* ------------------------------------------------------------------ *)
(** ** Name tokens in the dispatch *)
(* ------------------------------------------------------------------ *)

Lemma all_trimStart p s : Js.all p s = true -> Js.all p (Js.trimStart s) = true.
Proof.
  induction s as [|c s IH]; cbn [Js.trimStart Js.all]; [auto|].
  intros H. destruct (Js.isWhiteSpace c); [|exact H].
  apply andb_prop in H. now apply IH.
Qed.

Lemma all_rev p s acc :
  Js.all p s = true -> Js.all p acc = true -> Js.all p (Js.rev s acc) = true.
Proof.
  revert acc; induction s as [|c s IH]; intros acc Hs Hacc; cbn [Js.rev];
    [exact Hacc|].
  cbn [Js.all] in Hs. apply andb_prop in Hs as [Hc Hs].
  apply IH; [exact Hs|]. cbn [Js.all]. now rewrite Hc.
Qed.

Lemma all_trim p s : Js.all p s = true -> Js.all p (Js.trim s) = true.
Proof.
  intros H. unfold Js.trim, Js.trimEnd.
  repeat (apply all_rev || apply all_trimStart); auto.
Qed.

Lemma isDelimiter_In d : In d delimiters -> isDelimiter d = true.
Proof.
  intros H. unfold isDelimiter. apply existsb_exists.
  exists d. split; [exact H | apply Ascii.eqb_refl].
Qed.

Section NameToken.

Variable x : string.
Hypothesis Hx : isNameToken x = true.

Lemma nameToken_parts :
  Js.all (fun c => negb (isDelimiter c)) x = true
  /\ String.eqb EmptyString (Js.trim x) = false
  /\ isValidInteger x = false
  /\ isValidDouble x = false
  /\ isAtt (Js.trim x) = false.
Proof.
  unfold isNameToken in Hx.
  repeat match goal with
         | H : (_ && _)%bool = true |- _ => apply andb_prop in H as [H ?]
         | H : negb _ = true |- _ => apply negb_true_iff in H
         end.
  auto.
Qed.

Lemma nameToken_not_delimiter d :
  In d delimiters -> String.eqb (String d EmptyString) x = false.
Proof.
  intros Hd. destruct nameToken_parts as (Hall & _).
  apply String.eqb_neq. intros <-. cbn [Js.all] in Hall.
  rewrite (isDelimiter_In d Hd) in Hall. discriminate.
Qed.

Lemma nameToken_trim_not_delimiter d :
  In d delimiters -> String.eqb (Js.trim x) (String d EmptyString) = false.
Proof.
  intros Hd. destruct nameToken_parts as (Hall & _).
  apply all_trim in Hall.
  apply String.eqb_neq. intros E. rewrite E in Hall. cbn [Js.all] in Hall.
  rewrite (isDelimiter_In d Hd) in Hall. discriminate.
Qed.

Variable tokenArray : list string.
Variable from : Z.
Hypothesis Hat : tokenAt tokenArray from = Some x.

Lemma nameToken_token : token tokenArray from = x.
Proof. unfold token. now rewrite Hat. Qed.

Lemma nameToken_tokenIs d :
  In d delimiters -> tokenIs tokenArray (String d EmptyString) from = false.
Proof.
  intros Hd. unfold tokenIs. rewrite Hat. now apply nameToken_not_delimiter.
Qed.

Lemma nameToken_isToken d :
  In d delimiters -> isToken tokenArray (String d EmptyString) from = false.
Proof.
  intros Hd. unfold isToken. rewrite nameToken_token.
  replace (Js.trim (String d EmptyString)) with (String d EmptyString).
  - rewrite nameToken_trim_not_delimiter by exact Hd. apply andb_false_r.
  - cbn in Hd. repeat destruct Hd as [<-|Hd]; try reflexivity. destruct Hd.
Qed.

(** A name token that no parenthesis follows is dispatched to
    [getElementsByName]. *)
Lemma nameToken_dispatch localeCompare numberToString (ev : evaluator)
      obj to isRecursive position last isFilterContext filterSource :
  from <= to < len tokenArray ->
  isToken tokenArray "(" (from + 1) = false ->
  evaluateAgainstBody localeCompare numberToString tokenArray ev (Some obj)
                      from to isRecursive position last isFilterContext
                      filterSource
  = getElementsByName tokenArray ev obj from to isRecursive isFilterContext.
Proof.
  intros Hrange Hparen. unfold evaluateAgainstBody.
  assert (H0 : 0 <= from).
  { unfold tokenAt in Hat. destruct (Z.ltb_spec from 0); [discriminate | lia]. }
  replace ((0 <=? from) && (to <? len tokenArray) && (from <=? to))%bool
    with true by (symmetry; rewrite !andb_true_iff; lia).
  destruct nameToken_parts as (_ & Hblank & Hint & Hdouble & _).
  rewrite nameToken_token, Hblank, Hint, Hdouble.
  rewrite !nameToken_isToken by (cbn; tauto).
  unfold isFunctionCall. rewrite Hparen. reflexivity.
Qed.

End NameToken.

(** A name token that a parenthesis follows, with its closing parenthesis in
    the range, is dispatched as a function call; when the name is unknown and
    the value-list is not empty, [evaluateAgainst] throws. *)
Lemma unknown_function_call_throws
      localeCompare numberToString tokenArray fuel (x : string)
      (v : XPatherResult) (vs : list XPatherResult)
      from to isRecursive position last isFilterContext filterSource :
  isNameToken x = true ->
  tokenAt tokenArray from = Some x ->
  from <= to < len tokenArray ->
  isFunctionCall tokenArray from to = true ->
  ~ In (Js.trim x) knownFunctions ->
  evaluateAgainst localeCompare numberToString tokenArray (S fuel)
                  (Some (v :: vs)) from to isRecursive position last
                  isFilterContext filterSource
  = Throws (XPatherException
              (Some ("Unknown function " ++ Js.trim x ++ "!")%string)).
Proof.
  intros Hx Hat Hrange Hcall Hname.
  cbn [evaluateAgainst]. unfold evaluateAgainstBody.
  assert (H0 : 0 <= from).
  { unfold tokenAt in Hat. destruct (Z.ltb_spec from 0); [discriminate | lia]. }
  replace ((0 <=? from) && (to <? len tokenArray) && (from <=? to))%bool
    with true by (symmetry; rewrite !andb_true_iff; lia).
  destruct (nameToken_parts x Hx) as (_ & Hblank & _).
  rewrite (nameToken_token x tokenArray from Hat), Hblank.
  rewrite !(nameToken_isToken x Hx tokenArray from Hat) by (cbn; tauto).
  rewrite Hcall. cbn [orb andb].
  unfold evaluateFunction, forEach. cbn [forEachFrom]. cbv zeta.
  rewrite (nameToken_token x tokenArray from Hat).
  repeat match goal with
         | |- context [String.eqb ?known (Js.trim x)] =>
             destruct (String.eqb_spec known (Js.trim x)) as [E|_];
             [elim Hname; rewrite <- E; cbn; tauto|]
         end.
  reflexivity.
Qed.

(** The call [foo()] against one value. *)
Example unknown_function_call :
  evaluateAgainst codeUnitCompare Positional.toString ["foo"; "("; ")"] 4
                  (Some [VStr "a"]) 0 2 false 1 0 false None
  = Throws (XPatherException (Some "Unknown function foo!")).
Proof.
  apply (unknown_function_call_throws
           codeUnitCompare Positional.toString ["foo"; "("; ")"] 3 "foo");
    try reflexivity; [cbn; lia | vm_compute; intuition discriminate].
Qed.

Section SlashToken.

Variable tokenArray : list string.

Lemma isToken_at index t tok :
  tokenAt tokenArray index = Some t ->
  isToken tokenArray tok index = String.eqb (Js.trim t) (Js.trim tok).
Proof.
  intros Hat. unfold isToken, token. rewrite Hat.
  unfold tokenAt in Hat. destruct (Z.ltb_spec index 0); [discriminate|].
  assert (Hlen : index < len tokenArray).
  { assert (Hn : nth_error tokenArray (Z.to_nat index) <> None) by congruence.
    apply nth_error_Some in Hn. unfold len. lia. }
  replace (0 <=? index) with true by (symmetry; lia).
  replace (index <? len tokenArray) with true by (symmetry; lia).
  reflexivity.
Qed.

(** The step that a slash opens. *)
Lemma slash_dispatch localeCompare numberToString (ev : evaluator)
      obj from to isRecursive position last isFilterContext filterSource :
  tokenAt tokenArray from = Some "/" ->
  from <= to < len tokenArray ->
  evaluateAgainstBody localeCompare numberToString tokenArray ev obj
                      from to isRecursive position last isFilterContext
                      filterSource
  = let goRecursive := isToken tokenArray "/" (from + 1) in
    let from := if goRecursive then from + 1 else from in
    if from <? to then
      let toIndex := findClosingIndex tokenArray from to - 1 in
      let toIndex := if toIndex <=? from then to else toIndex in
      value <-
        ev obj (from + 1) toIndex goRecursive 1 last isFilterContext
           filterSource ;;
      ev (Some value) (toIndex + 1) to false 1 last isFilterContext
         filterSource
    else throwStandardException.
Proof.
  intros Hat Hrange. unfold evaluateAgainstBody.
  assert (H0 : 0 <= from).
  { unfold tokenAt in Hat. destruct (Z.ltb_spec from 0); [discriminate | lia]. }
  replace ((0 <=? from) && (to <? len tokenArray) && (from <=? to))%bool
    with true by (symmetry; rewrite !andb_true_iff; lia).
  rewrite !(fun tok => isToken_at from "/" tok Hat).
  unfold token at 1. rewrite Hat.
  repeat match goal with
         | |- context [String.eqb ?a (Js.trim ?b)] =>
             let v := eval vm_compute in (String.eqb a (Js.trim b)) in
             change (String.eqb a (Js.trim b)) with v
         end.
  reflexivity.
Qed.

(** Between a slash and the end of the range a single name token closes
    nothing. *)
Lemma closing_after_name x from :
  isNameToken x = true ->
  tokenAt tokenArray from = Some "/" ->
  tokenAt tokenArray (from + 1) = Some x ->
  findClosingIndex tokenArray from (from + 1) = -1.
Proof.
  intros Hx Hslash Hat. unfold findClosingIndex.
  replace (from <? from + 1) with true by (symmetry; lia).
  replace (Z.to_nat (from + 1 - from)) with 1%nat by lia.
  unfold tokenIs at 1 2 3 4 5 6 7 8. rewrite Hslash.
  cbn [String.eqb Ascii.eqb Bool.eqb dquote orb andb].
  cbn [closingBracket]. unfold scanToken.
  rewrite !(nameToken_tokenIs x Hx tokenArray (from + 1) Hat) by (cbn; tauto).
  reflexivity.
Qed.

End SlashToken.

Lemma closing_after_name_at tokenArray x from to :
  to = from + 1 ->
  isNameToken x = true ->
  tokenAt tokenArray from = Some "/" ->
  tokenAt tokenArray to = Some x ->
  findClosingIndex tokenArray from to = -1.
Proof.
  intros ->. apply closing_after_name.
Qed.

Lemma bind_cong {A B : Type} (m1 m2 : outcome A) (k1 k2 : A -> outcome B) :
  m1 = m2 -> (forall a, k1 a = k2 a) -> bind m1 k1 = bind m2 k2.
Proof.
  intros <- H. destruct m1; cbn [bind]; [apply H | reflexivity | reflexivity].
Qed.

Lemma bind_Returns_ext {A : Type} (m : outcome A) (k : A -> outcome A) :
  (forall a, k a = Returns a) -> bind m k = m.
Proof.
  intros H. destruct m; cbn [bind]; [apply H | reflexivity | reflexivity].
Qed.

(** The name step on a single element. *)
Lemma getElementsByName_single tokenArray (ev : evaluator) x e from to
      isRecursive isFilterContext :
  isNameToken x = true ->
  tokenAt tokenArray from = Some x ->
  getElementsByName tokenArray ev [VElem e] from to isRecursive
                    isFilterContext
  = additions <-
      elementStep ev (Js.trim x) from to isRecursive isFilterContext
                  (top e) (node e) (path e) 1 ;;
    Returns (JsSet.ofList additions).
Proof.
  intros Hx Hat. unfold getElementsByName.
  rewrite (nameToken_token x tokenArray from Hat).
  destruct (nameToken_parts x Hx) as (_ & _ & _ & _ & ->).
  cbn [forOf]. change (0 + 1) with 1.
  generalize (elementStep ev (Js.trim x) from to isRecursive isFilterContext
                          (top e) (node e) (path e) 1).
  intros [additions| |]; reflexivity.
Qed.

(** The self step without recursion hands the element on. *)
Lemma elementStep_self (ev : evaluator) from to isFilterContext t n up index :
  elementStep ev "." from to false isFilterContext t n up index
  = ev (Some [VElem (mkElement n up t)]) (from + 1) to false index 1
       isFilterContext None.
Proof.
  destruct n; cbn [elementStep]; cbn [String.eqb Ascii.eqb Bool.eqb bind];
    change (JsSet.ofList (map VElem [?x])) with [VElem x];
    cbn [len List.length Z.of_nat Pos.of_succ_nat]; apply bind_Returns.
Qed.

Section FromSelf.

Variable localeCompare : string -> string -> Z.
Variable numberToString : number -> string.
Variable x : string.
Hypothesis Hx : isNameToken x = true.
Variable e : XPatherElement.

Let T1 : list string := ["/"; "/"; x].
Let T2 : list string := ["."; "/"; "/"; x].
Let ev1 := evaluateAgainst localeCompare numberToString T1.
Let ev2 := evaluateAgainst localeCompare numberToString T2.

Lemma recursive_step_slashes :
  ev1 4%nat (Some [VElem e]) 0 2 false 1 0 false None
  = value <- ev1 3%nat (Some [VElem e]) 2 2 true 1 0 false None ;;
    ev1 3%nat (Some value) 3 2 false 1 0 false None.
Proof.
  unfold ev1 at 1.
  change (evaluateAgainst localeCompare numberToString T1 4)
    with (evaluateAgainstBody localeCompare numberToString T1 (ev1 3%nat)).
  rewrite slash_dispatch by (try reflexivity; cbn; lia).
  lazy -[ev1 findClosingIndex bind].
  rewrite (closing_after_name_at ["/"; "/"; x] x 1 2 eq_refl Hx eq_refl
                                 eq_refl).
  lazy -[ev1 bind]. reflexivity.
Qed.

Lemma recursive_step_run :
  ev1 4%nat (Some [VElem e]) 0 2 false 1 0 false None
  = additions <-
      elementStep (ev1 2%nat) (Js.trim x) 2 2 true false
                  (top e) (node e) (path e) 1 ;;
    Returns (JsSet.ofList additions).
Proof.
  rewrite recursive_step_slashes.
  rewrite (bind_Returns_ext
             _ (fun value => ev1 3%nat (Some value) 3 2 false 1 0 false None))
    by (intros; unfold ev1; apply evaluateAgainst_empty_range; lia).
  unfold ev1 at 1.
  change (evaluateAgainst localeCompare numberToString T1 3)
    with (evaluateAgainstBody localeCompare numberToString T1 (ev1 2%nat)).
  rewrite (nameToken_dispatch x Hx T1 2 eq_refl)
    by (try reflexivity; cbn; lia).
  now apply getElementsByName_single.
Qed.

Lemma self_step_slashes :
  ev2 4%nat (Some [VElem e]) 1 3 false 1 1 false None
  = value <- ev2 3%nat (Some [VElem e]) 3 3 true 1 1 false None ;;
    ev2 3%nat (Some value) 4 3 false 1 1 false None.
Proof.
  unfold ev2 at 1.
  change (evaluateAgainst localeCompare numberToString T2 4)
    with (evaluateAgainstBody localeCompare numberToString T2 (ev2 3%nat)).
  rewrite slash_dispatch by (try reflexivity; cbn; lia).
  lazy -[ev2 findClosingIndex bind].
  rewrite (closing_after_name_at ["."; "/"; "/"; x] x 2 3 eq_refl Hx
                                 eq_refl eq_refl).
  lazy -[ev2 bind]. reflexivity.
Qed.

Lemma self_then_recursive_step_run :
  ev2 5%nat (Some [VElem e]) 0 3 false 1 0 false None
  = additions <-
      elementStep (ev2 2%nat) (Js.trim x) 3 3 true false
                  (top e) (node e) (path e) 1 ;;
    Returns (JsSet.ofList (JsSet.ofList additions)).
Proof.
  unfold ev2 at 1.
  change (evaluateAgainst localeCompare numberToString T2 5)
    with (evaluateAgainstBody localeCompare numberToString T2 (ev2 4%nat)).
  rewrite (nameToken_dispatch "." eq_refl T2 0 eq_refl)
    by (try reflexivity; cbn; lia).
  rewrite (getElementsByName_single T2 (ev2 4%nat) "." e 0 3 false false
                                    eq_refl eq_refl).
  change (Js.trim ".") with ".".
  rewrite elementStep_self.
  replace (mkElement (node e) (path e) (top e)) with e by now destruct e.
  change (0 + 1) with 1.
  rewrite self_step_slashes.
  rewrite (bind_Returns_ext
             _ (fun value => ev2 3%nat (Some value) 4 3 false 1 1 false None))
    by (intros; unfold ev2; apply evaluateAgainst_empty_range; lia).
  unfold ev2 at 1.
  change (evaluateAgainst localeCompare numberToString T2 3)
    with (evaluateAgainstBody localeCompare numberToString T2 (ev2 2%nat)).
  rewrite (nameToken_dispatch x Hx T2 3 eq_refl)
    by (try reflexivity; cbn; lia).
  rewrite (getElementsByName_single T2 (ev2 2%nat) x e 3 3 true false Hx
                                    eq_refl).
  rewrite bind_bind. reflexivity.
Qed.

(** Against every element, the recursive step on a name and the same step
    after the self step have one outcome. *)
Lemma descendant_axis_named :
  evaluateAgainstNode localeCompare numberToString ["/"; "/"; x] (Some e)
  = evaluateAgainstNode localeCompare numberToString ["."; "/"; "/"; x]
                        (Some e).
Proof.
  unfold evaluateAgainstNode.
  change (evaluateAgainst localeCompare numberToString ["/"; "/"; x]
                          (fuelFor ["/"; "/"; x]))
    with (ev1 4%nat).
  change (evaluateAgainst localeCompare numberToString ["."; "/"; "/"; x]
                          (fuelFor ["."; "/"; "/"; x]))
    with (ev2 5%nat).
  change (len ["/"; "/"; x] - 1) with 2.
  change (len ["."; "/"; "/"; x] - 1) with 3.
  rewrite recursive_step_run, self_then_recursive_step_run.
  apply bind_cong.
  - apply elementStep_ext. intros nodeSet index last. unfold ev1, ev2.
    transitivity (@Returns (list XPatherResult) nodeSet);
      [|symmetry]; apply evaluateAgainst_empty_range; lia.
  - intros additions. now rewrite ofList_idempotent.
Qed.

End FromSelf.

Lemma splitFrom_plain (x cur : string) :
  Js.all (fun c => negb (isDelimiter c)) x = true ->
  splitFrom cur x = [(cur ++ x)%string].
Proof.
  revert cur; induction x as [|c x IH]; intros cur H; cbn [splitFrom].
  - now rewrite append_empty.
  - cbn [Js.all] in H. apply andb_prop in H as [Hc Hx].
    apply negb_true_iff in Hc. rewrite Hc, (IH _ Hx), append_assoc.
    reflexivity.
Qed.

(** The tokens of [//x] and of [.//x] for a name token [x]. *)
Lemma tokenize_recursive_step (x : string) :
  isNameToken x = true ->
  tokenize ("//" ++ x) = ["/"; "/"; x]
  /\ tokenize (".//" ++ x) = ["."; "/"; "/"; x].
Proof.
  intros Hx. destruct (nameToken_parts x Hx) as (Hall & Hblank & _).
  assert (Hne : truthy x = true).
  { destruct x; [discriminate Hblank | reflexivity]. }
  unfold tokenize, split. cbn [append splitFrom].
  change (isDelimiter "/") with true. change (isDelimiter ".") with false.
  cbv iota. cbn [append splitFrom].
  change (isDelimiter "/") with true. cbv iota.
  rewrite !(splitFrom_plain x EmptyString Hall).
  cbn [append filter truthy]. rewrite Hne. split; reflexivity.
Qed.

(** C9. Against every element [e] of every tree the expressions [//x] and
    [.//x] have one outcome: the same values in the same order. *)
Theorem descendant_axis_from_self
        (localeCompare : string -> string -> Z)
        (numberToString : number -> string) (e : XPatherElement) :
  evaluateXPath localeCompare numberToString e "//x"
  = evaluateXPath localeCompare numberToString e ".//x".
Proof.
  unfold evaluateXPath.
  change (tokenize "//x") with ["/"; "/"; "x"].
  change (tokenize ".//x") with ["."; "/"; "/"; "x"].
  exact (descendant_axis_named localeCompare numberToString "x" eq_refl e).
Qed.

(** The same for every name token in the place of [x]: an element name, [*],
    [.] or [..]. *)
Lemma descendant_axis_from_self_named
      (localeCompare : string -> string -> Z)
      (numberToString : number -> string) (e : XPatherElement) (x : string) :
  isNameToken x = true ->
  evaluateXPath localeCompare numberToString e ("//" ++ x)
  = evaluateXPath localeCompare numberToString e (".//" ++ x).
Proof.
  intros Hx. unfold evaluateXPath.
  destruct (tokenize_recursive_step x Hx) as [-> ->].
  now apply descendant_axis_named.
Qed.

(** An attribute reference is no name token, and after the self step the
    values of the attribute axis go through a set: equal attribute values are
    then kept once. *)
Lemma descendant_axis_attributes
      (localeCompare : string -> string -> Z)
      (numberToString : number -> string) :
  let list :=
    mkElement
      (Element "ul" [] [Element "li" [("class", "a")] [];
                        Element "li" [("class", "a")] []])
      [] Document in
  evaluateXPath localeCompare numberToString list "//@class"
  = Returns [VStr "a"; VStr "a"]
  /\ evaluateXPath localeCompare numberToString list ".//@class"
     = Returns [VStr "a"].
Proof.
  split; vm_compute; reflexivity.
Qed.

(* ================================================================== *)
(** * Further properties *)
(* ================================================================== *)

(* ------------------------------------------------------------------ *)
(** ** The tokens *)
(* ------------------------------------------------------------------ *)

Lemma splitFrom_shapes (s cur : string) :
  isPlain cur = true ->
  Forall (fun t => In t delimiterTokens \/ isPlain t = true)
         (splitFrom cur s).
Proof.
  revert cur; induction s as [|c s IH]; intros cur Hcur; cbn [splitFrom].
  - constructor; [now right | constructor].
  - destruct (isDelimiter c) eqn:Hc.
    + constructor; [now right|]. constructor; [|now apply IH].
      left. unfold delimiterTokens. apply in_map_iff. exists c.
      split; [reflexivity|].
      unfold isDelimiter in Hc. apply existsb_exists in Hc.
      destruct Hc as (d & Hd & E). apply Ascii.eqb_eq in E. now subst.
    + apply IH. unfold isPlain in *. clear IH.
      induction cur as [|x cur IHc]; cbn [append Js.all] in *.
      * now rewrite Hc.
      * apply andb_prop in Hcur as [-> Hcur]. now apply IHc.
Qed.

(** X1. Every token is not empty and is either one delimiter character or a
    run of characters without a delimiter. *)
Theorem tokenize_shapes (expression : string) :
  Forall (fun t => t <> EmptyString
                   /\ (In t delimiterTokens \/ isPlain t = true))
         (tokenize expression).
Proof.
  unfold tokenize, split. apply Forall_forall. intros t Ht.
  apply filter_In in Ht as [Hin Ht]. split; [now destruct t|].
  pose proof (splitFrom_shapes expression EmptyString eq_refl) as H.
  rewrite Forall_forall in H. now apply H.
Qed.

Lemma delimiterToken_not_plain (t : string) :
  In t delimiterTokens -> isPlain t = false.
Proof.
  unfold delimiterTokens. intros H. apply in_map_iff in H as (d & <- & Hd).
  unfold isPlain. cbn [Js.all]. now rewrite (isDelimiter_In d Hd).
Qed.

Lemma noPlainNeighbours_delimiter (d : string) (l : list string) :
  isPlain d = false ->
  noPlainNeighbours l = true -> noPlainNeighbours (d :: l) = true.
Proof.
  intros Hd Hl. destruct l as [|b l]; [reflexivity|].
  cbn [noPlainNeighbours] in *. now rewrite Hd, Hl.
Qed.

Lemma noPlainNeighbours_before_delimiter (a d : string) (l : list string) :
  isPlain d = false ->
  noPlainNeighbours (d :: l) = true -> noPlainNeighbours (a :: d :: l) = true.
Proof.
  intros Hd Hl.
  change (noPlainNeighbours (a :: d :: l))
    with (negb (isPlain a && isPlain d) && noPlainNeighbours (d :: l))%bool.
  now rewrite Hd, andb_false_r, Hl.
Qed.

Lemma splitFrom_runs (s cur : string) :
  noPlainNeighbours (filter truthy (splitFrom cur s)) = true.
Proof.
  revert cur; induction s as [|c s IH]; intros cur; cbn [splitFrom].
  - cbn [filter]. now destruct (truthy cur).
  - destruct (isDelimiter c) eqn:Hc; [|apply IH].
    assert (Hd : isPlain (String c EmptyString) = false)
      by (unfold isPlain; cbn [Js.all]; now rewrite Hc).
    assert (Htail : noPlainNeighbours
                      (String c EmptyString
                         :: filter truthy (splitFrom EmptyString s)) = true)
      by (apply noPlainNeighbours_delimiter; [exact Hd | apply IH]).
    cbn [filter truthy]. destruct (truthy cur); [|exact Htail].
    now apply noPlainNeighbours_before_delimiter.
Qed.

(** X2. The runs without a delimiter are maximal: no two neighbouring tokens
    are both without a delimiter. *)
Theorem tokenize_runs (expression : string) :
  noPlainNeighbours (tokenize expression) = true.
Proof.
  apply splitFrom_runs.
Qed.

(* ------------------------------------------------------------------ *)
(** ** The integer literal *)
(* ------------------------------------------------------------------ *)

Lemma integerTail_spec (s : string) :
  integerTail s = true <->
  Forall (fun d => isDigit d = true) (list_ascii_of_string s).
Proof.
  induction s as [|c s IH]; cbn [integerTail list_ascii_of_string].
  - split; [constructor | reflexivity].
  - destruct (isDigit c) eqn:Hd; cbn [negb].
    + rewrite IH. split; [intros H; now constructor | now inversion 1].
    + split; [intros; discriminate|]. inversion 1; congruence.
Qed.

Lemma integerTail_doubleTail (s : string) :
  integerTail s = true -> doubleTail s = true.
Proof.
  rewrite integerTail_spec, doubleTail_spec. intros H.
  eapply Forall_impl; [|exact H]. cbn beta. auto.
Qed.

(** X3. Every token that the integer classifier accepts is accepted by the
    double classifier too: it is the order of the two tests in
    [evaluateAgainst] that sends such a token to [parseInt]. *)
Theorem integer_token_is_double_token (value : string) :
  isValidInteger value = true -> isValidDouble value = true.
Proof.
  destruct value as [|c rest]; cbn [isValidInteger isValidDouble];
    [intros; discriminate|].
  destruct (Ascii.eqb c CP); cbn [orb]; [apply integerTail_doubleTail|].
  destruct (Ascii.eqb c CM); cbn [orb]; [apply integerTail_doubleTail|].
  destruct (isDigit c); [|intros; discriminate].
  rewrite orb_true_r. apply integerTail_doubleTail.
Qed.

(** X3 on [-42]. *)
Lemma integer_token_is_double_token_witness : isValidDouble "-42" = true.
Proof.
  apply (integer_token_is_double_token "-42"). reflexivity.
Defined.

Lemma spanDigits_digits (s : string) :
  integerTail s = true ->
  Num.spanDigits s = (list_ascii_of_string s, EmptyString).
Proof.
  induction s as [|c s IH]; cbn [integerTail Num.spanDigits
                                   list_ascii_of_string]; [reflexivity|].
  destruct (isDigit c); cbn [negb]; [|intros; discriminate].
  intros H. now rewrite (IH H).
Qed.

Lemma digit_not_space (c : ascii) :
  isDigit c = true -> Js.isWhiteSpace c = false.
Proof.
  destruct c as [[] [] [] [] [] [] [] []]; vm_compute; congruence.
Qed.

Lemma digit_not_sign (c : ascii) :
  isDigit c = true -> Ascii.eqb c CM = false /\ Ascii.eqb c CP = false.
Proof.
  destruct c as [[] [] [] [] [] [] [] []]; vm_compute; intuition congruence.
Qed.

(** X4. On a token that the integer classifier accepts, [parseFloat] reads
    the number that [parseInt] reads, and that number is [NaN] exactly when
    the token is a lone sign. *)
Theorem parse_integer_token (value : string) :
  isValidInteger value = true ->
  Num.parseFloat value = Num.parseInt value
  /\ (Num.parseInt value = NaN <-> value = "+" \/ value = "-").
Proof.
  destruct value as [|c rest]; cbn [isValidInteger]; [intros; discriminate|].
  unfold Num.parseFloat, Num.parseInt.
  destruct (Ascii.eqb_spec c CP) as [->|HP]; cbn [orb].
  { intros H. change (Js.trimStart (String CP rest)) with (String CP rest).
    change (Num.takeSign (String CP rest)) with (false, rest).
    cbv beta iota zeta.
    rewrite (spanDigits_digits rest H).
    destruct rest as [|d rest]; cbn [list_ascii_of_string app List.length].
    - split; [reflexivity|]. split; auto.
    - rewrite app_nil_r. split; [reflexivity|].
      split; [intros; discriminate | intros [E|E]; discriminate E]. }
  destruct (Ascii.eqb_spec c CM) as [->|HM]; cbn [orb].
  { intros H. change (Js.trimStart (String CM rest)) with (String CM rest).
    change (Num.takeSign (String CM rest)) with (true, rest).
    cbv beta iota zeta.
    rewrite (spanDigits_digits rest H).
    destruct rest as [|d rest]; cbn [list_ascii_of_string app List.length].
    - split; [reflexivity|]. split; auto.
    - rewrite app_nil_r. split; [reflexivity|].
      split; [intros; discriminate | intros [E|E]; discriminate E]. }
  destruct (isDigit c) eqn:Hd; [|intros; discriminate].
  intros H. cbn [Js.trimStart]. rewrite (digit_not_space c Hd).
  destruct (digit_not_sign c Hd) as [HM' HP'].
  cbn [Num.takeSign]. rewrite HM', HP'. cbv beta iota zeta.
  assert (Hall : integerTail (String c rest) = true)
    by (cbn [integerTail]; now rewrite Hd).
  rewrite (spanDigits_digits _ Hall).
  cbn [list_ascii_of_string app List.length]. rewrite app_nil_r.
  split; [reflexivity|].
  split; [intros; discriminate|].
  intros [E|E]; injection E as -> _; [now elim HP | now elim HM].
Qed.

(** X4 on [+7] and on the lone [-]. *)
Lemma parse_integer_token_witness :
  (Num.parseFloat "+7" = Num.parseInt "+7"
   /\ (Num.parseInt "+7" = NaN <-> "+7" = "+" \/ "+7" = "-"))
  /\ (Num.parseFloat "-" = Num.parseInt "-"
      /\ (Num.parseInt "-" = NaN <-> "-" = "+" \/ "-" = "-")).
Proof.
  split.
  - apply (parse_integer_token "+7"). reflexivity.
  - apply (parse_integer_token "-"). reflexivity.
Defined.

(* ------------------------------------------------------------------ *)
(** ** The bracket matcher *)
(* ------------------------------------------------------------------ *)

(** X5. The closing index is [-1] or an index after [from], up to [to]:
    [findClosingIndex] never answers with the opening index, with an index
    before it or with one beyond the range. *)
Theorem closing_index_in_range (tokenArray : list string) (from to : Z) :
  findClosingIndex tokenArray from to = -1
  \/ from < findClosingIndex tokenArray from to <= to.
Proof.
  apply findClosingIndex_bounds.
Qed.

Lemma closingQuote_first (tokenArray : list string) (q : string)
      (count : nat) (i : Z) :
  (closingQuote tokenArray q count i = -1
   /\ forall j, i <= j < i + Z.of_nat count -> tokenIs tokenArray q j = false)
  \/ (i <= closingQuote tokenArray q count i < i + Z.of_nat count
      /\ tokenIs tokenArray q (closingQuote tokenArray q count i) = true
      /\ forall j, i <= j < closingQuote tokenArray q count i ->
                   tokenIs tokenArray q j = false).
Proof.
  revert i; induction count as [|count IH]; intros i; cbn [closingQuote].
  - left. split; [reflexivity | intros; lia].
  - destruct (tokenIs tokenArray q i) eqn:Hq.
    + right. split; [lia|]. split; [exact Hq | intros; lia].
    + destruct (IH (i + 1)) as [[E Hno]|(Hr & Hq' & Hno)].
      * left. split; [exact E|]. intros j Hj.
        destruct (Z.eq_dec j i) as [->|]; [exact Hq | apply Hno; lia].
      * right. split; [lia|]. split; [exact Hq'|]. intros j Hj.
        destruct (Z.eq_dec j i) as [->|]; [exact Hq | apply Hno; lia].
Qed.

(** X6. From an opening quote, [findClosingIndex] answers with the first
    later index of the range that holds the same quote, whatever stands
    between the two; it answers [-1] exactly when the range holds none. *)
Theorem closing_quote_is_first (tokenArray : list string) (q : string)
        (from to : Z) :
  q = "'" \/ q = String dquote EmptyString ->
  tokenIs tokenArray q from = true ->
  (findClosingIndex tokenArray from to = -1
   /\ forall j, from < j <= to -> tokenIs tokenArray q j = false)
  \/ (from < findClosingIndex tokenArray from to <= to
      /\ tokenIs tokenArray q (findClosingIndex tokenArray from to) = true
      /\ forall j, from < j < findClosingIndex tokenArray from to ->
                   tokenIs tokenArray q j = false).
Proof.
  intros Hq Hfrom. unfold findClosingIndex.
  destruct (Z.ltb_spec from to) as [Hlt|Hge];
    [|left; split; [reflexivity | intros; lia]].
  assert (Hboth : tokenIs tokenArray (String dquote EmptyString) from
                  = String.eqb q (String dquote EmptyString)).
  { unfold tokenIs in *. destruct (tokenAt tokenArray from) as [t|];
      [|discriminate]. apply String.eqb_eq in Hfrom. subst t.
    destruct Hq as [->| ->]; reflexivity. }
  rewrite Hboth.
  destruct Hq as [->| ->].
  - change (String.eqb "'" (String dquote EmptyString)) with false.
    cbv iota. rewrite Hfrom.
    destruct (closingQuote_first tokenArray "'" (Z.to_nat (to - from))
                                 (from + 1)) as [[E Hno]|(Hr & Hq' & Hno)].
    + left. split; [exact E | intros; apply Hno; lia].
    + right. split; [lia|]. split; [exact Hq' | intros; apply Hno; lia].
  - rewrite String.eqb_refl.
    destruct (closingQuote_first tokenArray (String dquote EmptyString)
                                 (Z.to_nat (to - from)) (from + 1))
      as [[E Hno]|(Hr & Hq' & Hno)].
    + left. split; [exact E | intros; apply Hno; lia].
    + right. split; [lia|]. split; [exact Hq' | intros; apply Hno; lia].
Qed.

(** X6 on the tokens of ['a/b'/c]: the quote at [0] closes at [4]. *)
Lemma closing_quote_is_first_witness :
  let tokens := tokenize "'a/b'/c" in
  (findClosingIndex tokens 0 6 = -1
   /\ forall j, 0 < j <= 6 -> tokenIs tokens "'" j = false)
  \/ (0 < findClosingIndex tokens 0 6 <= 6
      /\ tokenIs tokens "'" (findClosingIndex tokens 0 6) = true
      /\ forall j, 0 < j < findClosingIndex tokens 0 6 ->
                   tokenIs tokens "'" j = false).
Proof.
  apply (closing_quote_is_first (tokenize "'a/b'/c") "'" 0 6).
  - left. reflexivity.
  - reflexivity.
Defined.

(* ------------------------------------------------------------------ *)
(** ** Predicates *)
(* ------------------------------------------------------------------ *)

Lemma filter_loop_subsequence (ev : evaluator) (from to last : Z)
      (l : list XPatherResult) :
  forall index result r,
    forEachFrom
      (fun curr index result =>
         let index := index + 1 in
         logicValueList <-
           ev (Some [curr]) from to false index last true (Some [curr]) ;;
         match logicValueList with
         | first :: _ =>
             match first with
             | VBool b => Returns (if b then result ++ [curr] else result)
             | VNum n =>
                 Returns (if Num.eqb n (Num.ofZ index)
                          then result ++ [curr] else result)
             | _ => Returns (result ++ [curr])
             end
         | [] => Returns result
         end)
      index l result
    = Returns r ->
    exists more, r = result ++ more /\ Subsequence more l.
Proof.
  induction l as [|v l IH]; intros index result r; cbn [forEachFrom].
  - intros [= <-]. exists []. split; [now rewrite app_nil_r | constructor].
  - cbv zeta.
    destruct (ev (Some [v]) from to false (index + 1) last true (Some [v]))
      as [out| |]; cbn [bind]; [|intros; discriminate|intros; discriminate].
    destruct out as [|[b|n|str|x] out]; cbn [bind];
      try destruct b; try destruct (Num.eqb n (Num.ofZ (index + 1)));
      intros H; destruct (IH _ _ _ H) as (more & -> & Hs);
      first [ exists more; split; [reflexivity | now constructor]
            | exists (v :: more); split;
              [now rewrite <- app_assoc | now constructor] ].
Qed.

(** X7. Whatever the predicate, the filter subroutine adds no value, repeats
    none and keeps the order: its result is the source without some of its
    members. *)
Theorem filterByCondition_subsequence (ev : evaluator)
        (source result : list XPatherResult) (from to : Z) :
  filterByCondition ev source from to = Returns result ->
  Subsequence result source.
Proof.
  unfold filterByCondition, forEach. intros H.
  destruct (filter_loop_subsequence ev from to (len source) source 0 [] result
                                    H) as (more & -> & Hs).
  exact Hs.
Qed.

(** X7 on the predicate [[2]] and two values. *)
Lemma filterByCondition_subsequence_witness :
  Subsequence [VStr "b"] [VStr "a"; VStr "b"].
Proof.
  apply (filterByCondition_subsequence
           (evaluateAgainst codeUnitCompare Positional.toString
                            ["["; "2"; "]"] 2)
           [VStr "a"; VStr "b"] [VStr "b"] 1 1).
  vm_compute. reflexivity.
Defined.

Lemma rev_rev (s acc acc' : string) :
  Js.rev (Js.rev s acc) acc' = Js.rev acc (s ++ acc')%string.
Proof.
  revert acc acc'; induction s as [|c s IH]; intros acc acc'; cbn [Js.rev];
    [reflexivity|].
  rewrite IH. reflexivity.
Qed.

Lemma trimStart_solid (s : string) :
  Js.all (fun c => negb (Js.isWhiteSpace c)) s = true -> Js.trimStart s = s.
Proof.
  destruct s as [|c s]; cbn [Js.all Js.trimStart]; [reflexivity|].
  intros H. apply andb_prop in H as [H _]. apply negb_true_iff in H.
  now rewrite H.
Qed.

(** A string without white space is its own trimming. *)
Lemma trim_solid (s : string) :
  Js.all (fun c => negb (Js.isWhiteSpace c)) s = true -> Js.trim s = s.
Proof.
  intros H. unfold Js.trim, Js.trimEnd.
  rewrite (trimStart_solid s H).
  rewrite (trimStart_solid (Js.rev s EmptyString))
    by (apply all_rev; [exact H | reflexivity]).
  rewrite rev_rev. cbn [Js.rev]. apply append_empty.
Qed.

Lemma all_integerTail (p : ascii -> bool) (s : string) :
  (forall c, isDigit c = true -> p c = true) ->
  integerTail s = true -> Js.all p s = true.
Proof.
  intros Hp. induction s as [|c s IH]; cbn [integerTail Js.all];
    [reflexivity|].
  destruct (isDigit c) eqn:Hd; cbn [negb]; [|intros; discriminate].
  intros H. now rewrite (Hp c Hd), (IH H).
Qed.

Lemma digit_not_delimiter (c : ascii) :
  isDigit c = true -> negb (isDelimiter c) = true.
Proof.
  destruct c as [[] [] [] [] [] [] [] []]; vm_compute; congruence.
Qed.

Lemma all_integer (p : ascii -> bool) (tok : string) :
  p CP = true -> p CM = true ->
  (forall c, isDigit c = true -> p c = true) ->
  isValidInteger tok = true -> Js.all p tok = true.
Proof.
  intros HP HM Hp. destruct tok as [|c rest]; cbn [isValidInteger Js.all];
    [reflexivity|].
  destruct (Ascii.eqb_spec c CP) as [->|_]; cbn [orb].
  { intros H. now rewrite HP, (all_integerTail p rest Hp H). }
  destruct (Ascii.eqb_spec c CM) as [->|_]; cbn [orb].
  { intros H. now rewrite HM, (all_integerTail p rest Hp H). }
  destruct (isDigit c) eqn:Hd; [|intros; discriminate].
  intros H. now rewrite (Hp c Hd), (all_integerTail p rest Hp H).
Qed.

Lemma plain_not_delimiter (tok : string) (d : ascii) :
  isPlain tok = true -> In d delimiters ->
  String.eqb tok (String d EmptyString) = false.
Proof.
  intros Hplain Hd. apply String.eqb_neq. intros ->.
  unfold isPlain in Hplain. cbn [Js.all] in Hplain.
  rewrite (isDelimiter_In d Hd) in Hplain. discriminate.
Qed.

Section IntegerToken.

Variable tokenArray : list string.
Variable tok : string.
Variable from : Z.
Hypothesis Hat : tokenAt tokenArray from = Some tok.
Hypothesis Hint : isValidInteger tok = true.

Lemma integer_trim : Js.trim tok = tok.
Proof.
  apply trim_solid.
  apply all_integer; [reflexivity | reflexivity | | exact Hint].
  intros c Hc. now rewrite (digit_not_space c Hc).
Qed.

Lemma integer_isToken (d : ascii) :
  In d delimiters -> isToken tokenArray (String d EmptyString) from = false.
Proof.
  intros Hd. rewrite (isToken_at tokenArray from tok _ Hat), integer_trim.
  replace (Js.trim (String d EmptyString)) with (String d EmptyString)
    by (cbn in Hd; repeat destruct Hd as [<-|Hd]; try reflexivity;
        destruct Hd).
  apply plain_not_delimiter; [|exact Hd].
  apply all_integer; [reflexivity | reflexivity | | exact Hint].
  apply digit_not_delimiter.
Qed.

(** An integer literal that stands alone in its range replaces the values by
    its number. *)
Lemma integer_alone localeCompare numberToString fuel
      obj isRecursive position last isFilterContext filterSource :
  evaluateAgainst localeCompare numberToString tokenArray (S (S fuel))
                  obj from from isRecursive position last isFilterContext
                  filterSource
  = Returns [VNum (Num.parseInt tok)].
Proof.
  assert (H0 : 0 <= from).
  { unfold tokenAt in Hat. destruct (Z.ltb_spec from 0); [discriminate | lia]. }
  assert (Hlen : from < len tokenArray).
  { unfold tokenAt in Hat. destruct (Z.ltb_spec from 0); [discriminate|].
    assert (Hn : nth_error tokenArray (Z.to_nat from) <> None) by congruence.
    apply nth_error_Some in Hn. unfold len. lia. }
  change (evaluateAgainst localeCompare numberToString tokenArray
                          (S (S fuel)))
    with (evaluateAgainstBody
            localeCompare numberToString tokenArray
            (evaluateAgainst localeCompare numberToString tokenArray
                             (S fuel))).
  unfold evaluateAgainstBody.
  replace ((0 <=? from) && (from <? len tokenArray) && (from <=? from))%bool
    with true by (symmetry; rewrite !andb_true_iff; lia).
  unfold token at 1. rewrite Hat, integer_trim.
  replace (String.eqb EmptyString tok) with false
    by (destruct tok; [discriminate Hint | reflexivity]).
  rewrite !integer_isToken by (cbn; tauto).
  cbn [orb andb].
  replace (isFunctionCall tokenArray from from) with false.
  2:{ unfold isFunctionCall, findClosingIndex.
      replace (from + 1 <? from) with false by (symmetry; lia).
      destruct (_ && _)%bool; [reflexivity | symmetry; lia]. }
  unfold token. rewrite Hat, Hint.
  apply evaluateAgainst_empty_range. lia.
Qed.

End IntegerToken.

Lemma kept_cons (i : Z) (v : XPatherResult) (ivs : list (Z * XPatherResult))
      (o : list XPatherResult) (outs : list (list XPatherResult)) :
  kept ((i, v) :: ivs) (o :: outs)
  = if keeps i o then v :: kept ivs outs else kept ivs outs.
Proof.
  unfold kept. cbn [combine filter fst snd]. now destruct (keeps i o).
Qed.

Lemma kept_at (k : Z) (l : list XPatherResult) :
  forall i,
    kept (indexedFrom i l) (repeat [VNum (Dec k 0)] (List.length l))
    = if i <=? k
      then match nth_error l (Z.to_nat (k - i)) with
           | Some v => [v]
           | None => []
           end
      else [].
Proof.
  induction l as [|v l IH]; intros i.
  - cbn. destruct (i <=? k); [|reflexivity].
    now destruct (Z.to_nat (k - i)).
  - cbn [indexedFrom List.length repeat]. rewrite kept_cons, IH.
    cbn [keeps]. unfold Num.eqb, Num.ofZ, Num.cmp, Num.pow10.
    cbn [Z.of_nat Z.pow]. rewrite !Z.mul_1_r.
    destruct (Z.compare_spec k i) as [Heq|Hlt|Hgt].
    + subst k.
      replace (i + 1 <=? i) with false by (symmetry; lia).
      replace (i <=? i) with true by (symmetry; lia).
      now rewrite Z.sub_diag.
    + replace (i + 1 <=? k) with false by (symmetry; lia).
      replace (i <=? k) with false by (symmetry; lia). reflexivity.
    + replace (i + 1 <=? k) with true by (symmetry; lia).
      replace (i <=? k) with true by (symmetry; lia).
      replace (Z.to_nat (k - i)) with (S (Z.to_nat (k - (i + 1)))) by lia.
      reflexivity.
Qed.

Lemma integer_runs (ev : evaluator) (from to last : Z) (out : list XPatherResult)
      (l : list XPatherResult) :
  (forall v i, ev (Some [v]) from to false i last true (Some [v])
               = Returns out) ->
  forall i,
    Forall2 (fun iv o =>
               ev (Some [snd iv]) from to false (fst iv) last true
                  (Some [snd iv]) = Returns o)
            (indexedFrom i l) (repeat out (List.length l)).
Proof.
  intros Hev. induction l as [|v l IH]; intros i; cbn; constructor; auto.
Qed.

(** X8. A predicate that is one integer literal [k] selects the value at the
    1-based index [k] of its source: the result is that value alone, and it
    is empty when the source has no such index. *)
Theorem positional_predicate
        (localeCompare : string -> string -> Z)
        (numberToString : number -> string)
        (tokenArray : list string) (fuel : nat) (tok : string) (k : Z)
        (source : list XPatherResult) (from : Z) :
  tokenAt tokenArray from = Some tok ->
  isValidInteger tok = true ->
  Num.parseInt tok = Dec k 0 ->
  filterByCondition
    (evaluateAgainst localeCompare numberToString tokenArray (S (S fuel)))
    source from from
  = Returns (if 1 <=? k
             then match nth_error source (Z.to_nat (k - 1)) with
                  | Some v => [v]
                  | None => []
                  end
             else []).
Proof.
  intros Hat Hint Hk.
  assert (Hruns :
            Forall2 (fun iv o =>
                       evaluateAgainst localeCompare numberToString tokenArray
                                       (S (S fuel)) (Some [snd iv]) from from
                                       false (fst iv) (len source) true
                                       (Some [snd iv])
                       = Returns o)
                    (indexedFrom (0 + 1) source)
                    (repeat [VNum (Dec k 0)] (List.length source))).
  { apply integer_runs. intros v i. rewrite <- Hk.
    now apply integer_alone. }
  unfold filterByCondition, forEach.
  etransitivity;
    [exact (filter_loop _ from from (len source) source 0 [] _ Hruns)|].
  cbn [app]. change (0 + 1) with 1. now rewrite kept_at.
Qed.

(** X8 on the predicate [[2]] and on the predicate [[5]], with three
    values. *)
Lemma positional_predicate_witness :
  filterByCondition
    (evaluateAgainst codeUnitCompare Positional.toString ["["; "2"; "]"] 2)
    [VStr "a"; VStr "b"; VStr "c"] 1 1
  = Returns [VStr "b"]
  /\ filterByCondition
       (evaluateAgainst codeUnitCompare Positional.toString ["["; "5"; "]"] 2)
       [VStr "a"; VStr "b"; VStr "c"] 1 1
     = Returns [].
Proof.
  split.
  - apply (positional_predicate codeUnitCompare Positional.toString
                                ["["; "2"; "]"] 0 "2" 2
                                [VStr "a"; VStr "b"; VStr "c"] 1);
      reflexivity.
  - apply (positional_predicate codeUnitCompare Positional.toString
                                ["["; "5"; "]"] 0 "5" 5
                                [VStr "a"; VStr "b"; VStr "c"] 1);
      reflexivity.
Defined.

(* ------------------------------------------------------------------ *)
(** ** Comparisons *)
(* ------------------------------------------------------------------ *)

Lemma leb_ltb_eqb (a b : number) :
  Num.leb a b = (Num.ltb a b || Num.eqb a b)%bool.
Proof.
  destruct a as [|m1 s1], b as [|m2 s2]; try reflexivity.
  unfold Num.leb, Num.ltb, Num.eqb. now destruct (Num.cmp m1 s1 m2 s2).
Qed.

Lemma eqb_sym (a b : number) : Num.eqb a b = Num.eqb b a.
Proof.
  destruct a as [|m1 s1], b as [|m2 s2]; try reflexivity.
  unfold Num.eqb, Num.cmp. rewrite (Z.compare_antisym (m1 * _) (m2 * _)).
  now destruct (m1 * Num.pow10 s2 ?= m2 * Num.pow10 s1).
Qed.

(** X9. The inclusive comparisons are the strict ones or equality: [<=]
    holds exactly when [<] or [=] does, and [>=] exactly when [>] or [=]
    does, on numbers and on texts alike. *)
Theorem evaluateLogic_inclusive
        (localeCompare : string -> string -> Z)
        (numberToString : number -> string)
        (first second : option (list XPatherResult)) :
  evaluateLogic localeCompare numberToString first second "<="
  = (evaluateLogic localeCompare numberToString first second "<"
     || evaluateLogic localeCompare numberToString first second "=")%bool
  /\ evaluateLogic localeCompare numberToString first second ">="
     = (evaluateLogic localeCompare numberToString first second ">"
        || evaluateLogic localeCompare numberToString first second "=")%bool.
Proof.
  assert (Htext : forall r : Z,
             (r <=? 0) = ((r <? 0) || (r =? 0))%bool
             /\ (r >=? 0) = ((r >? 0) || (r =? 0))%bool).
  { intros r. rewrite Z.geb_leb, Z.gtb_ltb.
    destruct (Z.leb_spec r 0), (Z.ltb_spec r 0), (Z.eqb_spec r 0),
      (Z.leb_spec 0 r), (Z.ltb_spec 0 r); cbn; split; try reflexivity; lia. }
  destruct first as [[|elem1 rest1]|], second as [[|elem2 rest2]|];
    try (split; reflexivity).
  destruct elem1 as [b1|n1|s1|e1], elem2 as [b2|n2|s2|e2];
    cbn -[Z.leb Z.ltb Z.eqb Z.geb Z.gtb]; try apply Htext.
  split; [apply leb_ltb_eqb|].
  rewrite (eqb_sym n1 n2). apply leb_ltb_eqb.
Qed.

(* ------------------------------------------------------------------ *)
(** ** Functions *)
(* ------------------------------------------------------------------ *)

(** A loop whose callback pushes [f curr index] onto the result. *)
Lemma forEachFrom_push {A B : Type} (f : A -> Z -> list B)
      (body : A -> Z -> list B -> outcome (list B)) (l : list A) :
  forall index result,
    (forall curr index result,
        In curr l -> body curr index result = Returns (result ++ f curr (index + 1))) ->
    forEachFrom body index l result
    = Returns (result
               ++ flat_map (fun iv => f (snd iv) (fst iv))
                           (indexedFrom (index + 1) l)).
Proof.
  induction l as [|curr l IH]; intros index result Hbody;
    cbn [forEachFrom indexedFrom flat_map].
  - now rewrite app_nil_r.
  - rewrite Hbody by now left. cbn [bind fst snd].
    rewrite IH by (intros; apply Hbody; now right).
    now rewrite <- app_assoc.
Qed.

Lemma flat_map_constant {A B : Type} (v : B) (l : list A) :
  flat_map (fun _ => [v]) l = repeat v (List.length l).
Proof.
  induction l as [|x l IH]; cbn; [reflexivity | now rewrite IH].
Qed.

Lemma indexedFrom_length {A : Type} (l : list A) :
  forall i, List.length (indexedFrom i l) = List.length l.
Proof.
  induction l as [|x l IH]; intros i; cbn; [reflexivity | now rewrite IH].
Qed.

(** X10. The function [last] gives one number for every value of its source:
    inside a predicate the [last] of the context, outside the number of
    values of the source. *)
Theorem evaluateFunction_last
        (tokenArray : list string) (ev : evaluator)
        (source : list XPatherResult) (from to position last : Z)
        (isFilterContext : bool) :
  Js.trim (token tokenArray from) = "last" ->
  evaluateFunction tokenArray ev source from to position last isFilterContext
  = Returns (repeat (VNum (Num.ofZ (if isFilterContext then last
                                    else len source)))
                    (List.length source)).
Proof.
  intros Hname. unfold evaluateFunction, forEach. rewrite Hname.
  rewrite (forEachFrom_push
             (fun _ _ => [VNum (Num.ofZ (if isFilterContext then last
                                         else len source))]))
    by reflexivity.
  cbn [app]. now rewrite flat_map_constant, indexedFrom_length.
Qed.

(** X10 on [last()] over three values, outside a predicate. *)
Lemma evaluateFunction_last_witness :
  evaluateFunction ["last"; "("; ")"]
                   (evaluateAgainst codeUnitCompare Positional.toString
                                    ["last"; "("; ")"] 1)
                   [VStr "a"; VStr "b"; VStr "c"] 0 2 1 0 false
  = Returns [VNum (Dec 3 0); VNum (Dec 3 0); VNum (Dec 3 0)].
Proof.
  apply (evaluateFunction_last
           ["last"; "("; ")"]
           (evaluateAgainst codeUnitCompare Positional.toString
                            ["last"; "("; ")"] 1)
           [VStr "a"; VStr "b"; VStr "c"] 0 2 1 0 false).
  reflexivity.
Defined.

(** X11. The function [position] gives one number for every value of its
    source: inside a predicate the [position] of the context, outside the
    1-based index of the value in the source. *)
Theorem evaluateFunction_position
        (tokenArray : list string) (ev : evaluator)
        (source : list XPatherResult) (from to position last : Z)
        (isFilterContext : bool) :
  Js.trim (token tokenArray from) = "position" ->
  evaluateFunction tokenArray ev source from to position last isFilterContext
  = Returns (map (fun iv => VNum (Num.ofZ (if isFilterContext then position
                                           else fst iv)))
                 (indexedFrom 1 source)).
Proof.
  intros Hname. unfold evaluateFunction, forEach. rewrite Hname.
  rewrite (forEachFrom_push
             (fun _ index => [VNum (Num.ofZ (if isFilterContext then position
                                             else index))]))
    by reflexivity.
  cbn [app]. change (0 + 1) with 1.
  apply f_equal. generalize (indexedFrom 1 source) as l.
  induction l as [|iv l IH]; cbn [flat_map map app fst snd];
    [reflexivity | now rewrite IH].
Qed.

(** X11 on [position()] over three values, outside a predicate. *)
Lemma evaluateFunction_position_witness :
  evaluateFunction ["position"; "("; ")"]
                   (evaluateAgainst codeUnitCompare Positional.toString
                                    ["position"; "("; ")"] 1)
                   [VStr "a"; VStr "b"; VStr "c"] 0 2 1 0 false
  = Returns [VNum (Dec 1 0); VNum (Dec 2 0); VNum (Dec 3 0)].
Proof.
  apply (evaluateFunction_position
           ["position"; "("; ")"]
           (evaluateAgainst codeUnitCompare Positional.toString
                            ["position"; "("; ")"] 1)
           [VStr "a"; VStr "b"; VStr "c"] 0 2 1 0 false).
  reflexivity.
Defined.

(** X12. The function [count] evaluates its argument against the whole
    source, once for every value of the source, and gives the number of
    values of the argument as many times as the source has values: none when
    the source is empty. *)
Theorem evaluateFunction_count
        (tokenArray : list string) (ev : evaluator)
        (source argumentEvaluated : list XPatherResult)
        (from to position last : Z) (isFilterContext : bool) :
  Js.trim (token tokenArray from) = "count" ->
  ev (Some source) (from + 2) (to - 1) false position 0 isFilterContext None
  = Returns argumentEvaluated ->
  evaluateFunction tokenArray ev source from to position last isFilterContext
  = Returns (repeat (VNum (Num.ofZ (len argumentEvaluated)))
                    (List.length source)).
Proof.
  intros Hname Harg. unfold evaluateFunction, forEach. rewrite Hname.
  rewrite (forEachFrom_push
             (fun _ _ => [VNum (Num.ofZ (len argumentEvaluated))])).
  - cbn [app]. now rewrite flat_map_constant, indexedFrom_length.
  - intros curr index result _. cbn [String.eqb Ascii.eqb Bool.eqb].
    now rewrite Harg.
Qed.

(** X12 on [count('x')] over two values: the argument has one value, and the
    count is given twice. *)
Lemma evaluateFunction_count_witness :
  evaluateFunction ["count"; "("; "'"; "x"; "'"; ")"]
                   (evaluateAgainst codeUnitCompare Positional.toString
                                    ["count"; "("; "'"; "x"; "'"; ")"] 3)
                   [VStr "a"; VStr "b"] 0 5 1 0 false
  = Returns [VNum (Dec 1 0); VNum (Dec 1 0)].
Proof.
  apply (evaluateFunction_count
           ["count"; "("; "'"; "x"; "'"; ")"]
           (evaluateAgainst codeUnitCompare Positional.toString
                            ["count"; "("; "'"; "x"; "'"; ")"] 3)
           [VStr "a"; VStr "b"] [VStr "x"] 0 5 1 0 false);
    reflexivity.
Defined.

(** X13. The function [text] gives the text content of every element of its
    source and every string as it is, in order; it gives nothing for a number
    or a boolean. *)
Theorem evaluateFunction_text
        (tokenArray : list string) (ev : evaluator)
        (source : list XPatherResult) (from to position last : Z)
        (isFilterContext : bool) :
  Js.trim (token tokenArray from) = "text" ->
  evaluateFunction tokenArray ev source from to position last isFilterContext
  = Returns (flat_map textOf source).
Proof.
  intros Hname. unfold evaluateFunction, forEach. rewrite Hname.
  rewrite (forEachFrom_push (fun curr _ => textOf curr)).
  - cbn [app]. apply f_equal. generalize (0 + 1).
    induction source as [|v l IH]; intros i; cbn [indexedFrom flat_map fst snd];
      [reflexivity | now rewrite IH].
  - intros curr index result _. cbn [String.eqb Ascii.eqb Bool.eqb].
    destruct curr; cbn [textOf]; try reflexivity; now rewrite app_nil_r.
Qed.

(** X13 on a string, a number and an element. *)
Lemma evaluateFunction_text_witness :
  evaluateFunction ["text"; "("; ")"]
                   (evaluateAgainst codeUnitCompare Positional.toString
                                    ["text"; "("; ")"] 1)
                   [VStr "a"; VNum (Dec 1 0); VElem Scenario7.inner] 0 2 1 0
                   false
  = Returns [VStr "a"; VStr "Bar"].
Proof.
  apply (evaluateFunction_text
           ["text"; "("; ")"]
           (evaluateAgainst codeUnitCompare Positional.toString
                            ["text"; "("; ")"] 1)
           [VStr "a"; VNum (Dec 1 0); VElem Scenario7.inner] 0 2 1 0 false).
  reflexivity.
Defined.

(* ------------------------------------------------------------------ *)
(** ** TagNode methods *)
(* ------------------------------------------------------------------ *)

(** X14. The elements that match a condition are the elements of the tree (the
    children only, or all descendants) that satisfy it, in the same order. *)
Theorem findMatchingTagNodes_filter
        (el : XPatherElement) (condition : XPatherElement -> bool)
        (isRecursive : bool) :
  findMatchingTagNodes el condition isRecursive
  = filter condition (getAllElementsList el isRecursive).
Proof.
  unfold getAllElementsList, findMatchingTagNodes.
  generalize (top el) as t, (path el) as up, (node el) as n.
  intros t up n. revert up.
  induction n as [nm atts cs IH|k d] using Node_induction; intros up;
    [|reflexivity].
  cbn [findMatchingNodes].
  generalize (Element nm atts cs) as parent, 0%nat as i. intros parent.
  induction IH as [|c cs Hc _ IHcs]; intros i; [reflexivity|].
  rewrite !filter_app, <- IHcs.
  destruct (isElementNode c); [|reflexivity].
  rewrite filter_app. cbn [filter].
  destruct (condition _); cbn [app]; destruct isRecursive; cbn [filter];
    now rewrite ?Hc.
Qed.

Lemma childTagsFrom_all (el : XPatherElement) (cs : list Node) :
  forall i,
    childTagsFrom el cs i
    = (fix loop (cs : list Node) (i : nat) {struct cs} : list XPatherElement :=
         match cs with
         | [] => []
         | c :: cs' =>
             let currNode := mkElement c ((i, node el) :: path el) (top el) in
             (if isElementNode c
              then (if true then [currNode] else []) ++ []
              else [])
             ++ loop cs' (S i)
         end) cs i.
Proof.
  induction cs as [|c cs IH]; intros i; cbn [childTagsFrom]; [reflexivity|].
  rewrite IH. unfold childOf. now destruct (isElementNode c).
Qed.

Lemma childTags_search (el : XPatherElement) :
  getChildTagList el = findMatchingTagNodes el (fun _ => true) false.
Proof.
  unfold getChildTagList, findMatchingTagNodes.
  destruct el as [[nm atts cs|k d] up t]; [|reflexivity].
  cbn [node path top childNodes findMatchingNodes].
  apply (childTagsFrom_all (mkElement (Element nm atts cs) up t) cs 0).
Qed.

(** X15. The child elements that [getChildTagList] collects are the elements
    that [getAllElementsList] finds without recursion. *)
Theorem getChildTagList_all (el : XPatherElement) :
  getChildTagList el = getAllElementsList el false.
Proof.
  apply childTags_search.
Qed.

Lemma childTagsFrom_In (el c : XPatherElement) (cs : list Node) :
  forall i, In c (childTagsFrom el cs i) ->
            exists j item, c = childOf el j item /\ In item cs.
Proof.
  induction cs as [|item cs IH]; intros i; cbn [childTagsFrom];
    [intros []|].
  intros H. apply in_app_or in H as [H|H].
  - destruct (isElementNode item); [|destruct H].
    destruct H as [<-|[]]. exists i, item. split; [reflexivity | now left].
  - destruct (IH _ H) as (j & item' & -> & Hin).
    exists j, item'. split; [reflexivity | now right].
Qed.

(** X16. The parent of a child element is the element whose child it is:
    [getParent] on a member of [getChildTagList el] returns [el]. *)
Theorem getParent_child (el c : XPatherElement) :
  In c (getChildTagList el) -> getParent c = Returns (Some el).
Proof.
  unfold getChildTagList. intros H.
  destruct (childTagsFrom_In _ _ _ _ H) as (j & item & -> & Hin).
  destruct el as [[nm atts cs|k d] up t]; [|destruct Hin].
  reflexivity.
Qed.

(** X16 on the body of the document of scenario 7 and its only child. *)
Lemma getParent_child_witness :
  getParent Scenario7.outer = Returns (Some Scenario7.body).
Proof.
  apply (getParent_child Scenario7.body Scenario7.outer).
  cbn. now left.
Defined.

Lemma findMatchingNodes_below (condition : XPatherElement -> bool)
      (isRecursive : bool) (t : Top) (x : XPatherElement) (n : Node) :
  forall up,
    In x (findMatchingNodes condition isRecursive t n up) ->
    isElementNode (node x) = true /\ top x = t
    /\ exists i parent steps, path x = steps ++ (i, parent) :: up.
Proof.
  induction n as [nm atts cs IH|k d] using Node_induction; intros up;
    [|intros []].
  cbn [findMatchingNodes].
  generalize (Element nm atts cs) as parent, 0%nat as i. intros parent.
  induction IH as [|c cs Hc _ IHcs]; intros i; [intros []|].
  intros H. apply in_app_or in H as [H|H]; [|exact (IHcs _ H)].
  destruct (isElementNode c) eqn:Hel; [|destruct H].
  apply in_app_or in H as [H|H].
  - destruct (condition _); [|destruct H]. destruct H as [<-|[]].
    cbn [node top path]. repeat split; [exact Hel|].
    now exists i, parent, [].
  - destruct isRecursive; [|destruct H].
    destruct (Hc _ H) as (He & Ht & j & above & steps & Hp).
    repeat split; [exact He | exact Ht|].
    exists i, parent, (steps ++ [(j, above)]).
    now rewrite <- app_assoc.
Qed.

(** X17. Every element that a search from [el] finds is an element node of
    the document of [el] strictly below [el]: its way up passes through
    [el], and it is never [el] itself. *)
Theorem findMatchingTagNodes_below
        (el x : XPatherElement) (condition : XPatherElement -> bool)
        (isRecursive : bool) :
  In x (findMatchingTagNodes el condition isRecursive) ->
  isElementNode (node x) = true
  /\ top x = top el
  /\ (exists i parent steps, path x = steps ++ (i, parent) :: path el)
  /\ sameElement x el = false.
Proof.
  intros H. apply findMatchingNodes_below in H as (He & Ht & i & p & steps & Hp).
  repeat split; [exact He | exact Ht | now exists i, p, steps|].
  unfold sameElement. rewrite Hp.
  destruct (list_eq_dec _ _ _) as [E|_]; [|reflexivity].
  apply (f_equal (@List.length nat)) in E.
  rewrite !length_map, length_app in E. cbn [List.length] in E. lia.
Qed.

(** X17 on the inner [div] of scenario 7, found from the root. *)
Lemma findMatchingTagNodes_below_witness :
  isElementNode (node Scenario7.inner) = true
  /\ top Scenario7.inner = top Scenario7.root
  /\ (exists i parent steps,
         path Scenario7.inner = steps ++ (i, parent) :: path Scenario7.root)
  /\ sameElement Scenario7.inner Scenario7.root = false.
Proof.
  apply (findMatchingTagNodes_below
           Scenario7.root Scenario7.inner
           (fun e => String.eqb (nodeName e) "div") true).
  cbn. right. now left.
Defined.

(* ------------------------------------------------------------------ *)
(** ** The element axis *)
(* ------------------------------------------------------------------ *)

Lemma forOf_invariant {A S : Type} (Q : S -> Prop)
      (body : A -> S -> outcome S) (l : list A) :
  (forall x state state', Q state -> body x state = Returns state' ->
                          Q state') ->
  forall state state', Q state -> forOf l body state = Returns state' ->
                       Q state'.
Proof.
  intros Hbody. induction l as [|x l IH]; intros state state' Hs;
    cbn [forOf].
  - intros [= <-]. exact Hs.
  - destruct (body x state) as [st| |] eqn:Hx; cbn [bind];
      [|discriminate|discriminate].
    apply IH. exact (Hbody _ _ _ Hs Hx).
Qed.

(** X18. A step of the element axis returns a set: whatever the values of the
    source contribute, no value is in the result twice. *)
Theorem element_axis_distinct
        (tokenArray : list string) (ev : evaluator)
        (source result : list XPatherResult) (from to : Z)
        (isRecursive isFilterContext : bool) :
  isAtt (Js.trim (token tokenArray from)) = false ->
  getElementsByName tokenArray ev source from to isRecursive isFilterContext
  = Returns result ->
  Distinct result.
Proof.
  intros Hatt. unfold getElementsByName. rewrite Hatt.
  destruct (forOf source _ _) as [[resultSet index]| |] eqn:Hloop;
    cbn [bind fst]; [|discriminate|discriminate].
  intros [= <-].
  apply (forOf_invariant (fun st => Distinct (fst st)) _ _) in Hloop;
    [exact Hloop| |constructor].
  intros next [set i] [set' i'] Hset. cbn [fst] in *.
  destruct next as [b|n|s|e]; try discriminate.
  destruct (elementStep _ _ _ _ _ _ _ _ _ _) as [additions| |];
    cbn [bind]; [|discriminate|discriminate].
  intros [= <- _]. now apply addAll_Distinct.
Qed.

(** X18 on the step [div] from the body of the document of scenario 7. *)
Lemma element_axis_distinct_witness : Distinct [VElem Scenario7.outer].
Proof.
  apply (element_axis_distinct
           ["div"]
           (evaluateAgainst codeUnitCompare Positional.toString ["div"] 1)
           [VElem Scenario7.body] [VElem Scenario7.outer] 0 0 false false);
    reflexivity.
Defined.

(** X19. The step [..] from the outermost element of a document throws the
    [Error] of [getParent], not an XPatherException: the parent is the
    document, of node type 9.  The values after it in the source and the
    rest of the expression are not looked at. *)
Theorem parent_of_document_root
        (tokenArray : list string) (ev : evaluator)
        (el : XPatherElement) (rest : list XPatherResult) (from to : Z)
        (isRecursive isFilterContext : bool) :
  Js.trim (token tokenArray from) = ".." ->
  path el = [] ->
  top el = Document ->
  getElementsByName tokenArray ev (VElem el :: rest) from to isRecursive
                    isFilterContext
  = Throws (Error "Parent node is not an TagNode (nodeType: 9)").
Proof.
  intros Hname Hpath Htop. unfold getElementsByName. rewrite Hname.
  destruct el as [n up t]. cbn [path top] in Hpath, Htop. subst up t.
  cbn [isAtt String.length Nat.ltb Nat.leb andb Js.startsWith forOf node path
       top].
  now destruct n.
Qed.

(** X19 on the root of the document of scenario 7. *)
Lemma parent_of_document_root_witness :
  getElementsByName [".."]
                    (evaluateAgainst codeUnitCompare Positional.toString
                                     [".."] 1)
                    [VElem Scenario7.root] 0 0 false false
  = Throws (Error "Parent node is not an TagNode (nodeType: 9)").
Proof.
  apply (parent_of_document_root
           [".."]
           (evaluateAgainst codeUnitCompare Positional.toString [".."] 1)
           Scenario7.root [] 0 0 false false);
    reflexivity.
Defined.

(* ------------------------------------------------------------------ *)
(** ** Outcomes of the entry point *)
(* ------------------------------------------------------------------ *)

(** X20. The evaluation of an expression against an element ends: it returns
    a list of values or it throws.  Every call that [evaluateAgainst] makes,
    directly or through a subroutine, is on a shorter range of tokens. *)
Theorem evaluateXPath_returns_or_throws
        (localeCompare : string -> string -> Z)
        (numberToString : number -> string)
        (el : XPatherElement) (xPathExpression : string) :
  (exists result,
      evaluateXPath localeCompare numberToString el xPathExpression
      = Returns result)
  \/ (exists e,
         evaluateXPath localeCompare numberToString el xPathExpression
         = Throws e).
Proof.
  pose proof (evaluateXPath_ends localeCompare numberToString el
                                 xPathExpression) as H.
  destruct (evaluateXPath _ _ _ _) as [result|e|];
    [left; now exists result | right; now exists e | contradiction].
Qed.

Section NoParentStep.

Variable tokenArray : list string.
Hypothesis Hnone : forallb (fun t => negb (isParentStep t)) tokenArray = true.

Variable ev : evaluator.
Hypothesis Hev : gentleEvaluator ev.

Lemma token_not_parent (from : Z) :
  String.eqb ".." (Js.trim (token tokenArray from)) = false.
Proof.
  unfold token, tokenAt. destruct (from <? 0); [reflexivity|].
  destruct (nth_error tokenArray (Z.to_nat from)) as [t|] eqn:Ht;
    [|reflexivity].
  apply nth_error_In in Ht. rewrite forallb_forall in Hnone.
  apply Hnone in Ht. now apply negb_true_iff in Ht.
Qed.

Lemma gentle_bind {A B : Type} (m : outcome A) (k : A -> outcome B) :
  holds (fun _ => True) m ->
  (forall a, holds (fun _ => True) (k a)) ->
  holds (fun _ => True) (bind m k).
Proof.
  intros Hm Hk. apply holds_bind with (Q := fun _ => True); auto.
Qed.

Lemma evaluateFunction_gentle source from to position last isFilterContext :
  holds (fun _ => True)
        (evaluateFunction tokenArray ev source from to position last
                          isFilterContext).
Proof.
  unfold evaluateFunction, forEach.
  apply holds_forEachFrom; [|exact I].
  intros curr index result _ _.
  repeat match goal with
         | |- holds _ (if ?c then _ else _) => destruct c
         | |- holds _ (bind _ _) => apply gentle_bind; [apply Hev | intros ?]
         | |- holds _ (match ?c with VBool _ => _ | _ => _ end) => destruct c
         | |- holds _ _ => exact I
         end.
Qed.

Lemma filterByCondition_gentle source from to :
  holds (fun _ => True) (filterByCondition ev source from to).
Proof.
  unfold filterByCondition, forEach.
  apply holds_forEachFrom; [|exact I].
  intros curr index result _ _. apply gentle_bind; [apply Hev|].
  intros [|[b|n|str|e] ?]; exact I.
Qed.

Lemma attributeStep_gentle source name from to isRecursive isFilterContext :
  holds (fun _ => True)
        (attributeStep ev source name from to isRecursive isFilterContext).
Proof.
  unfold attributeStep. apply holds_forOf; [|exact I].
  intros next result _ _. unfold attributeVisit.
  destruct next as [b|n|s|e]; try exact I.
  destruct (String.eqb "*" name).
  - apply gentle_bind; [apply Hev | intros ?; exact I].
  - destruct (getAttributeByName e name); [|exact I].
    apply gentle_bind; [apply Hev | intros ?; exact I].
Qed.

Lemma childTagsLoop_gentle recurse parent axis refinedSubnodes cs :
  Forall (fun c => forall i, holds (fun _ => True) (recurse c i)) cs ->
  forall i,
    holds (fun _ => True)
          (childTagsLoop recurse parent axis refinedSubnodes cs i).
Proof.
  induction 1 as [|c cs Hc _ IH]; intros i; cbn [childTagsLoop];
    [exact I|].
  destruct (isElementNode c); [|apply IH].
  apply gentle_bind; [apply Hc | intros ?].
  apply gentle_bind; [apply IH | intros ?; exact I].
Qed.

Lemma elementStep_gentle name from to isRecursive isFilterContext t n :
  String.eqb ".." name = false ->
  forall up index,
    holds (fun _ => True)
          (elementStep ev name from to isRecursive isFilterContext t n up
                       index).
Proof.
  intros Hname.
  induction n as [nm atts cs IH|k d] using Node_induction; intros up index;
    cbn [elementStep]; rewrite Hname.
  - apply gentle_bind; [destruct (String.eqb "." name); exact I | intros ?].
    apply gentle_bind; [apply Hev | intros ?].
    destruct isRecursive; [|exact I].
    apply gentle_bind; [|intros ?; exact I].
    apply childTagsLoop_gentle.
    apply Forall_forall. intros c Hc i. rewrite Forall_forall in IH.
    now apply IH.
  - apply gentle_bind; [destruct (String.eqb "." name); exact I | intros ?].
    apply gentle_bind; [apply Hev | intros ?].
    destruct isRecursive; exact I.
Qed.

Lemma getElementsByName_gentle source from to isRecursive isFilterContext :
  holds (fun _ => True)
        (getElementsByName tokenArray ev source from to isRecursive
                           isFilterContext).
Proof.
  unfold getElementsByName.
  destruct (isAtt _); [apply attributeStep_gentle|].
  apply gentle_bind; [|intros ?; exact I].
  apply holds_forOf; [|exact I]. intros next [resultSet index] _ _.
  destruct next as [b|n|s|e]; try exact I.
  apply gentle_bind; [|intros ?; exact I].
  apply elementStep_gentle, token_not_parent.
Qed.

Lemma evaluateAgainstBody_gentle localeCompare numberToString :
  gentleEvaluator
    (evaluateAgainstBody localeCompare numberToString tokenArray ev).
Proof.
  intros obj from to isRecursive position last isFilterContext filterSource.
  unfold evaluateAgainstBody.
  repeat match goal with
         | |- holds _ (if ?c then _ else _) => destruct c
         | |- holds _ throwStandardException => exact I
         | |- holds _ (Returns _) => exact I
         | |- holds _ (ev _ _ _ _ _ _ _ _) => apply Hev
         | |- holds _ (bind _ _) => apply gentle_bind; [|intros ?]
         | |- holds _ (match obj with Some _ => _ | None => _ end) =>
             destruct obj; [|exact I]
         | |- holds _ (filterByCondition _ _ _ _) =>
             apply filterByCondition_gentle
         | |- holds _ (evaluateFunction _ _ _ _ _ _ _ _) =>
             apply evaluateFunction_gentle
         | |- holds _ (getElementsByName _ _ _ _ _ _ _) =>
             apply getElementsByName_gentle
         end.
Qed.

End NoParentStep.

Lemma evaluateAgainst_gentle localeCompare numberToString tokenArray fuel :
  forallb (fun t => negb (isParentStep t)) tokenArray = true ->
  gentleEvaluator
    (evaluateAgainst localeCompare numberToString tokenArray fuel).
Proof.
  intros Hnone. induction fuel as [|fuel IH].
  - intros ? ? ? ? ? ? ? ?. exact I.
  - cbn [evaluateAgainst]. now apply evaluateAgainstBody_gentle.
Qed.

(** X21. Only the step to the parent can make an evaluation throw anything
    but an XPatherException: when no token of the expression is [..], the
    evaluation returns a list of values or throws an XPatherException. *)
Theorem no_parent_step_no_error
        (localeCompare : string -> string -> Z)
        (numberToString : number -> string)
        (el : XPatherElement) (xPathExpression : string) :
  forallb (fun t => negb (isParentStep t)) (tokenize xPathExpression) = true ->
  (exists result,
      evaluateXPath localeCompare numberToString el xPathExpression
      = Returns result)
  \/ (exists message,
         evaluateXPath localeCompare numberToString el xPathExpression
         = Throws (XPatherException message)).
Proof.
  intros Hnone.
  pose proof (evaluateXPath_ends localeCompare numberToString el
                                 xPathExpression) as Hends.
  pose proof (evaluateAgainst_gentle
                localeCompare numberToString (tokenize xPathExpression)
                (fuelFor (tokenize xPathExpression)) Hnone
                (Some [VElem el]) 0 (len (tokenize xPathExpression) - 1)
                false 1 0 false None) as Hgentle.
  unfold evaluateXPath, evaluateAgainstNode in *.
  destruct (evaluateAgainst _ _ _ _ _ _ _ _ _ _ _ _) as [result|[m|m]|];
    [left; now exists result | right; now exists m | destruct Hgentle
    | contradiction].
Qed.

(** X21 on the expression [//a[], which throws an
    XPatherException. *)
Lemma no_parent_step_no_error_witness :
  (exists result,
      evaluateXPath codeUnitCompare Positional.toString Scenario7.root "//a["
      = Returns result)
  \/ (exists message,
         evaluateXPath codeUnitCompare Positional.toString Scenario7.root
                       "//a["
         = Throws (XPatherException message)).
Proof.
  apply (no_parent_step_no_error codeUnitCompare Positional.toString
                                 Scenario7.root "//a[").
  reflexivity.
Defined.

(* ------------------------------------------------------------------ *)
(** ** Blank expressions and string literals *)
(* ------------------------------------------------------------------ *)

Lemma rev_empty (s acc : string) :
  Js.rev s acc = EmptyString -> s = EmptyString /\ acc = EmptyString.
Proof.
  revert acc; induction s as [|c s IH]; intros acc; cbn [Js.rev];
    [now split|].
  intros H. apply IH in H as [_ H]. discriminate.
Qed.

Lemma trimStart_blank (s : string) :
  Js.all Js.isWhiteSpace (Js.trimStart s) = true ->
  Js.all Js.isWhiteSpace s = true.
Proof.
  induction s as [|c s IH]; cbn [Js.trimStart Js.all]; [reflexivity|].
  destruct (Js.isWhiteSpace c) eqn:Hc; cbn [Js.all andb].
  - exact IH.
  - now rewrite Hc.
Qed.

(** A string that [trim] empties is white space. *)
Lemma trim_blank (s : string) :
  Js.trim s = EmptyString -> Js.all Js.isWhiteSpace s = true.
Proof.
  unfold Js.trim, Js.trimEnd. intros H. apply rev_empty in H as [H _].
  apply trimStart_blank.
  assert (Hrev : Js.all Js.isWhiteSpace (Js.rev (Js.trimStart s) "") = true)
    by (apply trimStart_blank; now rewrite H).
  pose proof (all_rev Js.isWhiteSpace _ "" Hrev eq_refl) as Hback.
  rewrite rev_rev in Hback. cbn [Js.rev] in Hback.
  now rewrite append_empty in Hback.
Qed.

Lemma space_not_delimiter (c : ascii) :
  Js.isWhiteSpace c = true -> negb (isDelimiter c) = true.
Proof.
  destruct c as [[] [] [] [] [] [] [] []]; vm_compute; congruence.
Qed.

Lemma all_implies (p q : ascii -> bool) (s : string) :
  (forall c, p c = true -> q c = true) ->
  Js.all p s = true -> Js.all q s = true.
Proof.
  intros Hpq. induction s as [|c s IH]; cbn [Js.all]; [reflexivity|].
  intros H. apply andb_prop in H as [Hc Hs]. now rewrite (Hpq c Hc), (IH Hs).
Qed.

(** X22. An expression that is empty or white space selects the element it
    is evaluated against. *)
Theorem blank_expression
        (localeCompare : string -> string -> Z)
        (numberToString : number -> string)
        (el : XPatherElement) (xPathExpression : string) :
  Js.trim xPathExpression = EmptyString ->
  evaluateXPath localeCompare numberToString el xPathExpression
  = Returns [VElem el].
Proof.
  intros Hblank. unfold evaluateXPath, evaluateAgainstNode.
  destruct xPathExpression as [|c rest]; [reflexivity|].
  assert (Htokens : tokenize (String c rest) = [String c rest]).
  { unfold tokenize, split. rewrite splitFrom_plain; [reflexivity|].
    apply all_implies with (p := Js.isWhiteSpace);
      [exact space_not_delimiter | now apply trim_blank]. }
  rewrite Htokens.
  change (fuelFor [String c rest]) with 2%nat.
  change (evaluateAgainst localeCompare numberToString [String c rest] 2)
    with (evaluateAgainstBody
            localeCompare numberToString [String c rest]
            (evaluateAgainst localeCompare numberToString [String c rest] 1)).
  unfold evaluateAgainstBody.
  change (len [String c rest] - 1) with 0.
  change (token [String c rest] 0) with (String c rest).
  rewrite Hblank. reflexivity.
Qed.

(** X22 on an expression of two spaces. *)
Lemma blank_expression_witness :
  evaluateXPath codeUnitCompare Positional.toString Scenario7.root "  "
  = Returns [VElem Scenario7.root].
Proof.
  apply (blank_expression codeUnitCompare Positional.toString
                          Scenario7.root "  ").
  reflexivity.
Defined.

Lemma splitFrom_closing (s cur : string) :
  filter truthy (splitFrom cur (s ++ "'")%string)
  = filter truthy (splitFrom cur s) ++ ["'"].
Proof.
  revert cur; induction s as [|c s IH]; intros cur.
  - cbn. now destruct cur.
  - cbn [String.append splitFrom]. destruct (isDelimiter c); [|apply IH].
    cbn [filter]. rewrite IH. now destruct (truthy cur).
Qed.

Lemma tokenize_quoted (s : string) :
  tokenize ("'" ++ s ++ "'")%string = "'" :: tokenize s ++ ["'"].
Proof.
  unfold tokenize, split. cbn [String.append splitFrom].
  change (isDelimiter "'") with true. cbv iota. cbn [filter truthy].
  now rewrite splitFrom_closing.
Qed.

Lemma splitFrom_chars (s : string) (q : ascii) :
  Js.all (fun c => negb (Ascii.eqb c q)) s = true ->
  forall cur t,
    In t (splitFrom cur s) -> t = String q EmptyString -> t = cur.
Proof.
  induction s as [|c s IH]; intros Hs cur t; cbn [splitFrom].
  - intros [<-|[]] _. reflexivity.
  - cbn [Js.all] in Hs. apply andb_prop in Hs as [Hc Hs].
    apply negb_true_iff, Ascii.eqb_neq in Hc.
    destruct (isDelimiter c).
    + intros [<-|[<-|Hin]] Ht; [reflexivity | congruence|].
      pose proof (IH Hs _ _ Hin Ht) as E. rewrite E in Ht. discriminate.
    + intros Hin Ht. pose proof (IH Hs _ _ Hin Ht) as E.
      rewrite E in Ht. destruct cur; cbn in Ht; [congruence|].
      inversion Ht as [[Ha Hrest]]. destruct cur; discriminate.
Qed.

Lemma tokenize_without_quote (s t : string) :
  Js.all (fun c => negb (Ascii.eqb c "'")) s = true ->
  In t (tokenize s) -> t <> "'".
Proof.
  intros Hs Hin Ht. unfold tokenize, split in Hin.
  apply filter_In in Hin as [Hin _].
  pose proof (splitFrom_chars s "'" Hs _ _ Hin Ht). congruence.
Qed.

Section Quoted.

Variable middle : list string.
Hypothesis Hmiddle : forall t, In t middle -> t <> "'".

Let tokens : list string := "'" :: middle ++ ["'"].
Let n : Z := len middle.

Lemma quoted_len : len tokens = n + 2.
Proof.
  unfold tokens, n, len. cbn [List.length]. rewrite length_app.
  cbn [List.length]. lia.
Qed.

Lemma quoted_first : tokenAt tokens 0 = Some "'".
Proof. reflexivity. Qed.

Lemma quoted_last : tokenAt tokens (n + 1) = Some "'".
Proof.
  unfold tokenAt, tokens, n, len.
  destruct (Z.ltb_spec (Z.of_nat (List.length middle) + 1) 0); [lia|].
  replace (Z.to_nat (Z.of_nat (List.length middle) + 1))
    with (S (List.length middle + 0)) by lia.
  cbn [nth_error]. now rewrite nth_error_app2, Nat.add_0_r, Nat.sub_diag by lia.
Qed.

Lemma quoted_middle (j : Z) :
  0 < j < n + 1 -> tokenIs tokens "'" j = false.
Proof.
  intros Hj. unfold tokenIs, tokenAt, tokens.
  destruct (Z.ltb_spec j 0); [lia|].
  replace (Z.to_nat j) with (S (Z.to_nat (j - 1))) by lia.
  cbn [nth_error]. unfold n, len in Hj.
  rewrite nth_error_app1 by lia.
  destruct (nth_error middle (Z.to_nat (j - 1))) as [t|] eqn:Ht;
    [|reflexivity].
  apply nth_error_In in Ht. apply String.eqb_neq. intros E.
  now apply (Hmiddle t Ht).
Qed.

Lemma quoted_closing : findClosingIndex tokens 0 (n + 1) = n + 1.
Proof.
  assert (Hn : 0 <= n) by (unfold n, len; lia).
  unfold findClosingIndex.
  replace (0 <? n + 1) with true by (symmetry; lia).
  change (tokenIs tokens (String dquote EmptyString) 0) with false.
  change (tokenIs tokens "'" 0) with true. cbv iota zeta.
  destruct (closingQuote_first tokens "'" (Z.to_nat (n + 1 - 0)) (0 + 1))
    as [[_ Hno]|(Hr & Hq & Hno)].
  - assert (Hlast : tokenIs tokens "'" (n + 1) = true)
      by (unfold tokenIs; now rewrite quoted_last).
    rewrite Hno in Hlast by lia. discriminate.
  - destruct (Z.eq_dec (closingQuote tokens "'" (Z.to_nat (n + 1 - 0))
                                     (0 + 1)) (n + 1)) as [E|Hneq];
      [exact E|].
    rewrite quoted_middle in Hq by lia. discriminate.
Qed.

Lemma quoted_flatten : flatten tokens (0 + 1) (n + 1 - 1) = Js.join middle.
Proof.
  assert (Hn : 0 <= n) by (unfold n, len; lia).
  unfold flatten. destruct (Z.leb_spec (0 + 1) (n + 1 - 1)) as [Hle|Hgt].
  - change (Z.to_nat (0 + 1)) with 1%nat. unfold tokens. cbn [skipn].
    replace (Z.to_nat (n + 1 - 1 + 1) - 1)%nat with (List.length middle + 0)%nat
      by (unfold n, len; lia).
    now rewrite firstn_app_2, firstn_O, app_nil_r.
  - assert (Hempty : List.length middle = 0%nat) by (unfold n, len in *; lia).
    destruct middle; [reflexivity | discriminate].
Qed.

(** A run on a range that is a closed quotation returns the quoted text. *)
Lemma quoted_run localeCompare numberToString fuel
      obj isRecursive position last isFilterContext filterSource :
  evaluateAgainst localeCompare numberToString tokens (S (S fuel))
                  obj 0 (len tokens - 1) isRecursive position last
                  isFilterContext filterSource
  = Returns [VStr (Js.join middle)].
Proof.
  assert (Hn : 0 <= n) by (unfold n, len; lia).
  rewrite quoted_len. replace (n + 2 - 1) with (n + 1) by lia.
  change (evaluateAgainst localeCompare numberToString tokens (S (S fuel)))
    with (evaluateAgainstBody
            localeCompare numberToString tokens
            (evaluateAgainst localeCompare numberToString tokens (S fuel))).
  unfold evaluateAgainstBody. rewrite quoted_len.
  replace ((0 <=? 0) && (n + 1 <? n + 2) && (0 <=? n + 1))%bool
    with true by (symmetry; rewrite !andb_true_iff; lia).
  change (token tokens 0) with "'".
  change (Js.trim "'") with "'".
  change (String.eqb EmptyString "'") with false.
  rewrite !(isToken_at tokens 0 "'" _ quoted_first).
  change (Js.trim "'") with "'".
  change (Js.trim "(") with "(". change (Js.trim "[") with "[".
  change (Js.trim (String dquote EmptyString))
    with (String dquote EmptyString).
  change (String.eqb "'" "(") with false.
  change (String.eqb "'" "[") with false.
  change (String.eqb "'" (String dquote EmptyString)) with false.
  change (String.eqb "'" "'") with true.
  cbv iota zeta. cbn [orb].
  rewrite quoted_closing.
  replace (0 <? n + 1) with true by (symmetry; lia).
  rewrite quoted_flatten.
  apply evaluateAgainst_empty_range. lia.
Qed.

End Quoted.

(** X23. An expression that is a text between two apostrophes, itself
    without an apostrophe, evaluates to that text as it is written, with its
    spaces and its other delimiters. *)
Theorem string_literal
        (localeCompare : string -> string -> Z)
        (numberToString : number -> string)
        (el : XPatherElement) (s : string) :
  Js.all (fun c => negb (Ascii.eqb c "'")) s = true ->
  evaluateXPath localeCompare numberToString el ("'" ++ s ++ "'")%string
  = Returns [VStr s].
Proof.
  intros Hs. unfold evaluateXPath, evaluateAgainstNode.
  rewrite tokenize_quoted.
  assert (Hjoin : Js.join (tokenize s) = s)
    by (unfold tokenize, split; now rewrite splitFrom_join).
  change (fuelFor ("'" :: tokenize s ++ ["'"]))
    with (S (S (List.length (tokenize s ++ ["'"])))).
  etransitivity;
    [apply (quoted_run (tokenize s)); intros t;
     now apply tokenize_without_quote|].
  now rewrite Hjoin.
Qed.

(** X23 on the literal ['r/n4 (x)']. *)
Lemma string_literal_witness :
  evaluateXPath codeUnitCompare Positional.toString Scenario7.root
                "'r/n4 (x)'"
  = Returns [VStr "r/n4 (x)"].
Proof.
  apply (string_literal codeUnitCompare Positional.toString Scenario7.root
                        "r/n4 (x)").
  reflexivity.
Defined.

(* ------------------------------------------------------------------ *)
(** ** The child step *)
(* ------------------------------------------------------------------ *)

Lemma childrenFrom_weaken (up : list nat) (i k : nat)
      (l : list XPatherElement) :
  (k <= i)%nat -> childrenFrom up i l -> childrenFrom up k l.
Proof.
  intros Hk H. destruct H as [i|i j e l Hij He Hl]; [constructor|].
  apply childrenFrom_cons with (j := j); [lia | exact He | exact Hl].
Qed.

Lemma includes_childBelow (i : nat) (up : list nat)
      (target : list XPatherResult) (e : XPatherElement) :
  Forall (childBelow i up) target ->
  map fst (path e) = i :: up ->
  includes target (VElem e) = false.
Proof.
  intros Ht He.
  induction Ht as [|v target (e' & j & -> & Hj & Hp) _ IH]; [reflexivity|].
  unfold includes in *. cbn [existsb sameValueZero]. rewrite IH.
  unfold sameElement. rewrite He, Hp.
  destruct (list_eq_dec _ _ _) as [E|_]; [|reflexivity].
  inversion E. lia.
Qed.

Lemma childBelow_le (i j : nat) (up : list nat) (target : list XPatherResult) :
  (i <= j)%nat ->
  Forall (childBelow i up) target -> Forall (childBelow j up) target.
Proof.
  intros Hij. apply Forall_impl. intros v (e & k & -> & Hk & Hp).
  exists e, k. repeat split; [lia | exact Hp].
Qed.

(** A set takes all the members of a list of children, in order. *)
Lemma childrenFrom_addAll (up : list nat) (i : nat) (l : list XPatherElement) :
  childrenFrom up i l ->
  forall target,
    Forall (childBelow i up) target ->
    JsSet.addAll target (map VElem l) = target ++ map VElem l.
Proof.
  induction 1 as [i|i j e l Hij He _ IH]; intros target Ht.
  - cbn [map JsSet.addAll fold_left]. now rewrite app_nil_r.
  - cbn [map].
    change (JsSet.addAll target (VElem e :: map VElem l))
      with (JsSet.addAll (JsSet.add target (VElem e)) (map VElem l)).
    unfold JsSet.add.
    rewrite (includes_childBelow j up target e
                                 (childBelow_le i j up target Hij Ht) He).
    rewrite IH; [now rewrite <- app_assoc|].
    apply Forall_app. split.
    + apply (childBelow_le i (S j)); [lia | exact Ht].
    + constructor; [|constructor]. exists e, j.
      split; [reflexivity | split; [lia | exact He]].
Qed.

(** The child elements that a search without recursion finds. *)
Lemma children_found (condition : XPatherElement -> bool) (t : Top)
      (n : Node) (up : list (nat * Node)) :
  childrenFrom (map fst up) 0 (findMatchingNodes condition false t n up).
Proof.
  destruct n as [nm atts cs|k d]; [|constructor].
  cbn [findMatchingNodes].
  generalize (Element nm atts cs) as parent, 0%nat as i. intros parent.
  induction cs as [|c cs IH]; intros i; [constructor|].
  assert (Hrest := IH (S i)).
  destruct (isElementNode c); cbn [app].
  - rewrite app_nil_r. destruct (condition _); cbn [app].
    + apply childrenFrom_cons with (j := i);
        [lia | reflexivity | exact Hrest].
    + apply childrenFrom_weaken with (i := S i); [lia | exact Hrest].
  - apply childrenFrom_weaken with (i := S i); [lia | exact Hrest].
Qed.

Lemma children_ofList (el : XPatherElement)
      (condition : XPatherElement -> bool) :
  JsSet.ofList (map VElem (findMatchingTagNodes el condition false))
  = map VElem (findMatchingTagNodes el condition false).
Proof.
  unfold JsSet.ofList, findMatchingTagNodes.
  now rewrite (childrenFrom_addAll _ _ _ (children_found _ _ _ _)) by constructor.
Qed.

(** The tokens of [/x] for a name token [x]. *)
Lemma tokenize_child_step (x : string) :
  isNameToken x = true -> tokenize ("/" ++ x) = ["/"; x].
Proof.
  intros Hx. destruct (nameToken_parts x Hx) as (Hall & Hblank & _).
  assert (Hne : truthy x = true).
  { destruct x; [discriminate Hblank | reflexivity]. }
  unfold tokenize, split. cbn [append splitFrom].
  change (isDelimiter "/") with true. cbv iota.
  rewrite (splitFrom_plain x EmptyString Hall).
  cbn [append filter truthy]. now rewrite Hne.
Qed.

Section ChildStep.

Variable localeCompare : string -> string -> Z.
Variable numberToString : number -> string.
Variable x : string.
Hypothesis Hx : isNameToken x = true.
Hypothesis Hself : String.eqb "." (Js.trim x) = false.
Hypothesis Hparent : String.eqb ".." (Js.trim x) = false.

Let T : list string := ["/"; x].
Let ev := evaluateAgainst localeCompare numberToString T.

Lemma children_set (e : XPatherElement) :
  JsSet.ofList (map VElem (childrenByName e (Js.trim x)))
  = map VElem (childrenByName e (Js.trim x)).
Proof.
  unfold childrenByName. destruct (String.eqb "*" (Js.trim x)).
  - rewrite childTags_search. apply children_ofList.
  - apply children_ofList.
Qed.

Lemma child_step_slash (e : XPatherElement) :
  ev 3%nat (Some [VElem e]) 0 1 false 1 0 false None
  = ev 2%nat (Some [VElem e]) 1 1 false 1 0 false None.
Proof.
  unfold ev at 1.
  change (evaluateAgainst localeCompare numberToString T 3)
    with (evaluateAgainstBody localeCompare numberToString T (ev 2%nat)).
  rewrite slash_dispatch by (try reflexivity; cbn; lia).
  rewrite (nameToken_isToken x Hx T 1 eq_refl) by (cbn; tauto).
  cbv zeta iota. change (0 <? 1) with true. cbv iota.
  rewrite (closing_after_name_at T x 0 1 eq_refl Hx eq_refl eq_refl).
  change (-1 - 1 <=? 0) with true. cbv iota.
  apply bind_Returns_ext. intros value.
  apply evaluateAgainst_empty_range. lia.
Qed.

Lemma child_step_name (e : XPatherElement) :
  ev 2%nat (Some [VElem e]) 1 1 false 1 0 false None
  = Returns (map VElem (childrenByName e (Js.trim x))).
Proof.
  unfold ev at 1.
  change (evaluateAgainst localeCompare numberToString T 2)
    with (evaluateAgainstBody localeCompare numberToString T (ev 1%nat)).
  rewrite (nameToken_dispatch x Hx T 1 eq_refl)
    by (try reflexivity; cbn; lia).
  rewrite (getElementsByName_single T (ev 1%nat) x e 1 1 false false Hx eq_refl).
  assert (Hstep :
            elementStep (ev 1%nat) (Js.trim x) 1 1 false false
                        (top e) (node e) (path e) 1
            = Returns (map VElem (childrenByName e (Js.trim x)))).
  { pose proof (children_set e) as Hset. destruct e as [n up t].
    cbn [node path top].
    unfold childrenByName in *.
    destruct n; cbn [elementStep]; rewrite Hself, Hparent; cbn [bind];
      (etransitivity; [apply bind_Returns|]); unfold ev;
      (etransitivity; [apply evaluateAgainst_empty_range; lia|]);
      now rewrite Hset. }
  rewrite Hstep. cbn [bind]. now rewrite children_set.
Qed.

End ChildStep.

(** X24. A name after one slash selects child elements: [/x] returns, in
    document order, the child elements of the context element whose name is
    [x] up to case, and all child elements when [x] is [*]. *)
Theorem child_step
        (localeCompare : string -> string -> Z)
        (numberToString : number -> string)
        (el : XPatherElement) (x : string) :
  isNameToken x = true ->
  String.eqb "." (Js.trim x) = false ->
  String.eqb ".." (Js.trim x) = false ->
  evaluateXPath localeCompare numberToString el ("/" ++ x)
  = Returns (map VElem (childrenByName el (Js.trim x))).
Proof.
  intros Hx Hself Hparent. unfold evaluateXPath, evaluateAgainstNode.
  rewrite (tokenize_child_step x Hx).
  change (fuelFor ["/"; x]) with 3%nat.
  change (len ["/"; x] - 1) with 1.
  etransitivity; [apply (child_step_slash _ _ x Hx)|].
  now apply child_step_name.
Qed.

(** X24 on the step [/BODY] from the root of the document of scenario 7. *)
Lemma child_step_witness :
  evaluateXPath codeUnitCompare Positional.toString Scenario7.root "/BODY"
  = Returns [VElem Scenario7.body].
Proof.
  apply (child_step codeUnitCompare Positional.toString Scenario7.root
                    "BODY");
    reflexivity.
Defined.

(* ------------------------------------------------------------------ *)
(** ** The attribute step *)
(* ------------------------------------------------------------------ *)

Section AttributeToken.

Variable name : string.
Hypothesis Hname : isAttributeName name = true.

Let x : string := String "@" name.

Lemma attributeName_parts :
  name <> EmptyString
  /\ Js.all (fun c => negb (isDelimiter c)) x = true
  /\ Js.all (fun c => negb (Js.isWhiteSpace c)) x = true.
Proof.
  unfold isAttributeName in Hname. apply andb_prop in Hname as [Hne Hall].
  split; [intros E; rewrite E in Hne; discriminate|].
  unfold x. cbn [Js.all]. change (isDelimiter "@") with false.
  change (Js.isWhiteSpace "@") with false. cbn [negb andb].
  split; apply all_implies with (2 := Hall); intros c Hc;
    apply andb_prop in Hc; tauto.
Qed.

Lemma attributeToken_trim : Js.trim x = x.
Proof. apply trim_solid, attributeName_parts. Qed.

Lemma attributeToken_not_delimiter d :
  String.eqb x (String d EmptyString) = false.
Proof.
  destruct attributeName_parts as (Hne & _). unfold x.
  apply String.eqb_neq. intros E. inversion E. contradiction.
Qed.

Let T : list string := ["/"; x].

Lemma attributeToken_tokenIs d : tokenIs T (String d EmptyString) 1 = false.
Proof.
  unfold tokenIs. change (tokenAt T 1) with (Some x). cbv beta iota.
  rewrite String.eqb_sym. apply attributeToken_not_delimiter.
Qed.

Lemma attributeToken_isToken d :
  In d delimiters -> isToken T (String d EmptyString) 1 = false.
Proof.
  intros Hd. rewrite (isToken_at T 1 x _ eq_refl), attributeToken_trim.
  replace (Js.trim (String d EmptyString)) with (String d EmptyString)
    by (cbn in Hd; repeat destruct Hd as [<-|Hd]; try reflexivity;
        destruct Hd).
  apply attributeToken_not_delimiter.
Qed.

Lemma attributeToken_closing : findClosingIndex T 0 1 = -1.
Proof.
  unfold findClosingIndex. change (0 <? 1) with true.
  change (Z.to_nat (1 - 0)) with 1%nat.
  change (tokenIs T (String dquote EmptyString) 0) with false.
  change (tokenIs T "'" 0) with false. change (tokenIs T "(" 0) with false.
  change (tokenIs T "[" 0) with false. change (tokenIs T "/" 0) with true.
  cbv iota. cbn [orb closingBracket]. unfold scanToken.
  rewrite !attributeToken_tokenIs. reflexivity.
Qed.

Variable localeCompare : string -> string -> Z.
Variable numberToString : number -> string.

Let ev := evaluateAgainst localeCompare numberToString T.

Lemma attribute_step_slash (e : XPatherElement) :
  ev 3%nat (Some [VElem e]) 0 1 false 1 0 false None
  = ev 2%nat (Some [VElem e]) 1 1 false 1 0 false None.
Proof.
  unfold ev at 1.
  change (evaluateAgainst localeCompare numberToString T 3)
    with (evaluateAgainstBody localeCompare numberToString T (ev 2%nat)).
  rewrite slash_dispatch by (try reflexivity; cbn; lia).
  change (0 + 1) with 1.
  rewrite (attributeToken_isToken "/") by (cbn; tauto).
  cbv zeta iota. change (0 <? 1) with true. cbv iota.
  rewrite attributeToken_closing.
  change (-1 - 1 <=? 0) with true. cbv iota.
  apply bind_Returns_ext. intros value.
  apply evaluateAgainst_empty_range. lia.
Qed.

Lemma attribute_step_name (e : XPatherElement) :
  ev 2%nat (Some [VElem e]) 1 1 false 1 0 false None
  = Returns (attributeValues e name).
Proof.
  unfold ev at 1.
  change (evaluateAgainst localeCompare numberToString T 2)
    with (evaluateAgainstBody localeCompare numberToString T (ev 1%nat)).
  unfold evaluateAgainstBody.
  change ((0 <=? 1) && (1 <? len T) && (1 <=? 1))%bool with true.
  change (token T 1) with x. rewrite attributeToken_trim.
  change (String.eqb EmptyString x) with false.
  rewrite !attributeToken_isToken by (cbn; tauto).
  change (isFunctionCall T 1 1) with false.
  change (isValidInteger x) with false. change (isValidDouble x) with false.
  cbv iota. cbn [orb andb]. unfold getElementsByName.
  change (token T 1) with x. rewrite attributeToken_trim.
  replace (isAtt x) with true
    by (destruct attributeName_parts as (Hne & _); unfold x;
        destruct name; [contradiction | reflexivity]).
  change (Js.slice1 x) with name.
  unfold attributeStep, attributeVisit, attributeValues. cbn [forOf].
  destruct (String.eqb "*" name).
  - unfold ev.
    rewrite evaluateAgainst_empty_range by lia. reflexivity.
  - destruct (getAttributeByName e name); [|reflexivity].
    unfold ev. rewrite evaluateAgainst_empty_range by lia. reflexivity.
Qed.

Lemma tokenize_attribute_step : tokenize ("/@" ++ name) = T.
Proof.
  destruct attributeName_parts as (_ & Hall & _).
  unfold tokenize, split.
  change (splitFrom "" ("/@" ++ name))
    with ("" :: "/" :: splitFrom "" x)%string.
  rewrite (splitFrom_plain x EmptyString Hall). reflexivity.
Qed.

End AttributeToken.

(** X25. An attribute reference after one slash selects attribute values:
    [/@name] returns the value of the attribute [name] of the context
    element, as a string, and nothing when the element has no such
    attribute; [/@*] returns the values of all its attributes. *)
Theorem attribute_step
        (localeCompare : string -> string -> Z)
        (numberToString : number -> string)
        (el : XPatherElement) (name : string) :
  isAttributeName name = true ->
  evaluateXPath localeCompare numberToString el ("/@" ++ name)
  = Returns (attributeValues el name).
Proof.
  intros Hname. unfold evaluateXPath, evaluateAgainstNode.
  rewrite (tokenize_attribute_step name Hname).
  change (fuelFor ["/"; String "@" name]) with 3%nat.
  change (len ["/"; String "@" name] - 1) with 1.
  etransitivity; [apply (attribute_step_slash name Hname)|].
  now apply attribute_step_name.
Qed.

(** X25 on the step [/@href] from an anchor. *)
Lemma attribute_step_witness :
  evaluateXPath codeUnitCompare Positional.toString Scenario7.anchor "/@href"
  = Returns [VStr "r/n4"].
Proof.
  apply (attribute_step codeUnitCompare Positional.toString Scenario7.anchor
                        "href").
  reflexivity.
Defined.

(* ------------------------------------------------------------------ *)
(** ** Attributes as an object, and sets *)
(* ------------------------------------------------------------------ *)

Lemma hasKey_fresh (o : list (string * string)) (key : string) :
  ~ In key (map fst o) -> JsObject.hasKey o key = false.
Proof.
  intros Hfresh. unfold JsObject.hasKey.
  destruct (existsb _ o) eqn:E; [|reflexivity].
  apply existsb_exists in E as ([k v] & Hin & Hk). cbn [fst] in Hk.
  apply String.eqb_eq in Hk. subst k. exfalso. apply Hfresh.
  apply in_map_iff. now exists (key, v).
Qed.

Lemma set_loop_fresh (l : list (string * string)) :
  forall o,
    NoDup (map fst (o ++ l)) ->
    Forall (fun kv => JsObject.arrayIndex (fst kv) = None
                      /\ fst kv <> "__proto__") l ->
    fold_left (fun o attr => JsObject.set o (fst attr) (snd attr)) l o
    = o ++ l.
Proof.
  induction l as [|[k v] l IH]; intros o Hnodup Hl; cbn [fold_left].
  - now rewrite app_nil_r.
  - inversion Hl as [|? ? [Hindex Hproto] Hrest]; subst. cbn [fst snd] in *.
    assert (Hset : JsObject.set o k v = o ++ [(k, v)]).
    { unfold JsObject.set.
      apply String.eqb_neq in Hproto. rewrite Hproto.
      rewrite hasKey_fresh, Hindex; [reflexivity|].
      rewrite map_app in Hnodup. cbn [map fst] in Hnodup.
      apply NoDup_remove_2 in Hnodup. intros Hin. apply Hnodup.
      apply in_or_app. now left. }
    rewrite Hset, IH; [now rewrite <- app_assoc | | exact Hrest].
    now rewrite <- app_assoc.
Qed.

(** X26. The object that [getAttributes] builds enumerates the attributes in
    the order of the element, when their names are distinct, none is an array
    index and none is [__proto__]. *)
Theorem getAttributes_in_order (el : XPatherElement) :
  NoDup (map fst (attributes el)) ->
  Forall (fun kv => JsObject.arrayIndex (fst kv) = None
                    /\ fst kv <> "__proto__") (attributes el) ->
  getAttributes el = attributes el
  /\ JsObject.values (getAttributes el) = map snd (attributes el).
Proof.
  intros Hnodup Hnames.
  assert (E : getAttributes el = attributes el)
    by (unfold getAttributes; now rewrite set_loop_fresh).
  now rewrite E.
Qed.

(** X26 on an anchor with the attributes [id] and [href]. *)
Lemma getAttributes_in_order_witness :
  getAttributes Scenario7.anchor = attributes Scenario7.anchor
  /\ JsObject.values (getAttributes Scenario7.anchor)
     = map snd (attributes Scenario7.anchor).
Proof.
  apply (getAttributes_in_order Scenario7.anchor).
  - repeat constructor; cbn; intuition discriminate.
  - repeat constructor; cbn; discriminate.
Defined.

Lemma sameValueZero_refl (v : XPatherResult) : sameValueZero v v = true.
Proof.
  destruct v as [b|[|m s]|s|e]; cbn.
  - now destruct b.
  - reflexivity.
  - unfold Num.eqb, Num.cmp. now rewrite Z.compare_refl.
  - apply String.eqb_refl.
  - unfold sameElement. now destruct (list_eq_dec _ _ _).
Qed.

Lemma includes_In (l : list XPatherResult) (v : XPatherResult) :
  In v l -> includes l v = true.
Proof.
  intros H. unfold includes. apply existsb_exists.
  exists v. split; [exact H | apply sameValueZero_refl].
Qed.

Lemma includes_app (l1 l2 : list XPatherResult) (v : XPatherResult) :
  includes (l1 ++ l2) v = (includes l1 v || includes l2 v)%bool.
Proof. apply existsb_app. Qed.

Lemma addAll_grows (source : list XPatherResult) :
  forall target,
    exists added,
      JsSet.addAll target source = target ++ added
      /\ Subsequence added source
      /\ forall v, In v source ->
                   includes (JsSet.addAll target source) v = true.
Proof.
  induction source as [|w source IH]; intros target.
  - exists []. cbn [JsSet.addAll fold_left]. rewrite app_nil_r.
    repeat split; [constructor | intros v []].
  - change (JsSet.addAll target (w :: source))
      with (JsSet.addAll (JsSet.add target w) source).
    destruct (IH (JsSet.add target w)) as (added & E & Hsub & Hin).
    assert (Hw : includes (JsSet.addAll (JsSet.add target w) source) w = true).
    { rewrite E, includes_app. apply orb_true_iff. left.
      unfold JsSet.add. destruct (includes target w) eqn:Hw; [exact Hw|].
      rewrite includes_app. apply orb_true_iff. right.
      apply includes_In. now left. }
    revert E Hin Hw. unfold JsSet.add.
    destruct (includes target w); intros E Hin Hw.
    + exists added. repeat split; [exact E | now constructor|].
      intros v [<-|Hv]; [exact Hw | now apply Hin].
    + exists (w :: added). rewrite <- app_assoc in E.
      repeat split; [exact E | now constructor|].
      intros v [<-|Hv]; [exact Hw | now apply Hin].
Qed.

(** X27. [addAll] keeps the members of the target in their places and puts
    behind them members of the source, in the order of the source; after it
    the set has every value of the source and of the target. *)
Theorem addAll_members (target source : list XPatherResult) :
  (exists added,
      JsSet.addAll target source = target ++ added
      /\ Subsequence added source)
  /\ (forall v, In v target \/ In v source ->
                includes (JsSet.addAll target source) v = true).
Proof.
  destruct (addAll_grows source target) as (added & E & Hsub & Hin).
  split; [now exists added|].
  intros v [Hv|Hv]; [|now apply Hin].
  rewrite E, includes_app. apply orb_true_iff. left. now apply includes_In.
Qed.

(* ------------------------------------------------------------------ *)
(** ** The values of the attribute axis *)
(* ------------------------------------------------------------------ *)

Lemma Subsequence_Forall {A : Type} (P : A -> Prop) (l1 l2 : list A) :
  Subsequence l1 l2 -> Forall P l2 -> Forall P l1.
Proof.
  induction 1 as [|x l1 l2 _ IH|x l1 l2 _ IH]; intros H.
  - constructor.
  - inversion H; subst. now apply IH.
  - inversion H; subst. constructor; [assumption | now apply IH].
Qed.

Lemma strings_elementFree (l : list XPatherResult) :
  Forall (fun v => isString v = true) l -> elementFree l.
Proof.
  apply Forall_impl. now intros [b|n|s|e].
Qed.

Lemma isToken_other (tokenArray : list string) (a b : string) (i : Z) :
  isToken tokenArray a i = true ->
  String.eqb (Js.trim a) (Js.trim b) = false ->
  isToken tokenArray b i = false.
Proof.
  unfold isToken. intros Ha Hab.
  apply andb_prop in Ha as [-> Ha]. apply String.eqb_eq in Ha.
  now rewrite Ha, Hab.
Qed.

(** On strings, a range of predicates returns strings. *)
Lemma predicates_strings localeCompare numberToString tokenArray :
  forall count fuel obj from to isRecursive position last isFilterContext
         filterSource result,
    predicatesFrom tokenArray count from to = true ->
    Forall (fun v => isString v = true) obj ->
    evaluateAgainst localeCompare numberToString tokenArray fuel (Some obj)
                    from to isRecursive position last isFilterContext
                    filterSource
    = Returns result ->
    Forall (fun v => isString v = true) result.
Proof.
  induction count as [|count IH];
    intros fuel obj from to isRecursive position last isFilterContext
           filterSource result Hp Hobj Hrun; [discriminate Hp|].
  destruct fuel as [|fuel]; [discriminate Hrun|].
  cbn [evaluateAgainst] in Hrun. unfold evaluateAgainstBody in Hrun.
  cbn [predicatesFrom] in Hp.
  destruct ((0 <=? from) && (to <? len tokenArray) && (from <=? to))%bool
    eqn:Hrange; [|injection Hrun as <-; exact Hobj].
  assert (Hto : (to <? from) = false).
  { apply andb_prop in Hrange as [_ Hle]. apply Z.leb_le in Hle.
    apply Z.ltb_ge. exact Hle. }
  rewrite Hto in Hp.
  destruct (String.eqb EmptyString (Js.trim (token tokenArray from))).
  { exact (IH _ _ _ _ _ _ _ _ _ _ Hp Hobj Hrun). }
  destruct (isToken tokenArray "[" from) eqn:Hbracket; [|discriminate Hp].
  rewrite (isToken_other tokenArray "[" "(" from Hbracket eq_refl) in Hrun.
  cbv zeta in Hp, Hrun. apply andb_prop in Hp as [Hclosing Hp].
  rewrite Hclosing in Hrun.
  destruct (filterByCondition
              (evaluateAgainst localeCompare numberToString tokenArray fuel)
              obj (from + 1) (findClosingIndex tokenArray from to - 1))
    as [value| |] eqn:Hfilter; cbn [bind] in Hrun;
    [|discriminate Hrun|discriminate Hrun].
  apply (IH _ _ _ _ _ _ _ _ _ _ Hp) in Hrun; [exact Hrun|].
  unfold filterByCondition, forEach in Hfilter.
  apply filter_loop_subsequence in Hfilter as (more & -> & Hsub).
  exact (Subsequence_Forall _ _ _ Hsub Hobj).
Qed.

Section AttributeValues.

Variable ev : evaluator.
Variable name : string.
Variables from to : Z.
Variable isFilterContext : bool.

(** What the loop of the attribute axis returns has the property that the
    rest of the range gives to what it returns on strings. *)
Lemma visit_loop_invariant (P : XPatherResult -> Prop)
      (nodes : list XPatherResult) :
  (forall l values,
      Forall (fun v => isString v = true) l ->
      ev (Some l) (from + 1) to false 1 1 isFilterContext None
      = Returns values ->
      Forall P values) ->
  forall result result',
    Forall P result ->
    forOf nodes (attributeVisit ev name from to isFilterContext) result
    = Returns result' ->
    Forall P result'.
Proof.
  intros Hev. apply forOf_invariant. intros next result result' Hres.
  unfold attributeVisit. destruct next as [b|n|s|e]; try discriminate.
  assert (Hcall : forall l,
             Forall (fun v => isString v = true) l ->
             bind (ev (Some l) (from + 1) to false 1 1 isFilterContext None)
                  (fun values => Returns (result ++ values))
             = Returns result' ->
             Forall P result').
  { intros l Hl.
    destruct (ev (Some l) (from + 1) to false 1 1 isFilterContext None)
      as [values| |] eqn:Hrun; cbn [bind]; try discriminate.
    intros [= <-]. apply Forall_app. split; [exact Hres|].
    exact (Hev l values Hl Hrun). }
  destruct (String.eqb "*" name).
  - apply Hcall. apply Forall_forall. intros v Hv. apply in_map_iff in Hv.
    now destruct Hv as (? & <- & _).
  - destruct (getAttributeByName e name) as [attValue|].
    + apply Hcall. now repeat constructor.
    + intros [= <-]. exact Hres.
Qed.

(** The loop of the attribute axis returns or throws an XPatherException
    when the rest of the range does so on strings. *)
Lemma visit_loop_ends (nodes : list XPatherResult) :
  (forall l, elementFree l ->
             ev (Some l) (from + 1) to false 1 1 isFilterContext None
             <> Timeout
             /\ holds elementFree
                      (ev (Some l) (from + 1) to false 1 1 isFilterContext
                          None)) ->
  forall result,
    (exists result',
        forOf nodes (attributeVisit ev name from to isFilterContext) result
        = Returns result')
    \/ (exists message,
           forOf nodes (attributeVisit ev name from to isFilterContext) result
           = Throws (XPatherException message)).
Proof.
  intros Hev. induction nodes as [|next nodes IH]; intros result;
    cbn [forOf]; [left; now exists result|].
  assert (Hvisit : (exists st,
                       attributeVisit ev name from to isFilterContext next
                                      result
                       = Returns st)
                   \/ exists message,
                       attributeVisit ev name from to isFilterContext next
                                      result
                       = Throws (XPatherException message)).
  { unfold attributeVisit.
    destruct next as [b|n|s|e]; try (right; now exists None).
    assert (Hcall : forall l,
               elementFree l ->
               (exists st,
                   bind (ev (Some l) (from + 1) to false 1 1 isFilterContext
                            None)
                        (fun values => Returns (result ++ values))
                   = Returns st)
               \/ exists message,
                   bind (ev (Some l) (from + 1) to false 1 1 isFilterContext
                            None)
                        (fun values => Returns (result ++ values))
                   = Throws (XPatherException message)).
    { intros l Hl. destruct (Hev l Hl) as [Hend Hflat].
      destruct (ev (Some l) (from + 1) to false 1 1 isFilterContext None)
        as [a|[m|m]|]; cbn [bind holds] in *;
        [eauto | eauto | destruct Hflat | now elim Hend]. }
    destruct (String.eqb "*" name).
    - apply Hcall. apply Forall_forall. intros x Hx. apply in_map_iff in Hx.
      now destruct Hx as (? & <- & _).
    - destruct (getAttributeByName e name); [|eauto].
      apply Hcall. now repeat constructor. }
  destruct Hvisit as [[st ->]|[message ->]]; cbn [bind]; [apply IH | eauto].
Qed.

End AttributeValues.

(** C6, as the code has it.  On every source of elements and every range, with
    fuel for the rest of the range, the attribute axis returns a list or
    throws an XPatherException, and no value of a returned list is an
    element: each is a string, a number or a boolean.  Every value of a
    returned list is a string when nothing but predicates in square brackets
    follows the attribute token in the range; when the attribute token is the
    last token of the range, the axis returns such a list. *)
Theorem attribute_axis_strings
        (localeCompare : string -> string -> Z)
        (numberToString : number -> string)
        (tokenArray : list string) (fuel : nat)
        (source : list XPatherResult) (from to : Z)
        (isRecursive isFilterContext : bool) :
  isAtt (Js.trim (token tokenArray from)) = true ->
  Forall (fun v => isElement v = true) source ->
  (span (from + 1) to < fuel)%nat ->
  let run :=
    getElementsByName
      tokenArray
      (evaluateAgainst localeCompare numberToString tokenArray fuel)
      source from to isRecursive isFilterContext in
  ((exists result, run = Returns result)
   \/ (exists message, run = Throws (XPatherException message)))
  /\ (forall result,
         run = Returns result ->
         Forall (fun v => isElement v = false) result
         /\ (onlyPredicates tokenArray (from + 1) to = true ->
             Forall (fun v => isString v = true) result))
  /\ (to = from ->
      exists result,
        run = Returns result /\ Forall (fun v => isString v = true) result).
Proof.
  intros Hatt Hs Hfuel run. subst run. unfold getElementsByName.
  rewrite Hatt. unfold attributeStep. split; [|split].
  - apply visit_loop_ends. intros l Hl.
    split; [now apply evaluateAgainst_ends|].
    apply evaluateAgainst_flat; [exact Hl | exact I].
  - intros result Hrun. split.
    + apply (visit_loop_invariant _ _ _ _ _ (fun v => isElement v = false)
                                  _) with (3 := Hrun); [|constructor].
      intros l values Hl Hvalues.
      pose proof (evaluateAgainst_flat
                    localeCompare numberToString tokenArray fuel
                    (Some l) (from + 1) to false 1 1 isFilterContext None
                    (strings_elementFree l Hl) I) as Hflat.
      rewrite Hvalues in Hflat. exact Hflat.
    + intros Hpredicates.
      apply (visit_loop_invariant _ _ _ _ _ (fun v => isString v = true)
                                  _) with (3 := Hrun); [|constructor].
      intros l values Hl Hvalues.
      exact (predicates_strings _ _ _ _ _ _ _ _ _ _ _ _ _ _
                                Hpredicates Hl Hvalues).
  - intros ->. destruct fuel as [|fuel]; [lia|].
    apply (attributeStep_strings _ _ _ _ _ source isRecursive);
      [|exact Hs].
    intros l. rewrite evaluateAgainst_empty_range; [reflexivity | lia].
Qed.

(** C6 on the step [@id] alone in its range, over an anchor, and on the step
    [@*[2]] of [/@*[2]] over the same anchor, where a predicate follows the
    attribute token. *)
Lemma attribute_axis_strings_witness :
  (let run :=
     getElementsByName
       ["@id"]
       (evaluateAgainst codeUnitCompare Positional.toString ["@id"] 1)
       [VElem Scenario7.anchor] 0 0 false false in
   ((exists result, run = Returns result)
    \/ (exists message, run = Throws (XPatherException message)))
   /\ (forall result,
          run = Returns result ->
          Forall (fun v => isElement v = false) result
          /\ (onlyPredicates ["@id"] (0 + 1) 0 = true ->
              Forall (fun v => isString v = true) result))
   /\ (0 = 0 ->
       exists result,
         run = Returns result /\ Forall (fun v => isString v = true) result))
  /\ (let run :=
        getElementsByName
          (tokenize "/@*[2]")
          (evaluateAgainst codeUnitCompare Positional.toString
                           (tokenize "/@*[2]") 4)
          [VElem Scenario7.anchor] 1 4 false false in
      ((exists result, run = Returns result)
       \/ (exists message, run = Throws (XPatherException message)))
      /\ (forall result,
             run = Returns result ->
             Forall (fun v => isElement v = false) result
             /\ (onlyPredicates (tokenize "/@*[2]") (1 + 1) 4 = true ->
                 Forall (fun v => isString v = true) result))
      /\ (4 = 1 ->
          exists result,
            run = Returns result
            /\ Forall (fun v => isString v = true) result)).
Proof.
  split.
  - apply (attribute_axis_strings
             codeUnitCompare Positional.toString ["@id"] 1
             [VElem Scenario7.anchor] 0 0 false false).
    + reflexivity.
    + repeat constructor.
    + vm_compute. lia.
  - apply (attribute_axis_strings
             codeUnitCompare Positional.toString (tokenize "/@*[2]") 4
             [VElem Scenario7.anchor] 1 4 false false).
    + reflexivity.
    + repeat constructor.
    + vm_compute. lia.
Defined.

(** The run of the second case returns the value of the second attribute,
    and its range holds nothing but a predicate after the attribute token. *)
Example attribute_axis_with_predicate :
  getElementsByName
    (tokenize "/@*[2]")
    (evaluateAgainst codeUnitCompare Positional.toString
                     (tokenize "/@*[2]") 4)
    [VElem Scenario7.anchor] 1 4 false false
  = Returns [VStr "r/n4"]
  /\ onlyPredicates (tokenize "/@*[2]") (1 + 1) 4 = true.
Proof.
  split; vm_compute; reflexivity.
Qed.

(** C6, as the specification words it, fails inside a predicate: in
    [//a[@id='x']] the attribute axis is evaluated on the range
    [@id='x'] of the predicate against the anchor, the comparison belongs to
    the rest of its range, and the axis returns a boolean.  In
    [//a[@id/last()]] the function call belongs to the rest of the range
    [@id/last()], and the axis returns a number. *)
Lemma attribute_axis_boolean :
  tokenize "//a[@id='x']"
  = ["/"; "/"; "a"; "["; "@id"; "="; "'"; "x"; "'"; "]"]
  /\ getElementsByName
       (tokenize "//a[@id='x']")
       (evaluateAgainst codeUnitCompare Positional.toString
                        (tokenize "//a[@id='x']") 5)
       [VElem Scenario7.anchor] 4 8 false true
     = Returns [VBool true]
  /\ tokenize "//a[@id/last()]"
     = ["/"; "/"; "a"; "["; "@id"; "/"; "last"; "("; ")"; "]"]
  /\ getElementsByName
       (tokenize "//a[@id/last()]")
       (evaluateAgainst codeUnitCompare Positional.toString
                        (tokenize "//a[@id/last()]") 5)
       [VElem Scenario7.anchor] 4 8 false true
     = Returns [VNum (Dec 1 0)].
Proof.
  repeat split; vm_compute; reflexivity.
Qed.
